(** * The job record of the queue: a shallow embedding of [src/classes/job.ts]

    The file follows the TypeScript source function by function.  JavaScript
    values are a small inductive type; numbers are the integers together with
    [NaN] (fractions, exponents and infinities are outside the model);
    strings are byte strings.  The calls a method makes on its collaborators
    (connection, script engine, event bus, logger) are recorded in a trace,
    and what the collaborators answer is read from the queue value. *)

From Stdlib Require Import ZArith List String Ascii Bool Lia Decimal DecimalString
  DecimalN DecimalPos DecimalFacts.
Import ListNotations.

#[local] Open Scope string_scope.
#[local] Open Scope Z_scope.

(** ** JavaScript values *)

Module JS.

Inductive number : Type :=
| NaN
| Int (z : Z).

Unset Elimination Schemes.
Inductive JsVal : Type :=
| VUndefined
| VNull
| VBool (b : bool)
| VNum (n : number)
| VStr (s : string)
| VArr (l : list JsVal)
| VObj (props : list (string * JsVal)).
Set Elimination Schemes.

(** Induction over values, with the hypotheses for the elements of an array
    and the property values of an object. *)
Section JsVal_induction.
Variable P : JsVal -> Prop.
Hypothesis Hundef : P VUndefined.
Hypothesis Hnull : P VNull.
Hypothesis Hbool : forall b, P (VBool b).
Hypothesis Hnum : forall n, P (VNum n).
Hypothesis Hstr : forall s, P (VStr s).
Hypothesis Harr : forall l, Forall P l -> P (VArr l).
Hypothesis Hobj : forall props, Forall (fun kv => P (snd kv)) props -> P (VObj props).

Fixpoint JsVal_ind (v : JsVal) : P v :=
  match v with
  | VUndefined => Hundef
  | VNull => Hnull
  | VBool b => Hbool b
  | VNum n => Hnum n
  | VStr s => Hstr s
  | VArr l =>
      Harr l ((fix elems (l : list JsVal) : Forall P l :=
                 match l with
                 | [] => Forall_nil _
                 | x :: l' => Forall_cons x (JsVal_ind x) (elems l')
                 end) l)
  | VObj props =>
      Hobj props
        ((fix members (l : list (string * JsVal)) : Forall (fun kv => P (snd kv)) l :=
            match l with
            | [] => Forall_nil _
            | kv :: l' => Forall_cons kv (JsVal_ind (snd kv)) (members l')
            end) props)
  end.
End JsVal_induction.

Definition num (z : Z) : JsVal := VNum (Int z).

(** What a [throw] carries. *)
Inductive Exn : Type :=
| SyntaxError                      (* JSON.parse on text that is not JSON *)
| TypeError                        (* a property read on null or undefined *)
| Error (message : JsVal)          (* new Error(message) *)
| Rejected (reason : JsVal).       (* a collaborator's promise rejected *)

Inductive Result (A : Type) : Type :=
| Ok (a : A)
| Throw (e : Exn).
Arguments Ok {A} a.
Arguments Throw {A} e.

(** *** Truthiness and [||] *)

Definition truthy (v : JsVal) : bool :=
  match v with
  | VUndefined | VNull => false
  | VBool b => b
  | VNum NaN => false
  | VNum (Int z) => negb (z =? 0)
  | VStr s => negb (s =? "")%string
  | VArr _ | VObj _ => true
  end.

Definition or (a b : JsVal) : JsVal := if truthy a then a else b.

Definition is_undefined (v : JsVal) : bool :=
  match v with VUndefined => true | _ => false end.

Definition is_string (v : JsVal) : bool :=
  match v with VStr _ => true | _ => false end.

(** *** Decimal numerals *)

Definition string_of_N (n : N) : string := NilEmpty.string_of_uint (N.to_uint n).

Definition string_of_Z (z : Z) : string :=
  match z with
  | Z0 => "0"
  | Zpos p => string_of_N (Npos p)
  | Zneg p => String "-" (string_of_N (Npos p))
  end.

Definition digit_of_char (c : ascii) : option (uint -> uint) :=
  match c with
  | "0" => Some D0 | "1" => Some D1 | "2" => Some D2 | "3" => Some D3
  | "4" => Some D4 | "5" => Some D5 | "6" => Some D6 | "7" => Some D7
  | "8" => Some D8 | "9" => Some D9
  | _ => None
  end%char.

(** The longest prefix of digits, and what follows it. *)
Fixpoint read_uint (s : string) : uint * string :=
  match s with
  | EmptyString => (Nil, EmptyString)
  | String c r =>
      match digit_of_char c with
      | Some d => let '(u, r') := read_uint r in (d u, r')
      | None => (Nil, s)
      end
  end.

Definition is_ws (c : ascii) : bool :=
  match c with
  | " " | "009" | "010" | "013" => true
  | _ => false
  end%char.

Fixpoint skip_ws (s : string) : string :=
  match s with
  | String c r => if is_ws c then skip_ws r else s
  | EmptyString => EmptyString
  end.

(** *** ToString *)

Definition number_toString (n : number) : string :=
  match n with
  | NaN => "NaN"
  | Int z => string_of_Z z
  end.

Fixpoint join (sep : string) (l : list string) : string :=
  match l with
  | [] => ""
  | [x] => x
  | x :: l' => x ++ sep ++ join sep l'
  end.

(** [String(v)]; inside [Array.prototype.join] null and undefined give the
    empty string. *)
Fixpoint toString (v : JsVal) : string :=
  match v with
  | VUndefined => "undefined"
  | VNull => "null"
  | VBool true => "true"
  | VBool false => "false"
  | VNum n => number_toString n
  | VStr s => s
  | VArr l =>
      join "," (map (fun x => match x with
                              | VUndefined | VNull => ""
                              | _ => toString x
                              end) l)
  | VObj _ => "[object Object]"
  end.

(** *** ToNumber and [parseInt], on the integers *)

(** An optional sign followed by digits only. *)
Definition read_int (s : string) : option (Z * string) :=
  let '(neg, body) :=
    match s with
    | String "-" r => (true, r)
    | String "+" r => (false, r)
    | _ => (false, s)
    end in
  match read_uint body with
  | (Nil, _) => None
  | (u, r) => let n := Z.of_N (N.of_uint u) in
              Some (if neg then - n else n, r)
  end.

(** [parseInt(x)]: leading white space, a sign, then the digits that follow;
    [NaN] when there is none.  (The hexadecimal prefix is not modelled.) *)
Definition parseInt (v : JsVal) : number :=
  match read_int (skip_ws (toString v)) with
  | Some (z, _) => Int z
  | None => NaN
  end.

Definition string_toNumber (s : string) : number :=
  match skip_ws s with
  | "" => Int 0
  | t => match read_int t with
         | Some (z, r) => match skip_ws r with "" => Int z | _ => NaN end
         | None => NaN
         end
  end.

Definition toNumber (v : JsVal) : number :=
  match v with
  | VUndefined => NaN
  | VNull => Int 0
  | VBool b => Int (if b then 1 else 0)
  | VNum n => n
  | VStr s => string_toNumber s
  | VArr _ | VObj _ => string_toNumber (toString v)
  end.

Definition number_lt (a b : number) : bool :=
  match a, b with
  | Int x, Int y => x <? y
  | _, _ => false
  end.

(** [a == b] on numbers. *)
Definition number_eq (a b : number) : bool :=
  match a, b with
  | Int x, Int y => x =? y
  | _, _ => false
  end.

Definition number_sub (a b : number) : number :=
  match a, b with
  | Int x, Int y => Int (x - y)
  | _, _ => NaN
  end.

Definition number_add (a b : number) : number :=
  match a, b with
  | Int x, Int y => Int (x + y)
  | _, _ => NaN
  end.

(** *** Objects as property lists, in enumeration order *)

Definition Props := list (string * JsVal).

Fixpoint lookup (k : string) (o : Props) : JsVal :=
  match o with
  | [] => VUndefined
  | (k', v) :: o' => if (k' =? k)%string then v else lookup k o'
  end.

(** [o[k] = v]: an existing property keeps its place. *)
Fixpoint set (k : string) (v : JsVal) (o : Props) : Props :=
  match o with
  | [] => [(k, v)]
  | (k', v') :: o' => if (k' =? k)%string then (k', v) :: o' else (k', v') :: set k v o'
  end.

(** [v.k].  Null and undefined have no properties; the names this file reads
    ([timestamp], [backoff], [attempts], ...) are not properties of numbers,
    booleans, strings or arrays. *)
Definition get (v : JsVal) (k : string) : Result JsVal :=
  match v with
  | VUndefined | VNull => Throw TypeError
  | VObj o => Ok (lookup k o)
  | _ => Ok VUndefined
  end.

Fixpoint indexed (i : N) (l : list JsVal) : Props :=
  match l with
  | [] => []
  | x :: l' => (string_of_N i, x) :: indexed (N.succ i) l'
  end.

Fixpoint chars (s : string) : list JsVal :=
  match s with
  | EmptyString => []
  | String c r => VStr (String c EmptyString) :: chars r
  end.

(** The own enumerable properties [Object.assign] copies from a source. *)
Definition own_props (v : JsVal) : Props :=
  match v with
  | VObj o => o
  | VArr l => indexed 0%N l
  | VStr s => indexed 0%N (chars s)
  | _ => []
  end.

Definition assign (target : Props) (source : JsVal) : Props :=
  fold_left (fun o kv => set (fst kv) (snd kv) o) (own_props source) target.

(** [arr.slice(0, end)]. *)
Definition slice0 (l : list JsVal) (e : number) : list JsVal :=
  let len := Z.of_nat (List.length l) in
  let rel := match e with NaN => 0 | Int z => z end in
  let fin := if rel <? 0 then Z.max (len + rel) 0 else Z.min rel len in
  firstn (Z.to_nat fin) l.

End JS.

(** ** JSON text: [JSON.stringify] and [JSON.parse] *)

Module JSON.
Import JS.

Definition dquote : ascii := "034"%char.
Definition backslash : ascii := "\"%char.

(** Test data is written with single quotes where JSON has double quotes. *)
Fixpoint dq (s : string) : string :=
  match s with
  | EmptyString => EmptyString
  | String c r => String (if Ascii.eqb c "'" then dquote else c) (dq r)
  end.

(** *** Printing *)

(** The lower-case hexadecimal digit of a number below 16. *)
Definition hex_char (n : N) : ascii :=
  ascii_of_N (if (n <? 10)%N then 48 + n else 87 + n).

Definition escape (c : ascii) : string :=
  match c with
  | "034"%char => String backslash (String dquote "")
  | "\"%char => "\\"
  | "008"%char => "\b"
  | "009"%char => "\t"
  | "010"%char => "\n"
  | "012"%char => "\f"
  | "013"%char => "\r"
  | _ => let n := N_of_ascii c in
         if (n <? 32)%N
         then "\u00" ++ String (hex_char (n / 16)) (String (hex_char (n mod 16)) "")
         else String c ""
  end.

Fixpoint quote_body (s : string) : string :=
  match s with
  | EmptyString => EmptyString
  | String c r => escape c ++ quote_body r
  end.

Definition quote (s : string) : string :=
  String dquote (quote_body s ++ String dquote "").

(** The members of an object literal: a property whose value is undefined
    is left out. *)
Definition stringify_members (print : JsVal -> string) : Props -> list string :=
  fix members (o : Props) : list string :=
    match o with
    | [] => []
    | (_, VUndefined) :: o' => members o'
    | (k, x) :: o' => (quote k ++ ":" ++ print x) :: members o'
    end.

(** The text of a value at a nested position: inside an array undefined and
    NaN print as null. *)
Fixpoint stringify_value (v : JsVal) : string :=
  match v with
  | VUndefined | VNull | VNum NaN => "null"
  | VBool true => "true"
  | VBool false => "false"
  | VNum (Int z) => string_of_Z z
  | VStr s => quote s
  | VArr l => "[" ++ join "," (map stringify_value l) ++ "]"
  | VObj o => "{" ++ join "," (stringify_members stringify_value o) ++ "}"
  end.

(** [JSON.stringify(v)]: a string, or undefined for undefined. *)
Definition stringify (v : JsVal) : JsVal :=
  match v with
  | VUndefined => VUndefined
  | _ => VStr (stringify_value v)
  end.

(** *** Parsing *)

Definition hex_value (c : ascii) : option N :=
  let n := N_of_ascii c in
  if ((48 <=? n) && (n <=? 57))%N then Some (n - 48)%N
  else if ((97 <=? n) && (n <=? 102))%N then Some (n - 87)%N
  else if ((65 <=? n) && (n <=? 70))%N then Some (n - 55)%N
  else None.

Definition unescape (c : ascii) : option ascii :=
  match c with
  | "034" => Some dquote
  | "\" => Some backslash
  | "/" => Some "/"
  | "b" => Some "008"
  | "t" => Some "009"
  | "n" => Some "010"
  | "f" => Some "012"
  | "r" => Some "013"
  | _ => None
  end%char.

(** A code unit written with four hexadecimal digits; the model keeps the
    code units below 256. *)
Definition code_unit (h1 h2 h3 h4 : ascii) : option ascii :=
  match hex_value h1, hex_value h2, hex_value h3, hex_value h4 with
  | Some a, Some b, Some c, Some d =>
      let n := (((a * 16 + b) * 16 + c) * 16 + d)%N in
      if (n <? 256)%N then Some (ascii_of_N n) else None
  | _, _, _, _ => None
  end.

(** The characters of a string literal after its opening quote, up to and
    including the closing quote. *)
Fixpoint parse_string_body (s : string) : option (string * string) :=
  match s with
  | EmptyString => None
  | String c r =>
      if Ascii.eqb c dquote then Some (EmptyString, r)
      else if Ascii.eqb c backslash then
        match r with
        | String "u" (String h1 (String h2 (String h3 (String h4 r')))) =>
            match code_unit h1 h2 h3 h4, parse_string_body r' with
            | Some x, Some (body, rest) => Some (String x body, rest)
            | _, _ => None
            end
        | String e r' =>
            match unescape e, parse_string_body r' with
            | Some x, Some (body, rest) => Some (String x body, rest)
            | _, _ => None
            end
        | EmptyString => None
        end
      else if (N_of_ascii c <? 32)%N then None
      else match parse_string_body r with
           | Some (body, rest) => Some (String c body, rest)
           | None => None
           end
  end.

(** A number of the integer fragment: an optional minus, then [0] or digits
    that do not start with [0]. *)
Definition parse_digits (neg : bool) (body : string) : option (JsVal * string) :=
  match read_uint body with
  | (Nil, _) => None
  | (u, r) =>
      if uint_beq (unorm u) u
      then let n := Z.of_N (N.of_uint u) in Some (num (if neg then - n else n), r)
      else None
  end.

Definition parse_number (s : string) : option (JsVal * string) :=
  match s with
  | String "-" r => parse_digits true r
  | _ => parse_digits false s
  end.

Fixpoint parse_value (fuel : nat) (s : string) {struct fuel} : option (JsVal * string) :=
  match fuel with
  | O => None
  | S fuel' =>
      match skip_ws s with
      | String "n" (String "u" (String "l" (String "l" r))) => Some (VNull, r)
      | String "t" (String "r" (String "u" (String "e" r))) => Some (VBool true, r)
      | String "f" (String "a" (String "l" (String "s" (String "e" r)))) =>
          Some (VBool false, r)
      | String "034" r =>
          match parse_string_body r with
          | Some (x, r') => Some (VStr x, r')
          | None => None
          end
      | String "[" r =>
          match skip_ws r with
          | String "]" r' => Some (VArr [], r')
          | _ => match parse_elements fuel' r with
                 | Some (l, r') => Some (VArr l, r')
                 | None => None
                 end
          end
      | String "{" r =>
          match skip_ws r with
          | String "}" r' => Some (VObj [], r')
          | _ => match parse_members fuel' r with
                 | Some (o, r') =>
                     Some (VObj (fold_left (fun o kv => set (fst kv) (snd kv) o) o []), r')
                 | None => None
                 end
          end
      | t => parse_number t
      end
  end

with parse_elements (fuel : nat) (s : string) {struct fuel} : option (list JsVal * string) :=
  match fuel with
  | O => None
  | S fuel' =>
      match parse_value fuel' s with
      | Some (x, r) =>
          match skip_ws r with
          | String "," r' =>
              match parse_elements fuel' r' with
              | Some (l, r'') => Some (x :: l, r'')
              | None => None
              end
          | String "]" r' => Some ([x], r')
          | _ => None
          end
      | None => None
      end
  end

with parse_members (fuel : nat) (s : string) {struct fuel} : option (Props * string) :=
  match fuel with
  | O => None
  | S fuel' =>
      match skip_ws s with
      | String "034" r =>
          match parse_string_body r with
          | Some (k, r1) =>
              match skip_ws r1 with
              | String ":" r2 =>
                  match parse_value fuel' r2 with
                  | Some (x, r3) =>
                      match skip_ws r3 with
                      | String "," r4 =>
                          match parse_members fuel' r4 with
                          | Some (o, r5) => Some ((k, x) :: o, r5)
                          | None => None
                          end
                      | String "}" r4 => Some ([(k, x)], r4)
                      | _ => None
                      end
                  | None => None
                  end
              | _ => None
              end
          | None => None
          end
      | _ => None
      end
  end.

(** Every nested call has read at least one more character after at most two
    calls, so twice the length of the text is fuel enough. *)
Definition parse_text (s : string) : Result JsVal :=
  match parse_value (2 * String.length s + 2) s with
  | Some (v, r) => match skip_ws r with
                   | EmptyString => Ok v
                   | _ => Throw SyntaxError
                   end
  | None => Throw SyntaxError
  end.

(** [JSON.parse(text)]: the argument is first converted to a string. *)
Definition parse (text : JsVal) : Result JsVal := parse_text (toString text).

Definition image_members (image : JsVal -> JsVal) : Props -> Props :=
  fix members (o : Props) : Props :=
    match o with
    | [] => []
    | (_, VUndefined) :: o' => members o'
    | (k, x) :: o' => (k, image x) :: members o'
    end.

(** What a round trip through JSON text keeps of a value. *)
Fixpoint image (v : JsVal) : JsVal :=
  match v with
  | VUndefined | VNum NaN => VNull
  | VArr l => VArr (map image l)
  | VObj o => VObj (image_members image o)
  | _ => v
  end.

Fixpoint distinct (l : list string) : bool :=
  match l with
  | [] => true
  | k :: l' => negb (existsb (String.eqb k) l') && distinct l'
  end.

(** The property names of every object are pairwise different, as they are
    in a JavaScript object. *)
Fixpoint well_formed (v : JsVal) : bool :=
  match v with
  | VArr l => forallb well_formed l
  | VObj o => distinct (map fst o) && forallb (fun kv => well_formed (snd kv)) o
  | _ => true
  end.

(** The values JSON text represents exactly. *)
Fixpoint exact (v : JsVal) : bool :=
  match v with
  | VUndefined | VNum NaN => false
  | VArr l => forallb exact l
  | VObj o => distinct (map fst o) && forallb (fun kv => exact (snd kv)) o
  | _ => true
  end.

(** The text after a numeral does not go on with a digit. *)
Definition delimited (rest : string) : bool :=
  match rest with
  | EmptyString => true
  | String c _ => match digit_of_char c with None => true | Some _ => false end
  end.

(** A numeral starts with a digit or the minus sign. *)
Definition number_start (c : ascii) : bool :=
  match digit_of_char c with Some _ => true | None => Ascii.eqb c "-" end.

(** The first character of the text of a value. *)
Definition value_start (c : ascii) : bool :=
  negb (is_ws c) && negb (Ascii.eqb c "]").

(** The text of [v], followed by anything a numeral cannot run into, parses
    back to the image of [v] with fuel twice its length. *)
Definition parses (v : JsVal) : Prop :=
  forall fuel rest,
    (2 * String.length (stringify_value v) <= fuel)%nat ->
    delimited rest = true ->
    parse_value fuel (stringify_value v ++ rest) = Some (image v, rest).

End JSON.

(** ** Helpers of [../utils] *)

Module Utils.
Import JS.

(** Modelled from the spec: [tryCatch] and [errorObject] of the repository's
    utils module, which is not among the sources.  The spec's Deserialize
    "decodes JSON sub-fields defensively": a failing decoder does not
    propagate, its failure comes back as the one value [errorObject], which
    the caller compares against. *)
Inductive Caught : Type :=
| Returned (v : JsVal)
| errorObject (value : Exn).

Definition tryCatch (fn : JsVal -> Result JsVal) (arg : JsVal) : Caught :=
  match fn arg with
  | Ok v => Returned v
  | Throw e => errorObject e
  end.

(** Modelled from the spec: [isEmpty] of the same module; FetchById
    "fetches the record's full field mapping; if empty, returns not found".
    A mapping is empty when it has no own property. *)
Definition isEmpty (obj : JsVal) : bool :=
  match own_props obj with
  | [] => true
  | _ => false
  end.

End Utils.

(** ** The class [Job] *)

Module Job.
Import JS Utils.

(** [err: Error], as far as the class reads it. *)
Record JsError : Type := { message : string; stack : string }.

(** The fields of the class, except [queue] and [toKey]: the queue is passed
    to every function that uses it.  [stacktrace] is [string[]] or null;
    [finishedOn] and [processedOn] stay undefined until they are set;
    [discarded] is never assigned here and tested for truth only. *)
Record Job : Type := mkJob {
  id : JsVal;
  name : JsVal;
  data : JsVal;
  opts : Props;
  progress : JsVal;
  returnvalue : JsVal;
  stacktrace : option (list JsVal);
  timestamp : JsVal;
  attemptsMade : number;
  failedReason : JsVal;
  finishedOn : option number;
  processedOn : option number;
  discarded : bool
}.

Definition set_id (x : JsVal) (j : Job) : Job :=
  mkJob x (name j) (data j) (opts j) (progress j) (returnvalue j) (stacktrace j)
    (timestamp j) (attemptsMade j) (failedReason j) (finishedOn j) (processedOn j)
    (discarded j).
Definition set_progress (x : JsVal) (j : Job) : Job :=
  mkJob (id j) (name j) (data j) (opts j) x (returnvalue j) (stacktrace j)
    (timestamp j) (attemptsMade j) (failedReason j) (finishedOn j) (processedOn j)
    (discarded j).
Definition set_returnvalue (x : JsVal) (j : Job) : Job :=
  mkJob (id j) (name j) (data j) (opts j) (progress j) x (stacktrace j)
    (timestamp j) (attemptsMade j) (failedReason j) (finishedOn j) (processedOn j)
    (discarded j).
Definition set_stacktrace (x : option (list JsVal)) (j : Job) : Job :=
  mkJob (id j) (name j) (data j) (opts j) (progress j) (returnvalue j) x
    (timestamp j) (attemptsMade j) (failedReason j) (finishedOn j) (processedOn j)
    (discarded j).
Definition set_attemptsMade (x : number) (j : Job) : Job :=
  mkJob (id j) (name j) (data j) (opts j) (progress j) (returnvalue j) (stacktrace j)
    (timestamp j) x (failedReason j) (finishedOn j) (processedOn j) (discarded j).
Definition set_failedReason (x : JsVal) (j : Job) : Job :=
  mkJob (id j) (name j) (data j) (opts j) (progress j) (returnvalue j) (stacktrace j)
    (timestamp j) (attemptsMade j) x (finishedOn j) (processedOn j) (discarded j).
Definition set_finishedOn (x : option number) (j : Job) : Job :=
  mkJob (id j) (name j) (data j) (opts j) (progress j) (returnvalue j) (stacktrace j)
    (timestamp j) (attemptsMade j) (failedReason j) x (processedOn j) (discarded j).
Definition set_processedOn (x : option number) (j : Job) : Job :=
  mkJob (id j) (name j) (data j) (opts j) (progress j) (returnvalue j) (stacktrace j)
    (timestamp j) (attemptsMade j) (failedReason j) (finishedOn j) x (discarded j).

(** The field as a value: null, or the array. *)
Definition stacktrace_value (j : Job) : JsVal :=
  match stacktrace j with
  | None => VNull
  | Some l => VArr l
  end.

Definition optional (n : option number) : JsVal :=
  match n with
  | None => VUndefined
  | Some x => VNum x
  end.

(** The commands queued on [queue.client.multi()].  The argument lists the
    script engine builds ([Scripts.moveToDelayedArgs], [retryJobArgs],
    [moveToFailedArgs]) are kept as the values they are built from. *)
Inductive Command : Type :=
| hmset (key : JsVal) (params : Props)
| moveToDelayed (jobId : JsVal) (timestamp : JsVal) (ignoreLock : bool)
| retryJob (job : Job) (ignoreLock : bool)
| moveToFinished (job : Job) (failedReason : string) (removeOnFail : JsVal)
    (ignoreLock : bool).

(** The calls on the collaborators, in the order they are made. *)
Inductive Call : Type :=
| WaitUntilReady
| Hgetall (key : JsVal)
| Logger (msg : string)
| IsFinished (jobId : JsVal)
| Exec (batch : list Command)
| MoveToCompleted (job : Job) (returnValue removeOnComplete : JsVal) (ignoreLock : bool)
| On (event : string)
| SetInterval (ms : JsVal).

(** The queue, through what it answers: [waitUntilReady()], the key of a
    job, [client.hgetall], the pairs [error, result] that [multi.exec()]
    resolves to, [Scripts.isFinished] and [Scripts.moveToCompleted] (which run
    against the queue's connection), and [queue.opts]. *)
Record QueueBase : Type := {
  waitUntilReady : Result unit;
  toKey : JsVal -> JsVal;
  hgetall : JsVal -> Result JsVal;
  exec : list Command -> Result (list (JsVal * JsVal));
  isFinished : JsVal -> Result number;
  moveToCompletedReply : Job -> JsVal -> Result JsVal;
  queue_opts : Props
}.

(** *** Computations: a trace of calls and a result *)

Definition M (A : Type) : Type := (list Call * Result A)%type.

Definition ret {A} (a : A) : M A := ([], Ok a).
Definition throw {A} (e : Exn) : M A := ([], Throw e).
Definition lift {A} (r : Result A) : M A := ([], r).
Definition await {A} (c : Call) (r : Result A) : M A := ([c], r).
Definition bind {A B} (m : M A) (f : A -> M B) : M B :=
  match m with
  | (t, Ok a) => let '(t', r) := f a in ((t ++ t')%list, r)
  | (t, Throw e) => (t, Throw e)
  end.

Notation "x <- m ;; k" := (bind m (fun x => k))
  (at level 61, m at next level, right associativity).
Notation "m ;;; k" := (bind m (fun _ => k))
  (at level 61, right associativity).

Definition trace {A} (m : M A) : list Call := fst m.
Definition result {A} (m : M A) : Result A := snd m.

Section Collaborators.

(** [Backoffs.normalize], [Backoffs.calculate] (module ./backoffs) and
    [Scripts.finishedErrors] (module ./scripts) are not among the sources. *)
Variable Backoffs_normalize : JsVal -> JsVal.
Variable Backoffs_calculate : JsVal -> number -> JsVal -> JsError -> JsVal.
Variable Scripts_finishedErrors : JsVal -> JsVal -> JsVal -> Exn.

(** [new Job(queue, name, data, opts = {})]; [now] is [Date.now()]. *)
Definition new_Job (now : Z) (name data opts : JsVal) : Result Job :=
  let opts := match opts with VUndefined => VObj [] | _ => opts end in
  let this_opts := assign [("attempts", num 0); ("delay", num 0)] opts in
  match get opts "timestamp", get opts "backoff" with
  | Ok ts, Ok backoff =>
      let timestamp := if truthy ts then ts else num now in
      let this_opts := set "backoff" (Backoffs_normalize backoff) this_opts in
      Ok {| id := VUndefined; name := name; data := data; opts := this_opts;
            progress := num 0; returnvalue := VNull; stacktrace := None;
            timestamp := timestamp; attemptsMade := Int 0;
            failedReason := VUndefined; finishedOn := None; processedOn := None;
            discarded := false |}
  | Throw e, _ | _, Throw e => Throw e
  end.

Definition getTraces (stacktrace : JsVal) : list JsVal :=
  let traces := tryCatch JSON.parse stacktrace in
  match traces with
  | errorObject _ => []
  | Returned (VArr l) => l
  | Returned _ => []
  end.

Definition getReturnValue (_value : JsVal) : M JsVal :=
  let value := tryCatch JSON.parse _value in
  match value with
  | Returned v => ret v
  | errorObject _ =>
      await (Logger ("corrupted returnvalue: " ++ toString _value)) (Ok VUndefined)
  end.

(** [Job.fromJSON(queue, json, jobId)] *)
Definition fromJSON (now : Z) (json : JsVal) (jobId : JsVal) : M Job :=
  json_data <- lift (get json "data") ;;
  data <- lift (JSON.parse (or json_data (VStr "{}"))) ;;
  json_opts <- lift (get json "opts") ;;
  opts <- lift (JSON.parse (or json_opts (VStr "{}"))) ;;
  json_name <- lift (get json "name") ;;
  job <- lift (new_Job now json_name data opts) ;;
  json_id <- lift (get json "id") ;;
  let job := set_id (or json_id jobId) job in
  json_progress <- lift (get json "progress") ;;
  progress <- lift (JSON.parse (or json_progress (num 0))) ;;
  let job := set_progress progress job in
  json_finishedOn <- lift (get json "finishedOn") ;;
  let job := if truthy json_finishedOn
             then set_finishedOn (Some (parseInt json_finishedOn)) job else job in
  json_processedOn <- lift (get json "processedOn") ;;
  let job := if truthy json_processedOn
             then set_processedOn (Some (parseInt json_processedOn)) job else job in
  json_failedReason <- lift (get json "failedReason") ;;
  let job := set_failedReason json_failedReason job in
  json_attemptsMade <- lift (get json "attemptsMade") ;;
  let job := set_attemptsMade (parseInt (or json_attemptsMade (num 0))) job in
  json_stacktrace <- lift (get json "stacktrace") ;;
  let job := set_stacktrace (Some (getTraces json_stacktrace)) job in
  json_returnvalue <- lift (get json "returnvalue") ;;
  if is_string json_returnvalue
  then value <- getReturnValue json_returnvalue ;; ret (set_returnvalue value job)
  else ret job.

(** What [Job.fromId] resolves to: a job, null, or nothing. *)
Inductive Fetched : Type :=
| Found (job : Job)
| Null
| Undefined.

Definition not_found (f : Fetched) : bool :=
  match f with
  | Found _ => false
  | Null | Undefined => true
  end.

(** [Job.fromId(queue, jobId)] *)
Definition fromId (queue : QueueBase) (now : Z) (jobId : JsVal) : M Fetched :=
  if truthy jobId then
    await WaitUntilReady (waitUntilReady queue) ;;;
    jobData <- await (Hgetall (toKey queue jobId)) (hgetall queue (toKey queue jobId)) ;;
    if isEmpty jobData then ret Null
    else job <- fromJSON now jobData jobId ;; ret (Found job)
  else ret Undefined.

(** [job.toJSON()] *)
Definition toJSON (this : Job) : Props :=
  [ ("id", id this);
    ("name", name this);
    ("data", JSON.stringify (or (data this) (VObj [])));
    ("opts", JSON.stringify (VObj (opts this)));
    ("progress", progress this);
    ("attemptsMade", VNum (attemptsMade this));
    ("finishedOn", optional (finishedOn this));
    ("processedOn", optional (processedOn this));
    ("timestamp", timestamp this);
    ("failedReason", JSON.stringify (failedReason this));
    ("stacktrace", JSON.stringify (stacktrace_value this));
    ("returnvalue", JSON.stringify (returnvalue this)) ].

(** [job.moveToCompleted(returnValue, ignoreLock)]: the job afterwards, and
    the computation. *)
Definition moveToCompleted (queue : QueueBase) (this : Job) (returnValue : JsVal)
    (ignoreLock : bool) : Job * M JsVal :=
  match waitUntilReady queue with
  | Throw e => (this, await WaitUntilReady (Throw e))
  | Ok _ =>
      let this := set_returnvalue (or returnValue (num 0)) this in
      let returnValue := tryCatch (fun x => Ok (JSON.stringify x)) returnValue in
      match returnValue with
      | errorObject value => (this, await WaitUntilReady (Ok tt) ;;; throw value)
      | Returned returnValue =>
          (this,
           await WaitUntilReady (Ok tt) ;;;
           await (MoveToCompleted this returnValue (lookup "removeOnComplete" (opts this))
                    ignoreLock)
                 (moveToCompletedReply queue this returnValue))
      end
  end.

Definition number_succ (n : number) : number := number_add n (Int 1).

(** [job.saveAttempt(multi, err)]: the job and the batch afterwards. *)
Definition saveAttempt (queue : QueueBase) (this : Job) (multi : list Command)
    (err : JsError) : Job * list Command :=
  let this := set_attemptsMade (number_succ (attemptsMade this)) this in
  let this := set_stacktrace
                (Some match stacktrace this with Some l => l | None => [] end) this in
  let stackTraceLimit := lookup "stackTraceLimit" (opts this) in
  let this :=
    if truthy stackTraceLimit
    then set_stacktrace
           (option_map (fun l => slice0 l (number_sub (toNumber stackTraceLimit) (Int 1)))
                       (stacktrace this)) this
    else this in
  let params :=
    [ ("attemptsMade", VNum (attemptsMade this));
      ("stacktrace", JSON.stringify (stacktrace_value this));
      ("failedReason", VStr (message err)) ] in
  let this := set_stacktrace
                (option_map (fun l => (l ++ [VStr (stack err)])%list) (stacktrace this))
                this in
  (this, (multi ++ [hmset (toKey queue (id this)) params])%list).

(** [Date.now() + delay] *)
Definition plus (now : Z) (delay : JsVal) : JsVal :=
  match delay with
  | VStr s => VStr (string_of_Z now ++ s)
  | VArr _ | VObj _ => VStr (string_of_Z now ++ toString delay)
  | _ => VNum (number_add (Int now) (toNumber delay))
  end.

(** [delay === -1] *)
Definition is_minus_one (delay : JsVal) : bool :=
  match delay with
  | VNum (Int z) => z =? -1
  | _ => false
  end.

(** [opts.settings && opts.settings.backoffStrategies] *)
Definition backoffStrategies (queue : QueueBase) : JsVal :=
  let settings := lookup "settings" (queue_opts queue) in
  if truthy settings
  then match get settings "backoffStrategies" with Ok x => x | Throw _ => VUndefined end
  else settings.

(** The part of [moveToFailed] between [saveAttempt] and [multi.exec()]: the
    batch and [command] afterwards. *)
Definition chooseTransition (queue : QueueBase) (now : Z) (this : Job)
    (multi : list Command) (err : JsError) (ignoreLock : bool)
    : list Command * JsVal :=
  let command := VUndefined in
  let '(multi, command, moveToFailed) :=
    if number_lt (attemptsMade this) (toNumber (lookup "attempts" (opts this)))
       && negb (discarded this)
    then
      let delay := Backoffs_calculate (lookup "backoff" (opts this)) (attemptsMade this)
                     (backoffStrategies queue) err in
      if is_minus_one delay then (multi, command, true)
      else if truthy delay
      then ((multi ++ [moveToDelayed (id this) (plus now delay) ignoreLock])%list,
            VStr "delayed", false)
      else ((multi ++ [retryJob this ignoreLock])%list, VStr "retry", false)
    else (multi, command, true) in
  if moveToFailed : bool
  then ((multi ++ [moveToFinished this (message err)
                     (lookup "removeOnFail" (opts this)) ignoreLock])%list,
        VStr "failed")
  else (multi, command).

(** [results[results.length - 1][1]] *)
Definition last_code (results : list (JsVal * JsVal)) : Result JsVal :=
  match List.rev results with
  | [] => Throw TypeError
  | r :: _ => Ok (snd r)
  end.

(** [job.moveToFailed(err, ignoreLock)]: the job afterwards, and the
    computation. *)
Definition moveToFailed (queue : QueueBase) (now : Z) (this : Job) (err : JsError)
    (ignoreLock : bool) : Job * M unit :=
  match waitUntilReady queue with
  | Throw e => (this, await WaitUntilReady (Throw e))
  | Ok _ =>
      let this := set_failedReason (VStr (message err)) this in
      let multi := [] in
      let '(this, multi) := saveAttempt queue this multi err in
      let '(multi, command) := chooseTransition queue now this multi err ignoreLock in
      (this,
       await WaitUntilReady (Ok tt) ;;;
       results <- await (Exec multi) (exec queue multi) ;;
       code <- lift (last_code results) ;;
       if number_lt (toNumber code) (Int 0)
       then throw (Scripts_finishedErrors code (id this) command)
       else ret tt)
  end.

(** What [waitUntilFinished] gives back: a value, or the promise that the
    listeners it has registered will settle. *)
Inductive Waited : Type :=
| Value (v : JsVal)
| Pending.

(** [job.waitUntilFinished(queueEvents, watchdog, ttl)] *)
Definition waitUntilFinished (queue : QueueBase) (now : Z) (this : Job)
    (watchdog : JsVal) : M Waited :=
  await WaitUntilReady (waitUntilReady queue) ;;;
  let jobId := id this in
  status <- await (IsFinished jobId) (isFinished queue jobId) ;;
  let finished := number_lt (Int 0) status in
  if finished then
    job <- fromId queue now (id this) ;;
    match job with
    | Found job =>
        if number_eq status (Int 2)
        then throw (Error (failedReason job))
        else ret (Value (returnvalue job))
    | Null | Undefined => throw TypeError
    end
  else
    let completedEvent := "completed:" ++ toString jobId in
    let failedEvent := "failed:" ++ toString jobId in
    await (On completedEvent) (Ok tt) ;;;
    await (On failedEvent) (Ok tt) ;;;
    await (SetInterval watchdog) (Ok Pending).

End Collaborators.

End Job.

(** ** Runs of failures *)

Module Run.
Import JS Job.

Section Collaborators.
Variable Backoffs_calculate : JsVal -> number -> JsVal -> JsError -> JsVal.
Variable Scripts_finishedErrors : JsVal -> JsVal -> JsVal -> Exn.

(** A failure event: the time of the call, the error, the lock flag. *)
Definition Failure : Type := (Z * JsError * bool)%type.

(** [moveToFailed] called once for every failure, on the same job object. *)
Fixpoint failures (queue : QueueBase) (this : Job) (events : list Failure)
    : Job * list Call :=
  match events with
  | [] => (this, [])
  | (now, err, ignoreLock) :: events' =>
      let '(this', m) :=
        moveToFailed Backoffs_calculate Scripts_finishedErrors queue now this err
          ignoreLock in
      let '(this'', t) := failures queue this' events' in
      (this'', (trace m ++ t)%list)
  end.

(** Options that JSON text keeps as they are: every option that is set is a
    value JSON represents exactly, and [attempts] and [delay] are set, as the
    constructor's defaults leave them. *)
Definition plain_options (o : Props) : bool :=
  JSON.distinct (map fst o)
  && forallb (fun kv => is_undefined (snd kv) || JSON.exact (snd kv)) o
  && negb (is_undefined (lookup "attempts" o))
  && negb (is_undefined (lookup "delay" o)).

(** The stacktrace a job holds: none while the field is null. *)
Definition retained (this : Job) : list JsVal :=
  match stacktrace this with
  | Some l => l
  | None => []
  end.

(** The entry a failure adds to the stacktrace. *)
Definition entry (f : Failure) : JsVal := VStr (stack (snd (fst f))).

(** The batches submitted with [multi.exec()], in order. *)
Fixpoint batches (t : list Call) : list (list Command) :=
  match t with
  | [] => []
  | Exec batch :: t' => batch :: batches t'
  | _ :: t' => batches t'
  end.

Definition is_moveToFinished (c : Command) : bool :=
  match c with moveToFinished _ _ _ _ => true | _ => false end.

(** The name [moveToFailed] gives the transition it adds to the batch. *)
Definition transition_name (c : Command) : JsVal :=
  match c with
  | moveToDelayed _ _ _ => VStr "delayed"
  | retryJob _ _ => VStr "retry"
  | moveToFinished _ _ _ _ => VStr "failed"
  | hmset _ _ => VUndefined
  end.

(** A batch is terminal when it carries the move to the failed set. *)
Definition terminal (batch : list Command) : bool := existsb is_moveToFinished batch.

(** The hash of the job after the [hmset] commands of the batches, fields
    written later replacing those written earlier. *)
Definition persist (record : Props) (c : Command) : Props :=
  match c with
  | hmset _ params => assign record (VObj params)
  | _ => record
  end.

Definition persisted (record : Props) (t : list Call) : Props :=
  fold_left (fun r batch => fold_left persist batch r) (batches t) record.

(** Where the worker is with a job: it may still fail it, or the last
    failure chose the move to the failed set and no further failure is issued. *)
Inductive Phase : Type := Retryable | Failed.

Definition phase_after (m : M unit) : Phase :=
  if existsb terminal (batches (trace m)) then Failed else Retryable.

Inductive step (queue : QueueBase) : Job * Phase -> Job * Phase -> Prop :=
| step_moveToFailed : forall this now err ignoreLock,
    step queue (this, Retryable)
      (fst (moveToFailed Backoffs_calculate Scripts_finishedErrors queue now this err
              ignoreLock),
       phase_after
         (snd (moveToFailed Backoffs_calculate Scripts_finishedErrors queue now this err
                 ignoreLock))).

Inductive reachable (queue : QueueBase) (s : Job * Phase) : Job * Phase -> Prop :=
| reach_refl : reachable queue s s
| reach_step : forall s1 s2, reachable queue s s1 -> step queue s1 s2 -> reachable queue s s2.

End Collaborators.
End Run.

(** ** Stand-ins for the collaborators, used on concrete inputs *)

Module Doubles.
Import JS Job.

(** Modelled from the spec: [Backoffs.normalize] of ./backoffs, which is not
    among the sources.  Construct "normalizes the backoff policy into
    canonical form (resolves shorthand numeric/string forms into an explicit
    {type, delay} structure)".  A number becomes a fixed policy with that
    delay; the spec does not say what a string resolves to, it is kept; no
    policy stays undefined. *)
Definition normalize (backoff : JsVal) : JsVal :=
  match backoff with
  | VNum (Int n) => VObj [("type", VStr "fixed"); ("delay", num n)]
  | _ => if truthy backoff then backoff else VUndefined
  end.

(** Modelled from the spec: [Backoffs.calculate] of ./backoffs, the spec's
    computeDelay.  "Fixed: constant policy.delay.  Exponential:
    policy.delay * 2^(attemptsMade-1).  Custom: ... if no such strategy is
    registered, treat as STOP", STOP "encoded as -1".  No custom strategy is
    registered here; without a policy there is no delay. *)
Definition calculate (policy : JsVal) (attemptsMade : number) (customStrategies : JsVal)
    (err : JsError) : JsVal :=
  match policy with
  | VObj o =>
      match lookup "type" o, lookup "delay" o, attemptsMade with
      | VStr "fixed", delay, _ => delay
      | VStr "exponential", VNum (Int d), Int n => num (d * 2 ^ (n - 1))
      | _, _, _ => num (-1)
      end
  | _ => num 0
  end.

(** Modelled from the spec: [Scripts.finishedErrors] of ./scripts: "a typed
    error identifying the job id and which transition was attempted". *)
Definition finishedErrors (code jobId command : JsVal) : Exn :=
  Error (VStr ("job " ++ toString jobId ++ ": " ++ toString command
               ++ " rejected with code " ++ toString code)).

(** A queue that is ready, whose store holds [record] under every key, whose
    batches end with [code], and which reports [status] for every job. *)
Definition queue_with (record : JsVal) (code : Z) (status : Z) : QueueBase :=
  {| waitUntilReady := Ok tt;
     toKey := fun jobId => VStr ("bull:mail:" ++ toString jobId);
     hgetall := fun _ => Ok record;
     exec := fun batch => Ok (map (fun _ => (VNull, num code)) batch);
     isFinished := fun _ => Ok (Int status);
     moveToCompletedReply := fun _ _ => Ok (VArr []);
     queue_opts := [] |}.

Definition queue0 : QueueBase := queue_with (VObj []) 0 0.

Definition error (n : string) : JsError :=
  {| message := "boom " ++ n; stack := "Error: boom " ++ n |}.

(** [new Job(queue, "email", {to: "a@b.com"}, opts)] at time 1000, with the
    id the store assigns. *)
Definition email (opts : Props) : Result Job :=
  match new_Job normalize 1000 (VStr "email") (VObj [("to", VStr "a@b.com")]) (VObj opts) with
  | Ok j => Ok (set_id (VStr "1") j)
  | Throw e => Throw e
  end.

Definition the {A} (d : A) (r : Result A) : A :=
  match r with Ok a => a | Throw _ => d end.

Definition blank : Job :=
  mkJob VUndefined VUndefined VUndefined [] (num 0) VNull None VUndefined (Int 0)
    VUndefined None None false.

Definition job_default : Job := the blank (email []).
Definition job_limit3 : Job :=
  the blank (email [("attempts", num 10); ("stackTraceLimit", num 3)]).
Definition job_attempts (n : Z) : Job :=
  the blank (email [("attempts", num n);
                    ("backoff", VObj [("type", VStr "fixed"); ("delay", num 1000)])]).
(** Three attempts without a backoff policy, and with a custom policy for
    which no strategy is registered. *)
Definition job_immediate : Job := the blank (email [("attempts", num 3)]).
Definition job_custom : Job :=
  the blank (email [("attempts", num 3); ("backoff", VObj [("type", VStr "jitter")])]).
Definition job_discarded : Job :=
  let j := the blank (email [("attempts", num 5)]) in
  mkJob (id j) (name j) (data j) (opts j) (progress j) (returnvalue j) (stacktrace j)
    (timestamp j) (attemptsMade j) (failedReason j) (finishedOn j) (processedOn j) true.

(** The job with three attempts after its first failure. *)
Definition job_retried : Job :=
  fst (moveToFailed calculate finishedErrors queue0 2000 (job_attempts 3) (error "1") true).

(** Stored mappings: a completed job, a failed one, and one whose auxiliary
    fields are corrupted. *)
Definition stored_completed : Props :=
  [ ("name", VStr "email"); ("data", VStr "{}"); ("opts", VStr "{}");
    ("returnvalue", VStr "42") ].
Definition stored_failed : Props :=
  [ ("name", VStr "email"); ("data", VStr "{}"); ("opts", VStr "{}");
    ("failedReason", VStr "boom 1"); ("stacktrace", VStr "[]") ].
Definition stored_corrupted : Props :=
  [ ("name", VStr "email"); ("data", VStr "{}"); ("opts", VStr "{}");
    ("stacktrace", VStr "{oops"); ("returnvalue", VStr "{oops") ].

Definition five_failures : list Run.Failure :=
  [ (2000, error "1", true); (3000, error "2", true); (4000, error "3", true);
    (5000, error "4", true); (6000, error "5", true) ].

End Doubles.

(** ** The other methods of the class *)

Module Rest.
Import JS Utils Job.

(** The calls these methods make, beside those of [Job.Call]. *)
Inductive Effect : Type :=
| Core (c : Call)
| AddJob (jobData opts : Props)
| Hset (key : JsVal) (field : string) (value : JsVal)
| UpdateProgress (job : Job) (progress : JsVal)
| Remove (jobId : JsVal)
| Emit (event : string) (job : Job)
| Zscore (key member : JsVal)
| IsJobInList (key jobId : JsVal).

(** What the connection and the script engine answer to them:
    [Scripts.addJob], [client.hset], [Scripts.updateProgress],
    [Scripts.remove], [client.zscore], [Scripts.isJobInList]. *)
Record Engine : Type := {
  addJob : Props -> Props -> Result JsVal;
  hset : JsVal -> string -> JsVal -> Result JsVal;
  updateProgressReply : Job -> JsVal -> Result JsVal;
  removeReply : JsVal -> Result JsVal;
  zscore : JsVal -> JsVal -> Result JsVal;
  isJobInList : JsVal -> JsVal -> Result JsVal
}.

(** A trace of calls and a result. *)
Definition E (A : Type) : Type := (list Effect * Result A)%type.

Section Collaborators.
Variable Backoffs_normalize : JsVal -> JsVal.


End Collaborators.

(** [job.update(data)] *)
Definition update (queue : QueueBase) (engine : Engine) (this : Job) (data : JsVal)
    : E unit :=
  match waitUntilReady queue with
  | Throw e => ([Core WaitUntilReady], Throw e)
  | Ok _ =>
      let key := toKey queue (id this) in
      let value := JSON.stringify data in
      ([Core WaitUntilReady; Hset key "data" value],
       match hset engine key "data" value with
       | Ok _ => Ok tt
       | Throw e => Throw e
       end)
  end.

(** The hash at the job's key after the [hset] calls of a trace: a field
    written again is replaced. *)
Definition written (record : Props) (t : list Effect) : Props :=
  fold_left (fun r e => match e with
                        | Hset _ field value => set field value r
                        | _ => r
                        end) t record.

(** [job.updateProgress(progress)]: the job afterwards, and the call. *)
Definition updateProgress (engine : Engine) (this : Job) (progress : JsVal)
    : Job * E JsVal :=
  let this := set_progress progress this in
  (this, ([UpdateProgress this progress], updateProgressReply engine this progress)).

(** [job.remove()] *)
Definition remove (queue : QueueBase) (engine : Engine) (this : Job) : E unit :=
  match waitUntilReady queue with
  | Throw e => ([Core WaitUntilReady], Throw e)
  | Ok _ =>
      let job := this in
      match removeReply engine (id job) with
      | Throw e => ([Core WaitUntilReady; Remove (id job)], Throw e)
      | Ok removed =>
          if truthy removed
          then ([Core WaitUntilReady; Remove (id job); Emit "removed" job], Ok tt)
          else ([Core WaitUntilReady; Remove (id job)],
                Throw (Error (VStr ("Could not remove job " ++ toString (id job)))))
      end
  end.

(** [job.isInZSet(set)]: [score !== null]. *)
Definition isInZSet (queue : QueueBase) (engine : Engine) (this : Job) (set : string)
    : E JsVal :=
  let key := toKey queue (VStr set) in
  ([Zscore key (id this)],
   match zscore engine key (id this) with
   | Ok score => Ok (VBool match score with VNull => false | _ => true end)
   | Throw e => Throw e
   end).

(** [job.isInList(list)] *)
Definition isInList (queue : QueueBase) (engine : Engine) (this : Job) (list : string)
    : E JsVal :=
  let key := toKey queue (VStr list) in
  ([IsJobInList key (id this)], isJobInList engine key (id this)).

Definition isCompleted (queue : QueueBase) (engine : Engine) (this : Job) : E JsVal :=
  isInZSet queue engine this "completed".

Definition isFailed (queue : QueueBase) (engine : Engine) (this : Job) : E JsVal :=
  isInZSet queue engine this "failed".

Definition isDelayed (queue : QueueBase) (engine : Engine) (this : Job) : E JsVal :=
  isInZSet queue engine this "delayed".

Definition isActive (queue : QueueBase) (engine : Engine) (this : Job) : E JsVal :=
  isInList queue engine this "active".

(** [job.isWaiting()]: [(await isInList('wait')) || (await isInList('paused'))]. *)
Definition isWaiting (queue : QueueBase) (engine : Engine) (this : Job) : E JsVal :=
  match isInList queue engine this "wait" with
  | (t, Ok inWait) =>
      if truthy inWait then (t, Ok inWait)
      else let '(t', r) := isInList queue engine this "paused" in ((t ++ t')%list, r)
  | (t, Throw e) => (t, Throw e)
  end.

End Rest.

(** ** The promise of [waitUntilFinished] on a job that has not finished *)

Module Waiter.
Import JS Utils Job.

Definition completedEvent (jobId : JsVal) : string := "completed:" ++ toString jobId.
Definition failedEvent (jobId : JsVal) : string := "failed:" ++ toString jobId.

(** The promise and what it holds: the event names its listeners are
    registered under, whether its interval runs, and how it has settled
    ([Ok] resolved, [Throw] rejected), if it has. *)
Record Waiting : Type := {
  listeners : list string;
  interval : bool;
  settled : option (Result JsVal)
}.

(** After the executor has run: both listeners registered, the interval set. *)
Definition listening (jobId : JsVal) : Waiting :=
  {| listeners := [completedEvent jobId; failedEvent jobId];
     interval := true;
     settled := None |}.

(** The promise once it has settled and [removeListeners] has run. *)
Definition finished_with (r : Result JsVal) : Waiting :=
  {| listeners := []; interval := false; settled := Some r |}.

(** [resolve] and [reject]: a promise settles once. *)
Definition settle (r : Result JsVal) (w : Waiting) : Waiting :=
  match settled w with
  | Some _ => w
  | None => {| listeners := listeners w; interval := interval w; settled := Some r |}
  end.

Definition removeListener (event : string) (l : list string) : list string :=
  filter (fun e => negb (e =? event)%string) l.

(** [removeListeners()] *)
Definition removeListeners (jobId : JsVal) (w : Waiting) : Waiting :=
  {| listeners := removeListener (failedEvent jobId)
                    (removeListener (completedEvent jobId) (listeners w));
     interval := false;
     settled := settled w |}.

(** [onCompleted(args)]: the promise afterwards, and what the handler throws.
    A failure inside [try] goes to the [catch] block, which logs nothing
    ([debuglog(...)] only makes a logger) but reads [args.returnvalue] once
    more. *)
Definition onCompleted (jobId : JsVal) (args : JsVal) (w : Waiting)
    : Waiting * option Exn :=
  match get args "returnvalue" with
  | Throw e => (w, Some e)
  | Ok returnvalue =>
      let result :=
        if is_string returnvalue
        then match JSON.parse returnvalue with
             | Ok v => v
             | Throw _ => VUndefined
             end
        else VUndefined in
      (removeListeners jobId (settle (Ok result) w), None)
  end.

(** [onFailed(args)] *)
Definition onFailed (jobId : JsVal) (args : JsVal) (w : Waiting)
    : Waiting * option Exn :=
  match get args "failedReason" with
  | Throw e => (w, Some e)
  | Ok failedReason =>
      (removeListeners jobId (settle (Throw (Error failedReason)) w), None)
  end.

(** The interval's callback; [closing] is [this.queue.closing] at that time. *)
Definition watchdog (jobId : JsVal) (closing : bool) (w : Waiting) : Waiting :=
  if closing
  then settle (Throw (Error (VStr "cannot check if job is finished in a closing queue.")))
         (removeListeners jobId w)
  else w.

(** What happens around the promise: the event bus emits an event, or the
    timer fires. *)
Inductive Occurrence : Type :=
| Emitted (event : string) (args : JsVal)
| Tick (closing : bool).

(** The event bus calls the listeners registered under the event's name; the
    timer calls the callback while the interval is set. *)
Definition deliver (jobId : JsVal) (o : Occurrence) (w : Waiting)
    : Waiting * option Exn :=
  match o with
  | Emitted event args =>
      if existsb (String.eqb event) (listeners w)
      then if (event =? completedEvent jobId)%string then onCompleted jobId args w
           else if (event =? failedEvent jobId)%string then onFailed jobId args w
           else (w, None)
      else (w, None)
  | Tick closing =>
      if interval w then (watchdog jobId closing w, None) else (w, None)
  end.

(** A sequence of occurrences; what a handler throws goes to its caller. *)
Fixpoint occur (jobId : JsVal) (os : list Occurrence) (w : Waiting) : Waiting :=
  match os with
  | [] => w
  | o :: os' => occur jobId os' (fst (deliver jobId o w))
  end.

(** An occurrence that cannot end the wait: an event under another name, or a
    tick while the queue is not closing. *)
Definition idle (jobId : JsVal) (o : Occurrence) : bool :=
  match o with
  | Emitted event _ =>
      negb (event =? completedEvent jobId)%string
      && negb (event =? failedEvent jobId)%string
  | Tick closing => negb closing
  end.

(** An occurrence whose arguments a handler can read. *)
Definition readable (o : Occurrence) : bool :=
  match o with
  | Emitted _ VUndefined | Emitted _ VNull => false
  | _ => true
  end.

End Waiter.

(** ** More stand-ins *)

Module MoreDoubles.
Import JS Job Rest Doubles.

(** An engine that assigns [jobId] to a new job and answers [removed] to a
    removal, [score] to a score lookup, and [inWait] and [inPaused] to the
    list lookups. *)
Definition engine_with (jobId removed score inWait inPaused : JsVal) : Engine :=
  {| addJob := fun _ _ => Ok jobId;
     hset := fun _ _ _ => Ok (num 0);
     updateProgressReply := fun _ _ => Ok VNull;
     removeReply := fun _ => Ok removed;
     zscore := fun _ _ => Ok score;
     isJobInList := fun key _ =>
       Ok match key with
          | VStr "bull:mail:wait" => inWait
          | _ => inPaused
          end |}.

Definition engine0 : Engine := engine_with (VStr "7") (num 1) VNull (num 0) (num 1).

(** A queue whose readiness wait fails. *)
Definition queue_down : QueueBase :=
  {| waitUntilReady := Throw (Rejected (VStr "connection lost"));
     toKey := fun jobId => VStr ("bull:mail:" ++ toString jobId);
     hgetall := fun _ => Ok (VObj []);
     exec := fun batch => Ok [];
     isFinished := fun _ => Ok (Int 0);
     moveToCompletedReply := fun _ _ => Ok (VArr []);
     queue_opts := [] |}.

(** A queue whose batches are rejected, and one whose batches come back with
    no result. *)
Definition queue_rejecting : QueueBase :=
  {| waitUntilReady := Ok tt;
     toKey := fun jobId => VStr ("bull:mail:" ++ toString jobId);
     hgetall := fun _ => Ok (VObj []);
     exec := fun batch => Throw (Rejected (VStr "EXECABORT"));
     isFinished := fun _ => Throw (Rejected (VStr "NOSCRIPT"));
     moveToCompletedReply := fun _ _ => Ok (VArr []);
     queue_opts := [] |}.

(** A queue whose batches come back with the code [earlier] for every command
    but the last, and with [final] for the last. *)
Definition queue_mixed (earlier final : Z) : QueueBase :=
  {| waitUntilReady := Ok tt;
     toKey := fun jobId => VStr ("bull:mail:" ++ toString jobId);
     hgetall := fun _ => Ok (VObj []);
     exec := fun batch =>
       Ok (map (fun _ => (VNull, num earlier)) (removelast batch)
           ++ [(VNull, num final)])%list;
     isFinished := fun _ => Ok (Int 0);
     moveToCompletedReply := fun _ _ => Ok (VArr []);
     queue_opts := [] |}.

Definition queue_silent : QueueBase :=
  {| waitUntilReady := Ok tt;
     toKey := fun jobId => VStr ("bull:mail:" ++ toString jobId);
     hgetall := fun _ => Ok (VObj []);
     exec := fun batch => Ok [];
     isFinished := fun _ => Ok (Int 0);
     moveToCompletedReply := fun _ _ => Ok (VArr []);
     queue_opts := [] |}.

(** A backoff calculator that always answers [delay]. *)
Definition constant (delay : JsVal) : JsVal -> number -> JsVal -> JsError -> JsVal :=
  fun _ _ _ _ => delay.

(** Stored mappings that lack fields or hold malformed text. *)
Definition stored_sparse : Props := [("name", VStr "email")].
Definition stored_bad_data : Props :=
  [("name", VStr "email"); ("data", VStr "{oops")].
Definition stored_bad_opts : Props :=
  [("name", VStr "email"); ("data", VStr "{}"); ("opts", VStr "{oops")].
Definition stored_bad_progress : Props :=
  [("name", VStr "email"); ("data", VStr "{}"); ("opts", VStr "{}");
   ("progress", VStr "half")].
Definition stored_null_opts : Props :=
  [("name", VStr "email"); ("data", VStr "{}"); ("opts", VStr "null")].

(** A job that has no id, and a job that failed and finished. *)
Definition job_anonymous : Job := set_id VUndefined job_default.
Definition job_finished : Job :=
  set_finishedOn (Some (Int 7000)) (set_processedOn (Some (Int 6000)) job_retried).

(** What the event bus and the timer may bring to a waiting job "1". *)
Definition completion : Waiter.Occurrence :=
  Waiter.Emitted "completed:1" (VObj [("returnvalue", VStr "42")]).
Definition failure : Waiter.Occurrence :=
  Waiter.Emitted "failed:1" (VObj [("failedReason", VStr "boom 1")]).
Definition progressed : Waiter.Occurrence :=
  Waiter.Emitted "progress:1" (VObj [("data", num 50)]).

End MoreDoubles.

(** * Properties *)

(** ** JSON text: what is printed parses back *)

Module TextFacts.
Import JS JSON.

Lemma append_assoc (a b c : string) : (a ++ b) ++ c = a ++ b ++ c.
Proof. induction a as [|x a IH]; simpl; [reflexivity | now rewrite IH]. Qed.

Lemma append_nil_r (a : string) : a ++ "" = a.
Proof. induction a as [|x a IH]; simpl; [reflexivity | now rewrite IH]. Qed.

Lemma length_append (a b : string) :
  String.length (a ++ b) = (String.length a + String.length b)%nat.
Proof. induction a as [|x a IH]; simpl; [reflexivity | now rewrite IH]. Qed.

Lemma read_uint_digits (u : uint) (rest : string) :
  delimited rest = true ->
  read_uint (NilEmpty.string_of_uint u ++ rest) = (u, rest).
Proof.
  intros Hd; induction u; simpl; try (rewrite IHu; reflexivity).
  destruct rest as [|c r]; simpl in *; [reflexivity|].
  destruct (digit_of_char c); [discriminate | reflexivity].
Qed.

Lemma uint_beq_refl (u : uint) : uint_beq u u = true.
Proof. induction u; simpl; auto. Qed.

Lemma to_uint_normal (n : N) : unorm (N.to_uint n) = N.to_uint n.
Proof.
  rewrite <- (DecimalN.Unsigned.to_of (N.to_uint n)).
  now rewrite DecimalN.Unsigned.of_to.
Qed.

Lemma to_uint_nonnil (n : N) : N.to_uint n <> Nil.
Proof.
  destruct n as [|p]; simpl; [discriminate | apply DecimalPos.Unsigned.to_uint_nonnil].
Qed.

Lemma parse_digits_N (neg : bool) (n : N) (rest : string) :
  delimited rest = true ->
  parse_digits neg (string_of_N n ++ rest)
  = Some (num (if neg then - Z.of_N n else Z.of_N n), rest).
Proof.
  intros Hd. unfold parse_digits, string_of_N.
  pose proof (to_uint_nonnil n) as Hn.
  pose proof (to_uint_normal n) as Hu.
  rewrite read_uint_digits by assumption.
  destruct (N.to_uint n) eqn:E; try congruence;
    rewrite Hu, uint_beq_refl, <- E, DecimalN.Unsigned.of_to; reflexivity.
Qed.

Lemma parse_number_Z (z : Z) (rest : string) :
  delimited rest = true ->
  parse_number (string_of_Z z ++ rest) = Some (num z, rest).
Proof.
  intros Hd. destruct z as [|p|p].
  - apply (parse_digits_N false 0%N rest Hd).
  - unfold string_of_Z, parse_number.
    etransitivity; [| exact (parse_digits_N false (Npos p) rest Hd)].
    unfold string_of_N. pose proof (to_uint_nonnil (Npos p)) as Hn.
    destruct (N.to_uint (Npos p)); try congruence; reflexivity.
  - apply (parse_digits_N true (Npos p) rest Hd).
Qed.

Lemma string_of_N_start (n : N) :
  exists c r, string_of_N n = String c r /\ number_start c = true.
Proof.
  unfold string_of_N. pose proof (to_uint_nonnil n).
  destruct (N.to_uint n); try congruence; simpl; eauto.
Qed.

Lemma string_of_Z_start (z : Z) :
  exists c r, string_of_Z z = String c r /\ number_start c = true.
Proof.
  destruct z as [|p|p]; simpl.
  - eauto.
  - apply string_of_N_start.
  - eauto.
Qed.

Lemma parse_value_number (fuel : nat) (c : ascii) (r : string) :
  number_start c = true ->
  parse_value (S fuel) (String c r) = parse_number (String c r).
Proof.
  destruct c as [[] [] [] [] [] [] [] []]; try discriminate; intros _; reflexivity.
Qed.


Lemma parse_string_escape (c : ascii) (more : string) :
  parse_string_body (escape c ++ more)
  = match parse_string_body more with
    | Some (body, rest) => Some (String c body, rest)
    | None => None
    end.
Proof.
  destruct c as [[] [] [] [] [] [] [] []]; reflexivity.
Qed.

Lemma parse_string_quote (s rest : string) :
  parse_string_body (quote_body s ++ String "034" rest) = Some (s, rest).
Proof.
  induction s as [|c s IH]; simpl.
  - reflexivity.
  - now rewrite append_assoc, parse_string_escape, IH.
Qed.

Lemma number_start_value_start (c : ascii) :
  number_start c = true -> value_start c = true.
Proof.
  destruct c as [[] [] [] [] [] [] [] []]; try discriminate; reflexivity.
Qed.

Lemma stringify_value_start (v : JsVal) :
  exists c r, stringify_value v = String c r /\ value_start c = true.
Proof.
  destruct v as [| |[]|[|z]|s|l|o]; simpl;
    try (eexists _, _; split; reflexivity).
  destruct (string_of_Z_start z) as (c & r & -> & H).
  eauto using number_start_value_start.
Qed.

Lemma parse_value_array (fuel : nat) (c : ascii) (r : string) :
  value_start c = true ->
  parse_value (S fuel) (String "[" (String c r))
  = match parse_elements fuel (String c r) with
    | Some (l, r') => Some (VArr l, r')
    | None => None
    end.
Proof.
  destruct c as [[] [] [] [] [] [] [] []]; try discriminate; intros _; reflexivity.
Qed.


Lemma join_cons (sep x : string) (l : list string) :
  l <> [] -> join sep (x :: l) = x ++ sep ++ join sep l.
Proof. destruct l; [congruence | reflexivity]. Qed.

Lemma length_String (c : ascii) (s : string) :
  String.length (String c s) = S (String.length s).
Proof. reflexivity. Qed.

Lemma stringify_members_defined (print : JsVal -> string) k x o :
  x <> VUndefined ->
  stringify_members print ((k, x) :: o)
  = (quote k ++ ":" ++ print x) :: stringify_members print o.
Proof. destruct x; simpl; congruence. Qed.

Lemma image_members_defined (f : JsVal -> JsVal) k x o :
  x <> VUndefined ->
  image_members f ((k, x) :: o) = (k, f x) :: image_members f o.
Proof. destruct x; simpl; congruence. Qed.

Lemma stringify_members_nil (print : JsVal -> string) (f : JsVal -> JsVal) o :
  stringify_members print o = [] -> image_members f o = [].
Proof.
  induction o as [|[k x] o IH]; [reflexivity|].
  destruct x; simpl; try discriminate. exact IH.
Qed.

Lemma stringify_value_nonempty (v : JsVal) :
  (1 <= String.length (stringify_value v))%nat.
Proof.
  destruct (stringify_value_start v) as (c & r & -> & _). simpl. lia.
Qed.

Ltac text := repeat (first [rewrite append_assoc | progress simpl append]).

Ltac lengths H :=
  repeat (rewrite length_String in H || rewrite length_append in H).

Lemma parse_elements_join (l : list JsVal) :
  Forall parses l -> l <> [] ->
  forall fuel rest,
    (2 * String.length (join "," (map stringify_value l)) + 1 <= fuel)%nat ->
    parse_elements fuel (join "," (map stringify_value l) ++ String "]" rest)
    = Some (map image l, rest).
Proof.
  induction 1 as [|x l Hx Hl IH]; [congruence|]. intros _ fuel rest Hfuel.
  destruct fuel as [|fuel]; [lia|].
  destruct l as [|y l].
  - simpl map in *. simpl join in *. cbn [parse_elements].
    rewrite Hx by (reflexivity || lia). reflexivity.
  - rewrite map_cons, join_cons in Hfuel |- * by discriminate.
    remember (join "," (map stringify_value (y :: l))) as J.
    lengths Hfuel.
    rewrite !append_assoc. cbn [parse_elements].
    rewrite Hx by (reflexivity || lia). simpl append. cbn [skip_ws is_ws].
    rewrite IH by (congruence || lia). reflexivity.
Qed.

Lemma parse_members_join (o : Props) :
  Forall (fun kv => parses (snd kv)) o ->
  stringify_members stringify_value o <> [] ->
  forall fuel rest,
    (2 * String.length (join "," (stringify_members stringify_value o)) + 1 <= fuel)%nat ->
    parse_members fuel (join "," (stringify_members stringify_value o) ++ String "}" rest)
    = Some (image_members image o, rest).
Proof.
  induction 1 as [|[k x] o Hx Ho IH]; [simpl; congruence|]. intros Hne fuel rest Hfuel.
  assert (Hu : x = VUndefined \/ x <> VUndefined)
    by (destruct x; (now left) || (right; discriminate)).
  destruct Hu as [->|Hu]; [exact (IH Hne fuel rest Hfuel)|].
  rewrite stringify_members_defined in Hfuel |- * by assumption.
  rewrite image_members_defined by assumption.
  destruct fuel as [|fuel]; [lia|]. simpl in Hx.
  destruct (stringify_members stringify_value o) as [|m ms] eqn:E.
  - rewrite (stringify_members_nil _ image o E).
    simpl join in *. unfold quote, dquote in *. lengths Hfuel.
    rewrite !append_assoc. simpl append.
    cbn [parse_members skip_ws is_ws]. rewrite ?append_assoc. simpl append.
    rewrite parse_string_quote. cbn [skip_ws is_ws].
    rewrite Hx by (reflexivity || lia). reflexivity.
  - rewrite join_cons in Hfuel |- * by discriminate.
    remember (join "," (m :: ms)) as J. unfold quote, dquote in *.
    lengths Hfuel.
    rewrite !append_assoc. simpl append.
    cbn [parse_members skip_ws is_ws]. rewrite ?append_assoc. simpl append.
    rewrite parse_string_quote. cbn [skip_ws is_ws].
    rewrite Hx by (reflexivity || lia). cbn [skip_ws is_ws].
    rewrite IH by (congruence || lia). reflexivity.
Qed.


Lemma join_start (l : list JsVal) (rest : string) :
  l <> [] ->
  exists c r, join "," (map stringify_value l) ++ rest = String c r
              /\ value_start c = true.
Proof.
  destruct l as [|x l]; [congruence|]. intros _.
  destruct (stringify_value_start x) as (c & r & E & Hc).
  destruct l as [|y l].
  - simpl. rewrite E. simpl. eauto.
  - rewrite map_cons, join_cons by discriminate. rewrite E. simpl. eauto.
Qed.

Lemma parse_value_object (fuel : nat) (r : string) :
  parse_value (S fuel) (String "{" (String "034" r))
  = match parse_members fuel (String "034" r) with
    | Some (o, r') => Some (VObj (fold_left (fun o kv => set (fst kv) (snd kv) o) o []), r')
    | None => None
    end.
Proof. reflexivity. Qed.

Lemma members_start (m : string) (ms : list string) (k : string) (x : JsVal) (rest : string) :
  exists r, join "," ((quote k ++ ":" ++ stringify_value x) :: ms) ++ rest = String "034" r.
Proof.
  destruct ms; [simpl | rewrite join_cons by discriminate]; unfold quote, dquote;
    simpl; eauto.
Qed.

Lemma stringify_members_start (o : Props) (rest : string) :
  stringify_members stringify_value o <> [] ->
  exists r, join "," (stringify_members stringify_value o) ++ rest = String "034" r.
Proof.
  induction o as [|[k x] o IH]; [simpl; congruence|].
  assert (Hu : x = VUndefined \/ x <> VUndefined)
    by (destruct x; (now left) || (right; discriminate)).
  destruct Hu as [->|Hu]; [exact IH|]. intros _.
  rewrite stringify_members_defined by assumption.
  apply (members_start "").
Qed.

(** Properties written one after the other under different names make the
    object they were written from. *)
Lemma set_fresh (k : string) (v : JsVal) (acc : Props) :
  existsb (String.eqb k) (map fst acc) = false -> set k v acc = (acc ++ [(k, v)])%list.
Proof.
  induction acc as [|[k' v'] acc IH]; simpl; [reflexivity|].
  rewrite (String.eqb_sym k k'). destruct (String.eqb k' k); simpl; [discriminate|].
  intros H. now rewrite IH.
Qed.

Lemma distinct_app_fresh (acc : list string) (k : string) (l : list string) :
  distinct (acc ++ k :: l)%list = true ->
  existsb (String.eqb k) acc = false /\ distinct ((acc ++ [k]) ++ l)%list = true.
Proof.
  induction acc as [|a acc IH]; simpl.
  - intros H. split; [reflexivity | exact H].
  - intros [Ha H]%Bool.andb_true_iff. destruct (IH H) as [H1 H2].
    rewrite Bool.negb_true_iff, existsb_app in Ha. simpl in Ha.
    apply Bool.orb_false_iff in Ha as [Ha1 Ha2].
    apply Bool.orb_false_iff in Ha2 as [Ha2 Ha3]. split.
    + now rewrite String.eqb_sym, Ha2, H1.
    + rewrite H2, Bool.andb_true_r, Bool.negb_true_iff, !existsb_app. simpl.
      now rewrite Ha1, Ha2, Ha3.
Qed.

Lemma fold_set_distinct (l acc : Props) :
  distinct (map fst (acc ++ l)%list) = true ->
  fold_left (fun o kv => set (fst kv) (snd kv) o) l acc = (acc ++ l)%list.
Proof.
  revert acc; induction l as [|[k v] l IH]; intros acc H; simpl.
  - now rewrite List.app_nil_r.
  - rewrite map_app in H. simpl in H. apply distinct_app_fresh in H as [H1 H2].
    rewrite set_fresh by assumption.
    rewrite IH; [now rewrite <- List.app_assoc|].
    now rewrite !map_app in *.
Qed.

Lemma image_members_keys (f : JsVal -> JsVal) (k : string) (o : Props) :
  existsb (String.eqb k) (map fst o) = false ->
  existsb (String.eqb k) (map fst (image_members f o)) = false.
Proof.
  induction o as [|[k' x] o IH]; simpl; [reflexivity|].
  intros [H1 H2]%Bool.orb_false_iff.
  destruct x; simpl; rewrite ?H1; auto.
Qed.

Lemma image_members_distinct (f : JsVal -> JsVal) (o : Props) :
  distinct (map fst o) = true -> distinct (map fst (image_members f o)) = true.
Proof.
  induction o as [|[k x] o IH]; simpl; [reflexivity|].
  intros [H1%Bool.negb_true_iff H2]%Bool.andb_true_iff.
  destruct x; simpl; auto; rewrite image_members_keys by assumption; simpl; auto.
Qed.

Lemma stringify_value_array (l : list JsVal) :
  stringify_value (VArr l) = String "[" (join "," (map stringify_value l) ++ "]").
Proof. reflexivity. Qed.

Lemma stringify_value_object (o : Props) :
  stringify_value (VObj o)
  = String "{" (join "," (stringify_members stringify_value o) ++ "}").
Proof. reflexivity. Qed.

Theorem parse_stringify_value (v : JsVal) : well_formed v = true -> parses v.
Proof.
  induction v as [| |b|n|s|l IH|o IH] using JsVal_ind;
    intros Hwf fuel rest Hfuel Hd.
  - destruct fuel as [|fuel]; [simpl in Hfuel; lia | reflexivity].
  - destruct fuel as [|fuel]; [simpl in Hfuel; lia | reflexivity].
  - destruct b; (destruct fuel as [|fuel]; [simpl in Hfuel; lia | reflexivity]).
  - destruct n as [|z]; [destruct fuel as [|fuel]; [simpl in Hfuel; lia | reflexivity]|].
    pose proof (stringify_value_nonempty (VNum (Int z))).
    destruct fuel as [|fuel]; [lia|]. simpl stringify_value.
    destruct (string_of_Z_start z) as (c & r & E & Hc). rewrite E. simpl append.
    rewrite parse_value_number by assumption.
    change (String c (r ++ rest)) with (String c r ++ rest). rewrite <- E.
    now apply parse_number_Z.
  - destruct fuel as [|fuel]; [simpl in Hfuel; lia|].
    simpl stringify_value. unfold quote, dquote. cbn [parse_value skip_ws is_ws append].
    rewrite append_assoc. simpl append. now rewrite parse_string_quote.
  - destruct fuel as [|fuel]; [simpl in Hfuel; lia|].
    simpl in Hwf. rewrite forallb_forall in Hwf.
    assert (Hall : Forall parses l).
    { rewrite Forall_forall in *. auto. }
    destruct l as [|x l]; [reflexivity|].
    rewrite stringify_value_array in Hfuel |- *.
    remember (join "," (map stringify_value (x :: l))) as J.
    lengths Hfuel. text.
    destruct (join_start (x :: l) (String "]" rest)) as (c & r & E & Hc); [discriminate|].
    rewrite <- HeqJ in E. rewrite E, parse_value_array, <- E by assumption. subst J.
    rewrite parse_elements_join by (assumption || discriminate || lia). reflexivity.
  - destruct fuel as [|fuel]; [simpl in Hfuel; lia|].
    simpl in Hwf. apply Bool.andb_true_iff in Hwf as [Hk Hwf].
    rewrite forallb_forall in Hwf.
    assert (Hall : Forall (fun kv => parses (snd kv)) o).
    { rewrite Forall_forall in *. auto. }
    rewrite stringify_value_object in Hfuel |- *. simpl image.
    destruct (stringify_members stringify_value o) as [|m ms] eqn:E.
    + rewrite (stringify_members_nil _ image o E). reflexivity.
    + rewrite <- E in *. remember (join "," (stringify_members stringify_value o)) as J.
      lengths Hfuel. text.
      destruct (stringify_members_start o (String "}" rest)) as (r & Er); [congruence|].
      rewrite <- HeqJ in Er. rewrite Er, parse_value_object, <- Er. subst J.
      rewrite parse_members_join by (assumption || congruence || lia).
      rewrite fold_set_distinct; [reflexivity|].
      now apply image_members_distinct.
Qed.


(** [JSON.parse(JSON.stringify(v))] is the image of [v]. *)
Theorem parse_stringify (v : JsVal) :
  well_formed v = true -> v <> VUndefined ->
  parse (stringify v) = Ok (image v).
Proof.
  intros Hwf Hv.
  assert (E : stringify v = VStr (stringify_value v)) by (destruct v; reflexivity || congruence).
  rewrite E. unfold parse, parse_text. simpl toString.
  pose proof (parse_stringify_value v Hwf
                (2 * String.length (stringify_value v) + 2)%nat "") as H.
  rewrite append_nil_r in H. rewrite H by (reflexivity || lia). reflexivity.
Qed.

Lemma exact_well_formed (v : JsVal) : exact v = true -> well_formed v = true.
Proof.
  induction v as [| |b|n|s|l IH|o IH] using JsVal_ind; simpl; auto.
  - rewrite !forallb_forall, Forall_forall in *. auto.
  - intros [Hk H]%Bool.andb_true_iff. rewrite Hk. simpl.
    rewrite !forallb_forall, Forall_forall in *. auto.
Qed.

Lemma image_exact (v : JsVal) : exact v = true -> image v = v.
Proof.
  induction v as [| |b|n|s|l IH|o IH] using JsVal_ind; simpl; try congruence.
  - destruct n; congruence.
  - intros H. f_equal. induction IH as [|x l Hx Hl IHl]; [reflexivity|].
    simpl in H. apply Bool.andb_true_iff in H as [H1 H2].
    simpl. now rewrite Hx, IHl.
  - intros [_ H]%Bool.andb_true_iff. f_equal.
    induction IH as [|[k x] o Hx Ho IHo]; [reflexivity|].
    simpl in H. apply Bool.andb_true_iff in H as [H1 H2]. simpl in Hx.
    rewrite image_members_defined by (intros ->; discriminate).
    now rewrite Hx, IHo.
Qed.

Theorem parse_stringify_exact (v : JsVal) :
  exact v = true -> parse (stringify v) = Ok v.
Proof.
  intros H. rewrite parse_stringify.
  - now rewrite image_exact.
  - now apply exact_well_formed.
  - intros ->. discriminate.
Qed.

(** [JSON.parse(n)] for a number [n]. *)
Lemma parse_number_value (z : Z) : parse (num z) = Ok (num z).
Proof. exact (parse_stringify_exact (num z) eq_refl). Qed.

Lemma stringify_truthy (v : JsVal) : v <> VUndefined -> truthy (stringify v) = true.
Proof.
  intros Hv. assert (E : stringify v = VStr (stringify_value v)) by (destruct v; reflexivity || congruence).
  rewrite E. simpl. destruct (stringify_value_start v) as (c & r & -> & _). reflexivity.
Qed.

End TextFacts.

(** ** [moveToFailed] *)

Module FailFacts.
Import JS JSON Utils Job Run.

Section Collaborators.
Variable calculate : JsVal -> number -> JsVal -> JsError -> JsVal.
Variable finishedErrors : JsVal -> JsVal -> JsVal -> Exn.

(** [saveAttempt] touches the counter and the stacktrace only. *)
Lemma saveAttempt_opts queue this multi err :
  opts (fst (saveAttempt queue this multi err)) = opts this.
Proof. unfold saveAttempt. destruct (truthy _); reflexivity. Qed.

Lemma saveAttempt_discarded queue this multi err :
  discarded (fst (saveAttempt queue this multi err)) = discarded this.
Proof. unfold saveAttempt. destruct (truthy _); reflexivity. Qed.

Lemma saveAttempt_id queue this multi err :
  id (fst (saveAttempt queue this multi err)) = id this.
Proof. unfold saveAttempt. destruct (truthy _); reflexivity. Qed.

Lemma saveAttempt_attemptsMade queue this multi err :
  attemptsMade (fst (saveAttempt queue this multi err)) = number_succ (attemptsMade this).
Proof. unfold saveAttempt. destruct (truthy _); reflexivity. Qed.

Lemma saveAttempt_batch queue this multi err :
  exists params,
    snd (saveAttempt queue this multi err)
    = (multi ++ [hmset (toKey queue (id this)) params])%list.
Proof. unfold saveAttempt. destruct (truthy _); simpl; eauto. Qed.

(** The job after [moveToFailed], once the queue is ready. *)
Lemma moveToFailed_job queue now this err ignoreLock :
  waitUntilReady queue = Ok tt ->
  fst (moveToFailed calculate finishedErrors queue now this err ignoreLock)
  = fst (saveAttempt queue (set_failedReason (VStr (message err)) this) [] err).
Proof.
  intros Hr. unfold moveToFailed. rewrite Hr.
  destruct (saveAttempt queue _ [] err) as [this' multi].
  destruct (chooseTransition _ _ _ _ _ _ _) as [multi' command]. reflexivity.
Qed.

(** One batch is submitted, and it is the one [chooseTransition] built. *)
Lemma moveToFailed_batches queue now this err ignoreLock :
  waitUntilReady queue = Ok tt ->
  batches (trace (snd (moveToFailed calculate finishedErrors queue now this err ignoreLock)))
  = [fst (chooseTransition calculate queue now
            (fst (saveAttempt queue (set_failedReason (VStr (message err)) this) [] err))
            (snd (saveAttempt queue (set_failedReason (VStr (message err)) this) [] err))
            err ignoreLock)].
Proof.
  intros Hr. unfold moveToFailed. rewrite Hr.
  destruct (saveAttempt queue _ [] err) as [this' multi].
  destruct (chooseTransition _ _ _ _ _ _ _) as [multi' command].
  unfold trace, bind, await, lift. simpl.
  destruct (exec queue multi') as [results|e]; [|reflexivity].
  destruct (last_code results) as [code|e]; [|reflexivity].
  destruct (number_lt _ _); reflexivity.
Qed.

Lemma moveToFailed_not_ready queue now this err ignoreLock e :
  waitUntilReady queue = Throw e ->
  moveToFailed calculate finishedErrors queue now this err ignoreLock
  = (this, ([WaitUntilReady], Throw e)).
Proof. intros Hr. unfold moveToFailed. now rewrite Hr. Qed.

(** The transition chosen when the job may not be retried. *)
Lemma chooseTransition_terminal queue now this multi err ignoreLock :
  number_lt (attemptsMade this) (toNumber (lookup "attempts" (opts this))) = false
  \/ discarded this = true ->
  chooseTransition calculate queue now this multi err ignoreLock
  = ((multi ++ [moveToFinished this (message err) (lookup "removeOnFail" (opts this))
                  ignoreLock])%list, VStr "failed").
Proof.
  unfold chooseTransition. intros [-> | ->]; [reflexivity|].
  now rewrite Bool.andb_false_r.
Qed.

(** The transition chosen when the job may be retried, by the delay. *)
Lemma chooseTransition_retry queue now this multi err ignoreLock :
  number_lt (attemptsMade this) (toNumber (lookup "attempts" (opts this))) = true ->
  discarded this = false ->
  chooseTransition calculate queue now this multi err ignoreLock
  = let delay := calculate (lookup "backoff" (opts this)) (attemptsMade this)
                   (backoffStrategies queue) err in
    if is_minus_one delay
    then ((multi ++ [moveToFinished this (message err) (lookup "removeOnFail" (opts this))
                       ignoreLock])%list, VStr "failed")
    else if truthy delay
    then ((multi ++ [moveToDelayed (id this) (plus now delay) ignoreLock])%list,
          VStr "delayed")
    else ((multi ++ [retryJob this ignoreLock])%list, VStr "retry").
Proof.
  unfold chooseTransition. intros -> ->. simpl.
  destruct (is_minus_one _); [reflexivity|]. destruct (truthy _); reflexivity.
Qed.

(** C3.  In [moveToFailed], with [this'] the job after the attempt has been
    recorded (its [attemptsMade] is the incremented counter the source
    compares): when [attemptsMade < opts.attempts] and the job is not
    discarded, the delay the backoff calculator returns picks the one
    sub-operation that follows the [hmset] in the batch: -1 the move to
    finished (failed), a positive delay the move to delayed at [now + delay],
    0 the immediate retry; when the attempts are used up or the job is
    discarded it is the move to finished (failed). *)
Theorem moveToFailed_dispatch :
  forall (queue : QueueBase) (now : Z) (this : Job) (err : JsError) (ignoreLock : bool),
    waitUntilReady queue = Ok tt ->
    let run := moveToFailed calculate finishedErrors queue now this err ignoreLock in
    let this' := fst run in
    let delay := calculate (lookup "backoff" (opts this')) (attemptsMade this')
                   (backoffStrategies queue) err in
    let failed := moveToFinished this' (message err) (lookup "removeOnFail" (opts this'))
                    ignoreLock in
    exists params,
      let record := hmset (toKey queue (id this)) params in
      (number_lt (attemptsMade this') (toNumber (lookup "attempts" (opts this'))) = true ->
       discarded this' = false ->
       (delay = num (-1) -> batches (trace (snd run)) = [[record; failed]])
       /\ (forall d, delay = num d -> 0 < d ->
           batches (trace (snd run))
           = [[record; moveToDelayed (id this') (num (now + d)) ignoreLock]])
       /\ (delay = num 0 -> batches (trace (snd run)) = [[record; retryJob this' ignoreLock]]))
      /\ (number_lt (attemptsMade this') (toNumber (lookup "attempts" (opts this'))) = false
          \/ discarded this' = true ->
          batches (trace (snd run)) = [[record; failed]]).
Proof.
  intros queue now this err ignoreLock Hr run this' delay failed.
  subst run this' delay failed.
  rewrite moveToFailed_batches, moveToFailed_job by assumption.
  destruct (saveAttempt_batch queue (set_failedReason (VStr (message err)) this) [] err)
    as [params Hb].
  exists params. rewrite Hb. simpl app. split.
  - intros Hlt Hd. rewrite chooseTransition_retry by assumption. cbv zeta.
    repeat split.
    + intros ->. reflexivity.
    + intros d -> Hpos. simpl.
      assert ((d =? -1) = false) as -> by lia. assert ((d =? 0) = false) as -> by lia.
      reflexivity.
    + intros ->. reflexivity.
  - intros H. now rewrite chooseTransition_terminal.
Qed.

(** C5.  A discarded job takes the terminal path whatever attempts remain:
    the batch of [moveToFailed] is the [hmset] followed by the move to
    finished (failed). *)
Theorem moveToFailed_discarded :
  forall (queue : QueueBase) (now : Z) (this : Job) (err : JsError) (ignoreLock : bool),
    discarded this = true ->
    waitUntilReady queue = Ok tt ->
    let run := moveToFailed calculate finishedErrors queue now this err ignoreLock in
    exists params,
      batches (trace (snd run))
      = [[hmset (toKey queue (id this)) params;
          moveToFinished (fst run) (message err) (lookup "removeOnFail" (opts this))
            ignoreLock]]
      /\ phase_after (snd run) = Failed.
Proof.
  intros queue now this err ignoreLock Hd Hr run. subst run.
  unfold phase_after.
  rewrite moveToFailed_batches, moveToFailed_job by assumption.
  destruct (saveAttempt_batch queue (set_failedReason (VStr (message err)) this) [] err)
    as [params Hb].
  exists params. rewrite Hb.
  rewrite chooseTransition_terminal
    by (right; now rewrite saveAttempt_discarded).
  rewrite saveAttempt_opts. split; reflexivity.
Qed.

(** [command] names the sub-operation that was added. *)
Lemma chooseTransition_command queue now this multi err ignoreLock :
  exists op,
    chooseTransition calculate queue now this multi err ignoreLock
    = ((multi ++ [op])%list, transition_name op)
    /\ In (transition_name op) [VStr "delayed"; VStr "retry"; VStr "failed"].
Proof.
  unfold chooseTransition.
  destruct (number_lt _ _ && negb _).
  - destruct (is_minus_one _); [|destruct (truthy _)];
      match goal with
      | |- exists op, ((?l ++ [?x])%list, _) = _ /\ _ =>
          exists x; split; [reflexivity | simpl; tauto]
      end.
  - exists (moveToFinished this (message err) (lookup "removeOnFail" (opts this))
              ignoreLock). split; [reflexivity | simpl; tauto].
Qed.

(** What [moveToFailed] settles to, once the queue is ready. *)
Lemma moveToFailed_result queue now this err ignoreLock :
  waitUntilReady queue = Ok tt ->
  let this' := fst (saveAttempt queue (set_failedReason (VStr (message err)) this) [] err) in
  let multi := snd (saveAttempt queue (set_failedReason (VStr (message err)) this) [] err) in
  let chosen := chooseTransition calculate queue now this' multi err ignoreLock in
  result (snd (moveToFailed calculate finishedErrors queue now this err ignoreLock))
  = match exec queue (fst chosen) with
    | Ok results =>
        match last_code results with
        | Ok code =>
            if number_lt (toNumber code) (Int 0)
            then Throw (finishedErrors code (id this') (snd chosen))
            else Ok tt
        | Throw e => Throw e
        end
    | Throw e => Throw e
    end.
Proof.
  intros Hr. unfold moveToFailed. rewrite Hr. cbv zeta.
  destruct (saveAttempt queue _ [] err) as [this' multi].
  destruct (chooseTransition _ _ _ _ _ _ _) as [multi' command].
  unfold result, bind, await, lift, throw, ret. simpl.
  destruct (exec queue multi') as [results|e]; [|reflexivity].
  destruct (last_code results) as [code|e]; [|reflexivity].
  destruct (number_lt _ _); reflexivity.
Qed.

Lemma last_snoc {A} (l : list A) (x d : A) : last (l ++ [x])%list d = x.
Proof.
  induction l as [|a l IH]; [reflexivity|].
  simpl. destruct (l ++ [x])%list eqn:E; [destruct l; discriminate | exact IH].
Qed.

(** The code read from the results of a batch is that of the last one. *)
Lemma last_code_snoc (earlier : list (JsVal * JsVal)) (reply code : JsVal) :
  last_code (earlier ++ [(reply, code)])%list = Ok code.
Proof. unfold last_code. now rewrite List.rev_app_distr. Qed.

(** C6.  [moveToFailed] looks at the result code of the last command of the
    executed batch, whatever the results of the commands before it are: when
    the batch comes back with the results [earlier] followed by a last
    result with code [c], then for every negative [c] it throws the error the
    script engine builds from [c], the job id and the name of the transition
    that was added to the batch (delayed, retry or failed), and for every
    other [c] it returns normally. *)
Theorem moveToFailed_result_code :
  forall (queue : QueueBase) (now : Z) (this : Job) (err : JsError) (ignoreLock : bool)
         (batch : list Command) (earlier : list (JsVal * JsVal)) (reply : JsVal) (c : Z),
    waitUntilReady queue = Ok tt ->
    let run := moveToFailed calculate finishedErrors queue now this err ignoreLock in
    batches (trace (snd run)) = [batch] ->
    exec queue batch = Ok (earlier ++ [(reply, num c)])%list ->
    let command := transition_name (last batch (hmset VUndefined [])) in
    In command [VStr "delayed"; VStr "retry"; VStr "failed"]
    /\ (c < 0 -> result (snd run) = Throw (finishedErrors (num c) (id this) command))
    /\ (0 <= c -> result (snd run) = Ok tt).
Proof.
  intros queue now this err ignoreLock batch earlier reply c Hr run Hb He command.
  subst run command.
  rewrite moveToFailed_batches in Hb by assumption.
  rewrite moveToFailed_result by assumption. cbv zeta.
  pose proof (saveAttempt_id queue (set_failedReason (VStr (message err)) this) [] err)
    as Hid.
  destruct (saveAttempt queue (set_failedReason (VStr (message err)) this) [] err)
    as [this' multi].
  cbn [fst snd] in *.
  destruct (chooseTransition_command queue now this' multi err ignoreLock)
    as (op & Hop & Hin).
  rewrite Hop in *. cbn [fst snd] in *.
  assert (batch = (multi ++ [op])%list) as -> by congruence.
  rewrite He, last_code_snoc, last_snoc, Hid. simpl toNumber. simpl number_lt.
  split; [exact Hin|]. split; intros H.
  - assert ((c <? 0) = true) as -> by lia. reflexivity.
  - assert ((c <? 0) = false) as -> by lia. reflexivity.
Qed.

End Collaborators.
End FailFacts.

(** ** Runs of failures: the stacktrace cap and the attempt counter *)

Module RunFacts.
Import JS JSON Utils Job Run FailFacts.

Lemma firstn_min {A} (n : nat) (l : list A) :
  firstn (Nat.min n (List.length l)) l = firstn n l.
Proof.
  destruct (Nat.le_gt_cases n (List.length l)) as [H|H].
  - now rewrite Nat.min_l.
  - rewrite Nat.min_r by lia. rewrite firstn_all. symmetry. apply firstn_all2. lia.
Qed.

Lemma firstn_firstn_app {A} (n : nat) (a b : list A) :
  firstn n (firstn n a ++ b)%list = firstn n (a ++ b)%list.
Proof.
  revert a; induction n as [|n IH]; intros a; [reflexivity|].
  destruct a as [|x a]; simpl; [reflexivity | now rewrite IH].
Qed.

(** [slice(0, n)] with [n >= 0] keeps the first [n] entries. *)
Lemma slice0_firstn (l : list JsVal) (n : Z) :
  0 <= n -> slice0 l (Int n) = firstn (Z.to_nat n) l.
Proof.
  intros Hn. unfold slice0. assert ((n <? 0) = false) as -> by lia.
  rewrite Z2Nat.inj_min, Nat2Z.id. apply firstn_min.
Qed.

Lemma saveAttempt_retained queue this multi err (L : Z) :
  lookup "stackTraceLimit" (opts this) = num L -> 0 < L ->
  retained (fst (saveAttempt queue this multi err))
  = (firstn (Z.to_nat (L - 1)) (retained this) ++ [VStr (stack err)])%list.
Proof.
  intros HL Hpos. unfold saveAttempt, retained. simpl opts. rewrite HL. simpl truthy.
  assert ((L =? 0) = false) as -> by lia. simpl.
  now rewrite slice0_firstn by lia.
Qed.

(** Without a limit nothing is dropped. *)
Lemma saveAttempt_retained_unlimited queue this multi err :
  truthy (lookup "stackTraceLimit" (opts this)) = false ->
  retained (fst (saveAttempt queue this multi err))
  = (retained this ++ [VStr (stack err)])%list.
Proof.
  intros HL. unfold saveAttempt, retained. simpl opts. rewrite HL. reflexivity.
Qed.

(** What [saveAttempt] writes to the store is taken before the new trace is
    appended. *)
Lemma saveAttempt_params queue this multi err (L : Z) :
  lookup "stackTraceLimit" (opts this) = num L -> 0 < L ->
  snd (saveAttempt queue this multi err)
  = (multi ++ [hmset (toKey queue (id this))
                 [ ("attemptsMade", VNum (number_succ (attemptsMade this)));
                   ("stacktrace",
                    stringify (VArr (firstn (Z.to_nat (L - 1)) (retained this))));
                   ("failedReason", VStr (message err)) ]])%list.
Proof.
  intros HL Hpos. unfold saveAttempt, retained. simpl opts. rewrite HL. simpl truthy.
  assert ((L =? 0) = false) as -> by lia. simpl.
  now rewrite slice0_firstn by lia.
Qed.

Section Collaborators.
Variable calculate : JsVal -> number -> JsVal -> JsError -> JsVal.
Variable finishedErrors : JsVal -> JsVal -> JsVal -> Exn.

Lemma failures_cons queue this now err ignoreLock events :
  fst (failures calculate finishedErrors queue this ((now, err, ignoreLock) :: events))
  = fst (failures calculate finishedErrors queue
           (fst (moveToFailed calculate finishedErrors queue now this err ignoreLock))
           events).
Proof.
  simpl. destruct (moveToFailed _ _ _ _ _ _ _) as [this' m].
  destruct (failures _ _ _ _ _) as [this'' t]. reflexivity.
Qed.

Lemma failures_cons_batches queue this now err ignoreLock events :
  batches (snd (failures calculate finishedErrors queue this
                  ((now, err, ignoreLock) :: events)))
  = (batches (trace (snd (moveToFailed calculate finishedErrors queue now this err
                            ignoreLock)))
     ++ batches (snd (failures calculate finishedErrors queue
                        (fst (moveToFailed calculate finishedErrors queue now this err
                                ignoreLock))
                        events)))%list.
Proof.
  simpl. destruct (moveToFailed _ _ _ _ _ _ _) as [this' m].
  destruct (failures _ _ _ _ _) as [this'' t]. simpl.
  generalize (trace m). intros l. induction l as [|c l IH]; [reflexivity|].
  destruct c; simpl; rewrite ?IH; reflexivity.
Qed.

Lemma moveToFailed_opts queue now this err ignoreLock :
  opts (fst (moveToFailed calculate finishedErrors queue now this err ignoreLock))
  = opts this.
Proof.
  destruct (waitUntilReady queue) as [[]|e] eqn:Hr.
  - rewrite moveToFailed_job by assumption. now rewrite saveAttempt_opts.
  - erewrite moveToFailed_not_ready by eassumption. reflexivity.
Qed.

Lemma moveToFailed_keeps_discarded queue now this err ignoreLock :
  discarded (fst (moveToFailed calculate finishedErrors queue now this err ignoreLock))
  = discarded this.
Proof.
  destruct (waitUntilReady queue) as [[]|e] eqn:Hr.
  - rewrite moveToFailed_job by assumption. now rewrite saveAttempt_discarded.
  - erewrite moveToFailed_not_ready by eassumption. reflexivity.
Qed.

Lemma moveToFailed_attemptsMade queue now this err ignoreLock :
  waitUntilReady queue = Ok tt ->
  attemptsMade (fst (moveToFailed calculate finishedErrors queue now this err ignoreLock))
  = number_succ (attemptsMade this).
Proof.
  intros Hr. rewrite moveToFailed_job by assumption. now rewrite saveAttempt_attemptsMade.
Qed.

Lemma moveToFailed_retained queue now this err ignoreLock (L : Z) :
  waitUntilReady queue = Ok tt ->
  lookup "stackTraceLimit" (opts this) = num L -> 0 < L ->
  retained (fst (moveToFailed calculate finishedErrors queue now this err ignoreLock))
  = (firstn (Z.to_nat (L - 1)) (retained this) ++ [VStr (stack err)])%list.
Proof.
  intros Hr HL Hpos. rewrite moveToFailed_job by assumption.
  now rewrite (saveAttempt_retained _ _ _ _ L).
Qed.

(** After any number of failures the job holds the first [limit - 1] of the
    traces that came before the last one, and the last one. *)
Lemma failures_retained queue (L : Z) (events : list Failure) :
  waitUntilReady queue = Ok tt -> 0 < L -> events <> [] ->
  forall this d,
    lookup "stackTraceLimit" (opts this) = num L ->
    retained (fst (failures calculate finishedErrors queue this events))
    = (firstn (Z.to_nat (L - 1)) (retained this ++ map entry (removelast events))
       ++ [entry (last events d)])%list.
Proof.
  intros Hr Hpos. induction events as [|[[now err] il] events IH]; [congruence|].
  intros _ this d HL. rewrite failures_cons.
  destruct events as [|f events].
  - simpl. rewrite List.app_nil_r. now apply moveToFailed_retained.
  - rewrite (IH ltac:(discriminate) _ d) by (now rewrite moveToFailed_opts).
    rewrite (moveToFailed_retained _ _ _ _ _ L) by assumption.
    rewrite <- List.app_assoc, firstn_firstn_app. reflexivity.
Qed.

(** C1 (amended).  Each record-attempt cuts the stacktrace the job holds
    down to its first [stackTraceLimit - 1] entries, the oldest ones, and
    then appends the new trace to the stacktrace in memory; so a job with
    [stackTraceLimit = 3] and no stacktrace yet holds, after 5 successive
    [moveToFailed] calls, exactly 3 entries: the traces of the first and the
    second failure, then the trace of the fifth. *)
Theorem saveAttempt_keeps_first_entries :
  (forall (queue : QueueBase) (this : Job) (multi : list Command) (err : JsError) (L : Z),
      lookup "stackTraceLimit" (opts this) = num L -> 0 < L ->
      retained (fst (saveAttempt queue this multi err))
      = (firstn (Z.to_nat (L - 1)) (retained this) ++ [VStr (stack err)])%list)
  /\ (forall (queue : QueueBase) (this : Job) (f1 f2 f3 f4 f5 : Failure),
      waitUntilReady queue = Ok tt ->
      lookup "stackTraceLimit" (opts this) = num 3 ->
      retained this = [] ->
      retained (fst (failures calculate finishedErrors queue this [f1; f2; f3; f4; f5]))
      = [entry f1; entry f2; entry f5]).
Proof.
  split.
  - intros. now apply saveAttempt_retained.
  - intros queue this f1 f2 f3 f4 f5 Hr HL He.
    rewrite (failures_retained queue 3 [f1; f2; f3; f4; f5] Hr eq_refl
               ltac:(discriminate) this f1 HL).
    rewrite He. reflexivity.
Qed.

(** The phase after a call that may not retry. *)
Lemma moveToFailed_exhausted queue now this err ignoreLock :
  waitUntilReady queue = Ok tt ->
  number_lt (number_succ (attemptsMade this)) (toNumber (lookup "attempts" (opts this)))
  = false \/ discarded this = true ->
  exists batch,
    batches (trace (snd (moveToFailed calculate finishedErrors queue now this err
                           ignoreLock))) = [batch]
    /\ terminal batch = true.
Proof.
  intros Hr H. rewrite moveToFailed_batches by assumption.
  eexists; split; [reflexivity|].
  rewrite chooseTransition_terminal.
  - cbn [fst]. unfold terminal. rewrite existsb_app. simpl.
    now rewrite ?Bool.orb_true_r.
  - now rewrite saveAttempt_attemptsMade, saveAttempt_opts, saveAttempt_discarded.
Qed.

(** The phase after a call that may retry and whose delay is not STOP. *)
Lemma moveToFailed_retried queue now this err ignoreLock :
  waitUntilReady queue = Ok tt ->
  number_lt (number_succ (attemptsMade this)) (toNumber (lookup "attempts" (opts this)))
  = true ->
  discarded this = false ->
  is_minus_one (calculate (lookup "backoff" (opts this)) (number_succ (attemptsMade this))
                  (backoffStrategies queue) err) = false ->
  existsb terminal
    (batches (trace (snd (moveToFailed calculate finishedErrors queue now this err
                            ignoreLock)))) = false.
Proof.
  intros Hr Hlt Hd Hstop. rewrite moveToFailed_batches by assumption.
  destruct (saveAttempt_batch queue (set_failedReason (VStr (message err)) this) [] err)
    as [params Hb].
  rewrite Hb, chooseTransition_retry
    by (now rewrite ?saveAttempt_attemptsMade, ?saveAttempt_opts, ?saveAttempt_discarded).
  cbv zeta. rewrite saveAttempt_attemptsMade, saveAttempt_opts.
  change (opts (set_failedReason _ this)) with (opts this).
  change (attemptsMade (set_failedReason _ this)) with (attemptsMade this).
  rewrite Hstop. destruct (truthy _); reflexivity.
Qed.

Lemma failures_counts queue (a : Z) (events : list Failure) :
  waitUntilReady queue = Ok tt ->
  forall this m,
    attemptsMade this = Int m ->
    lookup "attempts" (opts this) = num a ->
    m + Z.of_nat (List.length events) < a ->
    discarded this = false ->
    (forall n e, is_minus_one (calculate (lookup "backoff" (opts this)) n
                                 (backoffStrategies queue) e) = false) ->
    attemptsMade (fst (failures calculate finishedErrors queue this events))
    = Int (m + Z.of_nat (List.length events))
    /\ existsb terminal (batches (snd (failures calculate finishedErrors queue this events)))
       = false.
Proof.
  intros Hr. induction events as [|[[now err] il] events IH]; intros this m Hm Ha Hlt Hd Hs.
  - simpl. rewrite Z.add_0_r. auto.
  - rewrite failures_cons, failures_cons_batches, existsb_app.
    simpl List.length in *. rewrite Nat2Z.inj_succ in *.
    destruct (IH (fst (moveToFailed calculate finishedErrors queue now this err il))
                (m + 1)) as [H1 H2].
    + rewrite moveToFailed_attemptsMade, Hm by assumption. reflexivity.
    + now rewrite moveToFailed_opts.
    + lia.
    + now rewrite moveToFailed_keeps_discarded.
    + intros n e. rewrite moveToFailed_opts. apply Hs.
    + rewrite H1, H2, moveToFailed_retried; auto.
      * split; [f_equal; lia | reflexivity].
      * rewrite Hm, Ha. simpl. lia.
Qed.

(** C4 (amended).  A job created with [opts.attempts >= 1], against which no
    failure is issued once a failure has chosen the move to failed, never
    has [attemptsMade] above [opts.attempts], discarded or not; after [k]
    consecutive [moveToFailed] calls with [opts.attempts = k + 2], on a job
    that is not discarded and whose backoff never answers -1, [attemptsMade]
    is [k] and no call has chosen the move to failed; with
    [opts.attempts = 2] the second failure chooses the move to failed. *)
Theorem attempts_accounting :
  (forall (queue : QueueBase) (this0 this : Job) (a : Z) (phase : Phase),
      lookup "attempts" (opts this0) = num a -> 1 <= a ->
      attemptsMade this0 = Int 0 ->
      reachable calculate finishedErrors queue (this0, Retryable) (this, phase) ->
      exists n, attemptsMade this = Int n /\ 0 <= n <= a)
  /\ (forall (queue : QueueBase) (this : Job) (events : list Failure),
      waitUntilReady queue = Ok tt ->
      attemptsMade this = Int 0 ->
      lookup "attempts" (opts this) = num (Z.of_nat (List.length events) + 2) ->
      discarded this = false ->
      (forall n e, is_minus_one (calculate (lookup "backoff" (opts this)) n
                                   (backoffStrategies queue) e) = false) ->
      attemptsMade (fst (failures calculate finishedErrors queue this events))
      = Int (Z.of_nat (List.length events))
      /\ existsb terminal
           (batches (snd (failures calculate finishedErrors queue this events))) = false)
  /\ (forall (queue : QueueBase) (this : Job) (f1 f2 : Failure),
      waitUntilReady queue = Ok tt ->
      attemptsMade this = Int 0 ->
      lookup "attempts" (opts this) = num 2 ->
      exists b1 b2,
        batches (snd (failures calculate finishedErrors queue this [f1; f2])) = [b1; b2]
        /\ terminal b2 = true).
Proof.
  split; [|split].
  - intros queue this0 this a phase Ha Hpos H0 Hreach.
    assert (Inv : opts this = opts this0
                  /\ exists n, attemptsMade this = Int n /\ 0 <= n <= a
                               /\ (phase = Retryable -> n < a)).
    { remember (this0, Retryable) as s0 eqn:Es0.
      remember (this, phase) as s eqn:Es. revert this phase Es.
      induction Hreach as [|s1 s2 Hreach IH Hstep]; intros this phase Es.
      - subst. injection Es as -> ->. split; [reflexivity|].
        exists 0. rewrite H0. repeat split; lia.
      - destruct Hstep as [this1 now err il].
        destruct (IH this1 Retryable eq_refl) as (Ho & n & Hn & Hr & Hlt).
        specialize (Hlt eq_refl). injection Es as <- <-.
        split; [now rewrite moveToFailed_opts|].
        destruct (waitUntilReady queue) as [[]|e] eqn:Hready.
        + exists (n + 1). rewrite moveToFailed_attemptsMade, Hn by assumption.
          split; [reflexivity|]. split; [lia|]. intros Hph.
          destruct (Z.ltb_spec (n + 1) a) as [Hlt'|Hge]; [assumption|]. exfalso.
          destruct (moveToFailed_exhausted queue now this1 err il Hready)
            as (batch & Hb & Ht).
          { left. rewrite Hn, Ho, Ha. simpl. lia. }
          unfold phase_after in Hph. rewrite Hb in Hph. simpl in Hph.
          rewrite Ht in Hph. discriminate.
        + rewrite (moveToFailed_not_ready _ _ _ _ _ _ _ e Hready). simpl.
          exists n. repeat split; auto; lia. }
    destruct Inv as (_ & n & Hn & Hr & _). eauto.
  - intros queue this events Hr H0 Ha Hd Hs.
    destruct (failures_counts queue _ events Hr this 0 H0 Ha ltac:(lia) Hd Hs) as [H1 H2].
    split; [exact H1 | exact H2].
  - intros queue this [[n1 e1] il1] [[n2 e2] il2] Hr H0 Ha.
    rewrite failures_cons_batches, failures_cons_batches. simpl batches at 3.
    rewrite moveToFailed_batches by assumption.
    destruct (moveToFailed_exhausted queue n2
                (fst (moveToFailed calculate finishedErrors queue n1 this e1 il1)) e2 il2 Hr)
      as (b2 & Hb2 & Ht).
    { left. rewrite moveToFailed_attemptsMade, moveToFailed_opts, H0, Ha by assumption.
      reflexivity. }
    rewrite Hb2. eexists _, b2. split; [reflexivity | exact Ht].
Qed.

End Collaborators.
End RunFacts.

(** ** Decoding: [fromJSON], [fromId], [waitUntilFinished], [moveToCompleted] *)

Module DecodeFacts.
Import JS JSON Utils Job TextFacts.

Lemma bind_lift_ok {A B} (a : A) (f : A -> M B) : bind (lift (Ok a)) f = f a.
Proof. unfold bind, lift. now destruct (f a). Qed.

Lemma bind_await_ok {A B} (c : Call) (a : A) (f : A -> M B) :
  bind (await c (Ok a)) f = (c :: trace (f a), result (f a)).
Proof. unfold bind, await, trace, result. now destruct (f a). Qed.

(** [getTraces] gives the parsed array, and the empty array for anything
    else. *)
Lemma getTraces_array (s : JsVal) (l : list JsVal) :
  parse s = Ok (VArr l) -> getTraces s = l.
Proof. unfold getTraces, tryCatch. now intros ->. Qed.

Lemma getTraces_other (s : JsVal) :
  (forall l, parse s <> Ok (VArr l)) -> getTraces s = [].
Proof.
  unfold getTraces, tryCatch. intros H.
  destruct (parse s) as [[]|e]; try reflexivity. now elim (H l).
Qed.

Lemma getReturnValue_parsed (s v : JsVal) :
  parse s = Ok v -> getReturnValue s = ([], Ok v).
Proof. unfold getReturnValue, tryCatch. now intros ->. Qed.

Lemma getReturnValue_corrupted (s : JsVal) (e : Exn) :
  parse s = Throw e ->
  getReturnValue s = ([Logger ("corrupted returnvalue: " ++ toString s)], Ok VUndefined).
Proof. unfold getReturnValue, tryCatch. now intros ->. Qed.

Section Collaborators.
Variable normalize : JsVal -> JsVal.

(** The job [fromJSON] builds from a mapping whose [data], [opts] and
    [progress] decode. *)
Lemma fromJSON_fields now props jobId data0 opts0 base progress0 :
  parse (or (lookup "data" props) (VStr "{}")) = Ok data0 ->
  parse (or (lookup "opts" props) (VStr "{}")) = Ok opts0 ->
  new_Job normalize now (lookup "name" props) data0 opts0 = Ok base ->
  parse (or (lookup "progress" props) (num 0)) = Ok progress0 ->
  let run := fromJSON normalize now (VObj props) jobId in
  let rv := lookup "returnvalue" props in
  exists job,
    result run = Ok job
    /\ data job = data base
    /\ opts job = opts base
    /\ progress job = progress0
    /\ stacktrace job = Some (getTraces (lookup "stacktrace" props))
    /\ failedReason job = lookup "failedReason" props
    /\ id job = or (lookup "id" props) jobId
    /\ returnvalue job
       = (if is_string rv
          then match parse rv with Ok v => v | Throw _ => VUndefined end
          else returnvalue base)
    /\ trace run
       = (if is_string rv
          then match parse rv with
               | Ok _ => []
               | Throw _ => [Logger ("corrupted returnvalue: " ++ toString rv)]
               end
          else []).
Proof.
  intros Hd Ho Hb Hp run rv. subst run rv. unfold fromJSON.
  cbn [get]. rewrite bind_lift_ok, Hd, bind_lift_ok.
  cbn [get]. rewrite bind_lift_ok, Ho, bind_lift_ok.
  cbn [get]. rewrite bind_lift_ok, Hb, bind_lift_ok.
  cbn [get]. rewrite bind_lift_ok.
  cbn [get]. rewrite bind_lift_ok, Hp, bind_lift_ok.
  cbn [get]. rewrite bind_lift_ok.
  cbn [get]. rewrite bind_lift_ok.
  cbn [get]. rewrite bind_lift_ok.
  cbn [get]. rewrite bind_lift_ok.
  cbn [get]. rewrite bind_lift_ok.
  cbn [get]. rewrite bind_lift_ok.
  destruct (is_string (lookup "returnvalue" props)).
  - destruct (parse (lookup "returnvalue" props)) as [v|e] eqn:Hrv.
    + rewrite (getReturnValue_parsed _ v Hrv). unfold bind, ret. simpl.
      eexists. split; [reflexivity|].
      destruct (truthy (lookup "finishedOn" props)), (truthy (lookup "processedOn" props));
        repeat split; reflexivity.
    + rewrite (getReturnValue_corrupted _ e Hrv). unfold bind, ret. simpl.
      eexists. split; [reflexivity|].
      destruct (truthy (lookup "finishedOn" props)), (truthy (lookup "processedOn" props));
        repeat split; reflexivity.
  - eexists. split; [reflexivity|].
    destruct (truthy (lookup "finishedOn" props)), (truthy (lookup "processedOn" props));
      repeat split; reflexivity.
Qed.

Lemma fromId_falsy queue now jobId :
  truthy jobId = false -> fromId normalize queue now jobId = ([], Ok Undefined).
Proof. unfold fromId. now intros ->. Qed.

Lemma fromId_truthy queue now jobId jobData :
  truthy jobId = true ->
  waitUntilReady queue = Ok tt ->
  hgetall queue (toKey queue jobId) = Ok jobData ->
  fromId normalize queue now jobId
  = if isEmpty jobData
    then ([WaitUntilReady; Hgetall (toKey queue jobId)], Ok Null)
    else (WaitUntilReady :: Hgetall (toKey queue jobId)
            :: trace (fromJSON normalize now jobData jobId),
          match result (fromJSON normalize now jobData jobId) with
          | Ok job => Ok (Found job)
          | Throw e => Throw e
          end).
Proof.
  intros Ht Hr Hg. unfold fromId. rewrite Ht, Hr, Hg.
  rewrite !bind_await_ok. destruct (isEmpty jobData); [reflexivity|].
  destruct (fromJSON normalize now jobData jobId) as [t [job|e]]; simpl;
    rewrite ?List.app_nil_r; reflexivity.
Qed.

(** C8.  [fromId] resolves to a "not found" value, and throws nothing, when
    the id is empty or absent (any falsy id): it does not even wait for the
    queue.  With an id it waits for readiness, fetches the field mapping of
    the job's key, resolves to "not found" (null) when the mapping is empty,
    and otherwise to what [fromJSON] makes of the mapping. *)
Theorem fromId_not_found :
  forall (queue : QueueBase) (now : Z) (jobId : JsVal),
    (truthy jobId = false ->
     exists r, fromId normalize queue now jobId = ([], Ok r) /\ not_found r = true)
    /\ (truthy jobId = true ->
        waitUntilReady queue = Ok tt ->
        forall jobData,
          hgetall queue (toKey queue jobId) = Ok jobData ->
          let run := fromId normalize queue now jobId in
          let decoded := fromJSON normalize now jobData jobId in
          (isEmpty jobData = true ->
           exists r, run = ([WaitUntilReady; Hgetall (toKey queue jobId)], Ok r)
                     /\ not_found r = true)
          /\ (isEmpty jobData = false ->
              trace run
              = WaitUntilReady :: Hgetall (toKey queue jobId) :: trace decoded
              /\ result run = match result decoded with
                              | Ok job => Ok (Found job)
                              | Throw e => Throw e
                              end)).
Proof.
  intros queue now jobId. split.
  - intros Ht. exists Undefined. split; [now apply fromId_falsy | reflexivity].
  - intros Ht Hr jobData Hg run decoded. subst run decoded.
    rewrite (fromId_truthy queue now jobId jobData Ht Hr Hg). split; intros ->.
    + exists Null. split; reflexivity.
    + split; reflexivity.
Qed.

(** [fromJSON] and [fromId] register no listener. *)
Lemma fromJSON_trace now json jobId :
  forall c, In c (trace (fromJSON normalize now json jobId)) -> exists msg, c = Logger msg.
Proof.
  intros c. unfold fromJSON.
  repeat match goal with
         | |- In c (trace (bind (lift ?r) _)) -> _ =>
             destruct r; [rewrite bind_lift_ok | simpl; tauto]
         end.
  destruct (is_string _); [|simpl; tauto].
  unfold getReturnValue. destruct (tryCatch _ _); simpl; [tauto|].
  intros [<-|[]]. eauto.
Qed.

Lemma fromId_trace queue now jobId :
  forall event, ~ In (On event) (trace (fromId normalize queue now jobId)).
Proof.
  intros event. unfold fromId. destruct (truthy jobId); [|simpl; tauto].
  destruct (waitUntilReady queue) as [[]|e]; [|simpl; intros [H|[]]; discriminate].
  rewrite bind_await_ok.
  destruct (hgetall queue (toKey queue jobId)) as [jobData|e];
    [|simpl; intros [H|[H|[]]]; discriminate].
  rewrite bind_await_ok. destruct (isEmpty jobData).
  - simpl. intros [H|[H|[]]]; discriminate.
  - pose proof (fromJSON_trace now jobData jobId (On event)) as Hj.
    destruct (fromJSON normalize now jobData jobId) as [t [job|e]]; simpl in *;
      intros [H|[H|H]]; try discriminate;
      (rewrite ?List.app_nil_r in H; destruct (Hj H); discriminate).
Qed.

(** C7.  A wait issued on a job that has already finished: after the
    readiness wait [waitUntilFinished] asks the script engine for the status;
    when the status is positive it fetches the record and, with the job
    [fromId] gives, throws an error carrying the job's [failedReason] when
    the status is 2 (failed) and returns the job's [returnvalue] otherwise;
    on this path it registers no listener on the event bus. *)
Theorem waitUntilFinished_already_finished :
  forall (queue : QueueBase) (now : Z) (this : Job) (watchdog : JsVal) (status : number),
    waitUntilReady queue = Ok tt ->
    isFinished queue (id this) = Ok status ->
    number_lt (Int 0) status = true ->
    let run := waitUntilFinished normalize queue now this watchdog in
    trace run
    = WaitUntilReady :: IsFinished (id this) :: trace (fromId normalize queue now (id this))
    /\ (forall event, ~ In (On event) (trace run))
    /\ (forall job,
        result (fromId normalize queue now (id this)) = Ok (Found job) ->
        (status = Int 2 -> result run = Throw (Error (failedReason job)))
        /\ (status <> Int 2 -> result run = Ok (Value (returnvalue job)))).
Proof.
  intros queue now this watchdog status Hr Hs Hfin run. subst run.
  unfold waitUntilFinished. rewrite Hr, bind_await_ok, Hs, bind_await_ok, Hfin.
  pose proof (fromId_trace queue now (id this)) as Hquiet.
  assert (Htwo : status = Int 2 -> number_eq status (Int 2) = true) by now intros ->.
  assert (Hnot : status <> Int 2 -> number_eq status (Int 2) = false).
  { destruct status as [|z]; [reflexivity|]. simpl. intros H.
    apply Z.eqb_neq. congruence. }
  destruct (fromId normalize queue now (id this)) as [t [[job| |]|e]]; simpl in *;
    rewrite ?List.app_nil_r.
  - destruct (number_eq status (Int 2)) eqn:E; simpl; rewrite List.app_nil_r;
      (split; [reflexivity|]); (split;
        [intros event [H|[H|H]]; try discriminate; now apply (Hquiet event)|]);
      intros job' [= <-]; split; intros H.
    + reflexivity.
    + specialize (Hnot H). discriminate.
    + specialize (Htwo H). discriminate.
    + reflexivity.
  - split; [reflexivity|]. split.
    + intros event [H|[H|H]]; try discriminate. now apply (Hquiet event).
    + intros job [=].
  - split; [reflexivity|]. split.
    + intros event [H|[H|H]]; try discriminate. now apply (Hquiet event).
    + intros job [=].
  - split; [reflexivity|]. split.
    + intros event [H|[H|H]]; try discriminate. now apply (Hquiet event).
    + intros job [=].
Qed.

(** C9.  Decoding is defensive for the auxiliary fields.  [getTraces] gives
    the empty array for every stacktrace field that is not the JSON text of
    an array (malformed, absent or another value); [getReturnValue] gives
    undefined and logs for every returnvalue field that is not JSON; neither
    throws.  So on a mapping whose [data], [opts] and [progress] decode,
    [fromJSON] returns a job (and so does [fromId], which hands the stored
    mapping to it) with the empty stacktrace in the first case, and with an
    undefined returnvalue and a log entry in the second. *)
Theorem fromJSON_defensive :
  (forall stacktrace : JsVal,
      (forall l, parse stacktrace <> Ok (VArr l)) -> getTraces stacktrace = [])
  /\ (forall (value : JsVal) (e : Exn),
        parse value = Throw e ->
        getReturnValue value
        = ([Logger ("corrupted returnvalue: " ++ toString value)], Ok VUndefined))
  /\ (forall (now : Z) (props : Props) (jobId data0 opts0 progress0 : JsVal) (base : Job),
        parse (or (lookup "data" props) (VStr "{}")) = Ok data0 ->
        parse (or (lookup "opts" props) (VStr "{}")) = Ok opts0 ->
        new_Job normalize now (lookup "name" props) data0 opts0 = Ok base ->
        parse (or (lookup "progress" props) (num 0)) = Ok progress0 ->
        let run := fromJSON normalize now (VObj props) jobId in
        exists job,
          result run = Ok job
          /\ (forall queue,
                truthy jobId = true ->
                waitUntilReady queue = Ok tt ->
                hgetall queue (toKey queue jobId) = Ok (VObj props) ->
                props <> [] ->
                result (fromId normalize queue now jobId) = Ok (Found job))
          /\ ((forall l, parse (lookup "stacktrace" props) <> Ok (VArr l)) ->
              stacktrace job = Some [])
          /\ (forall s e,
                lookup "returnvalue" props = VStr s ->
                parse (VStr s) = Throw e ->
                returnvalue job = VUndefined
                /\ trace run = [Logger ("corrupted returnvalue: " ++ s)])).
Proof.
  split; [exact getTraces_other|]. split; [exact getReturnValue_corrupted|].
  intros now props jobId data0 opts0 progress0 base Hd Ho Hb Hp run.
  destruct (fromJSON_fields now props jobId data0 opts0 base progress0 Hd Ho Hb Hp)
    as (job & Hres & _ & _ & _ & Hst & _ & _ & Hrv & Htr).
  exists job. subst run. split; [exact Hres|]. split; [|split].
  - intros queue Ht Hr Hg Hne.
    rewrite (fromId_truthy queue now jobId (VObj props) Ht Hr Hg).
    assert (isEmpty (VObj props) = false) as -> by (destruct props; [congruence | reflexivity]).
    simpl. now rewrite Hres.
  - intros Hbad. now rewrite Hst, getTraces_other.
  - intros s e Hs He. rewrite Hs in Hrv, Htr. simpl in Hrv, Htr.
    rewrite He in Hrv, Htr. auto.
Qed.

End Collaborators.

Lemma falsy_values (v : JsVal) :
  truthy v = false ->
  v = VUndefined \/ v = VNull \/ v = VBool false \/ v = VNum NaN \/ v = num 0
  \/ v = VStr "".
Proof.
  destruct v as [| |[]|[|z]|s|l|o]; simpl; try discriminate; auto 10.
  - intros H. apply Bool.negb_false_iff, Z.eqb_eq in H. subst. auto 10.
  - intros H. apply Bool.negb_false_iff, String.eqb_eq in H. subst. auto 10.
Qed.

(** C10.  For every falsy [returnValue] (undefined, null, false, 0, NaN, the
    empty string) [moveToCompleted] sets the job's [returnvalue] to 0 and
    hands the script engine the serialization of the argument itself; unless
    the argument is 0, what is sent differs from the serialization of the
    value in memory, and what a reader decodes from it is not 0. *)
Theorem moveToCompleted_falsy :
  forall (queue : QueueBase) (this : Job) (returnValue : JsVal) (ignoreLock : bool),
    truthy returnValue = false ->
    waitUntilReady queue = Ok tt ->
    let run := moveToCompleted queue this returnValue ignoreLock in
    returnvalue (fst run) = num 0
    /\ trace (snd run)
       = [WaitUntilReady;
          MoveToCompleted (fst run) (stringify returnValue)
            (lookup "removeOnComplete" (opts this)) ignoreLock]
    /\ (returnValue <> num 0 ->
        stringify returnValue <> stringify (returnvalue (fst run))
        /\ forall decoded, parse (stringify returnValue) = Ok decoded -> decoded <> num 0).
Proof.
  intros queue this returnValue ignoreLock Hf Hr run. subst run.
  unfold moveToCompleted. rewrite Hr. unfold tryCatch, or. rewrite Hf. simpl.
  split; [reflexivity|]. split; [reflexivity|]. intros Hne.
  destruct (falsy_values returnValue Hf) as [-> | [-> | [-> | [-> | [-> | ->]]]]];
    try (now elim Hne); (split; [discriminate|]);
    intros decoded; vm_compute; intros [=]; subst; discriminate.
Qed.

End DecodeFacts.

(** ** The round trip [fromJSON (toJSON job)] *)

Module RoundTrip.
Import JS JSON Utils Job Run TextFacts DecodeFacts.

Lemma lookup_set (k k' : string) (v : JsVal) (o : Props) :
  lookup k (set k' v o) = if (k' =? k)%string then v else lookup k o.
Proof.
  induction o as [|[k0 v0] o IH]; simpl.
  - reflexivity.
  - destruct (k0 =? k')%string eqn:E; simpl.
    + apply String.eqb_eq in E. subst k0. now destruct (k' =? k)%string.
    + rewrite IH. destruct (k0 =? k)%string eqn:E0; [|reflexivity].
      apply String.eqb_eq in E0. subst k0. now rewrite String.eqb_sym, E.
Qed.

Lemma lookup_absent (k : string) (o : Props) :
  existsb (String.eqb k) (map fst o) = false -> lookup k o = VUndefined.
Proof.
  induction o as [|[k0 v0] o IH]; simpl; [reflexivity|].
  intros [H1 H2]%Bool.orb_false_iff. rewrite String.eqb_sym, H1. auto.
Qed.

Lemma lookup_assign (k : string) (s t : Props) :
  distinct (map fst s) = true ->
  lookup k (assign t (VObj s))
  = if existsb (String.eqb k) (map fst s) then lookup k s else lookup k t.
Proof.
  unfold assign. simpl own_props. revert t.
  induction s as [|[k1 v1] s IH]; intros t Hd; [reflexivity|].
  simpl in Hd. apply Bool.andb_true_iff in Hd as [Hk%Bool.negb_true_iff Hd].
  simpl. rewrite IH, lookup_set by assumption.
  rewrite (String.eqb_sym k k1).
  destruct (k1 =? k)%string eqn:E; simpl.
  - apply String.eqb_eq in E. subst k1. now rewrite Hk.
  - reflexivity.
Qed.

(** Options that JSON keeps are read alike before and after the round trip. *)
Lemma lookup_image_members (k : string) (o : Props) :
  distinct (map fst o) = true ->
  forallb (fun kv => is_undefined (snd kv) || exact (snd kv)) o = true ->
  lookup k (image_members image o) = lookup k o.
Proof.
  induction o as [|[k0 x] o IH]; [reflexivity|].
  intros Hd Hm. simpl in Hd, Hm.
  apply Bool.andb_true_iff in Hd as [Hk%Bool.negb_true_iff Hd].
  apply Bool.andb_true_iff in Hm as [Hx Ho].
  destruct (is_undefined x) eqn:Eu.
  - destruct x; try discriminate.
    change (image_members image ((k0, VUndefined) :: o)) with (image_members image o).
    simpl lookup. destruct (k0 =? k)%string eqn:E; [|auto].
    apply String.eqb_eq in E. subst k0.
    apply lookup_absent. now apply image_members_keys.
  - simpl in Hx. rewrite image_members_defined by (intros ->; discriminate).
    simpl lookup. rewrite image_exact by assumption. rewrite IH by assumption.
    reflexivity.
Qed.

Section Collaborators.
Variable normalize : JsVal -> JsVal.

Lemma roundtrip_options (o : Props) (k : string) :
  plain_options o = true ->
  normalize (lookup "backoff" o) = lookup "backoff" o ->
  lookup k
    (set "backoff" (normalize (lookup "backoff" (image_members image o)))
       (assign [("attempts", num 0); ("delay", num 0)] (VObj (image_members image o))))
  = lookup k o.
Proof.
  unfold plain_options. rewrite !Bool.andb_true_iff, !Bool.negb_true_iff.
  intros [[[Hd Hm] Ha] Hdel] Hn.
  rewrite lookup_set, lookup_image_members, Hn by assumption.
  destruct ("backoff" =? k)%string eqn:Eb.
  - apply String.eqb_eq in Eb. now subst k.
  - rewrite lookup_assign by now apply image_members_distinct.
    destruct (existsb (String.eqb k) (map fst (image_members image o))) eqn:Ek.
    + now apply lookup_image_members.
    + pose proof (lookup_absent k _ Ek) as Hu.
      rewrite lookup_image_members in Hu by assumption. rewrite Hu. cbn [lookup].
      destruct ("attempts" =? k)%string eqn:E1.
      { apply String.eqb_eq in E1. subst k. now rewrite Hu in Ha. }
      destruct ("delay" =? k)%string eqn:E2.
      { apply String.eqb_eq in E2. subst k. now rewrite Hu in Hdel. }
      reflexivity.
Qed.

Lemma plain_options_well_formed (o : Props) :
  plain_options o = true -> well_formed (VObj o) = true.
Proof.
  unfold plain_options. rewrite !Bool.andb_true_iff. intros [[[Hd Hm] _] _].
  simpl. rewrite Hd. simpl. rewrite forallb_forall in *. intros kv Hin.
  specialize (Hm kv Hin). apply Bool.orb_true_iff in Hm as [Hu|He].
  - destruct (snd kv); try discriminate. reflexivity.
  - now apply exact_well_formed.
Qed.

(** C2 (amended).  For every job whose [data] is a truthy value JSON
    represents exactly, whose [progress] is an integer, whose stacktrace is an
    array of such values (not the initial null), whose [returnvalue] is such
    a value (not undefined), and whose options are such values with [attempts]
    and [delay] set and [backoff] in normal form, [fromJSON] applied to the
    mapping [toJSON] produces returns a job with identical [data], options
    (every option reads the same), [progress], [stacktrace] and
    [returnvalue]. *)
Theorem fromJSON_toJSON_roundtrip :
  forall (now : Z) (this : Job) (jobId : JsVal) (p : Z) (l : list JsVal),
    truthy (data this) = true ->
    exact (data this) = true ->
    progress this = num p ->
    stacktrace this = Some l ->
    forallb exact l = true ->
    exact (returnvalue this) = true ->
    plain_options (opts this) = true ->
    normalize (lookup "backoff" (opts this)) = lookup "backoff" (opts this) ->
    exists job,
      result (fromJSON normalize now (VObj (toJSON this)) jobId) = Ok job
      /\ data job = data this
      /\ (forall k, lookup k (opts job) = lookup k (opts this))
      /\ progress job = progress this
      /\ stacktrace job = stacktrace this
      /\ returnvalue job = returnvalue this.
Proof.
  intros now this jobId p l Htd Hed Hp Hs Hl Hrv Ho Hn.
  assert (Hdu : data this <> VUndefined) by (intros E; rewrite E in Htd; discriminate).
  assert (Hru : returnvalue this <> VUndefined)
    by (intros E; rewrite E in Hrv; discriminate).
  assert (Hdata : parse (or (lookup "data" (toJSON this)) (VStr "{}")) = Ok (data this)).
  { change (lookup "data" (toJSON this)) with (stringify (or (data this) (VObj []))).
    unfold or at 2. rewrite Htd. unfold or. rewrite stringify_truthy by assumption.
    now apply parse_stringify_exact. }
  assert (Hopts : parse (or (lookup "opts" (toJSON this)) (VStr "{}"))
                  = Ok (VObj (image_members image (opts this)))).
  { change (lookup "opts" (toJSON this)) with (stringify (VObj (opts this))).
    unfold or. rewrite stringify_truthy by discriminate.
    rewrite parse_stringify; [reflexivity | now apply plain_options_well_formed
                             | discriminate]. }
  assert (Hprog : parse (or (lookup "progress" (toJSON this)) (num 0)) = Ok (num p)).
  { change (lookup "progress" (toJSON this)) with (progress this). rewrite Hp.
    unfold or. simpl truthy. destruct (Z.eqb_spec p 0) as [->|Hne]; simpl;
      apply parse_number_value. }
  destruct (fromJSON_fields normalize now (toJSON this) jobId _ _ _ _ Hdata Hopts
              eq_refl Hprog)
    as (job & Hres & Hjd & Hjo & Hjp & Hjs & _ & _ & Hjr & _).
  exists job. split; [exact Hres|]. split; [exact Hjd|]. split; [|split; [|split]].
  - intros k. rewrite Hjo. simpl opts. now apply roundtrip_options.
  - now rewrite Hjp, Hp.
  - rewrite Hjs, Hs. f_equal. apply getTraces_array.
    change (lookup "stacktrace" (toJSON this)) with (stringify (stacktrace_value this)).
    unfold stacktrace_value. rewrite Hs. now apply (parse_stringify_exact (VArr l)).
  - rewrite Hjr.
    change (lookup "returnvalue" (toJSON this)) with (stringify (returnvalue this)).
    assert (E : stringify (returnvalue this) = VStr (stringify_value (returnvalue this)))
      by (destruct (returnvalue this); reflexivity || congruence).
    rewrite E. simpl is_string. rewrite <- E. now rewrite parse_stringify_exact.
Qed.

End Collaborators.
End RoundTrip.

(** ** The properties on concrete jobs *)

Module Concrete.
Import JS JSON Utils Job Run Doubles MoreDoubles.
Import TextFacts FailFacts RunFacts DecodeFacts RoundTrip.

(** *** JSON text on small inputs *)

Example parse_object :
  parse (VStr (dq "{'a':[1,-20,true,null,'x\ny'],'b':{}, 'a': 'z'}"))
  = Ok (VObj [("a", VStr "z"); ("b", VObj [])]).
Proof. vm_compute. reflexivity. Qed.

Example stringify_object :
  stringify (VObj [("a", VArr [num 1; VUndefined; VStr (String "010" "q")]);
                   ("u", VUndefined)])
  = VStr (dq "{'a':[1,null,'\nq']}").
Proof. vm_compute. reflexivity. Qed.

Example parse_of_number : parse (num 0) = Ok (num 0).
Proof. reflexivity. Qed.

Example parse_of_object : parse (VObj [("done", num 1)]) = Throw SyntaxError.
Proof. reflexivity. Qed.

Example parse_leading_zero : parse (VStr "01") = Throw SyntaxError.
Proof. reflexivity. Qed.

Example parse_code_unit : parse (VStr (dq "'A\u00e9'")) = Ok (VStr (String "A" (String "233" ""))).
Proof. reflexivity. Qed.

Example parse_of_undefined : parse VUndefined = Throw SyntaxError.
Proof. reflexivity. Qed.

Example parse_white_space : parse (VStr " [ 1 , 2 ] ") = Ok (VArr [num 1; num 2]).
Proof. reflexivity. Qed.

Example stringify_null_text : stringify VNull = VStr "null".
Proof. reflexivity. Qed.

(** *** The stacktrace cap *)

(** C1, as stated, fails: with [stackTraceLimit = 3], after 5 failures the
    stored stacktrace is the first two traces, and the job in memory holds
    the first two and the fifth; neither is the three most recent. *)
Lemma stacktrace_cap_counterexample :
  let run := failures calculate finishedErrors queue0 job_limit3 five_failures in
  lookup "stacktrace" (persisted (toJSON job_limit3) (snd run))
  = VStr (dq "['Error: boom 1','Error: boom 2']")
  /\ stacktrace (fst run)
     = Some [VStr "Error: boom 1"; VStr "Error: boom 2"; VStr "Error: boom 5"]
  /\ lookup "stacktrace" (persisted (toJSON job_limit3) (snd run))
     <> stringify (VArr [VStr "Error: boom 3"; VStr "Error: boom 4"; VStr "Error: boom 5"])
  /\ stacktrace (fst run)
     <> Some [VStr "Error: boom 3"; VStr "Error: boom 4"; VStr "Error: boom 5"].
Proof. vm_compute. repeat split; discriminate. Qed.

Lemma saveAttempt_keeps_first_entries_witness :
  retained (fst (saveAttempt queue0 job_limit3 [] (error "1"))) = [VStr "Error: boom 1"]
  /\ retained (fst (failures calculate finishedErrors queue0 job_limit3 five_failures))
     = [VStr "Error: boom 1"; VStr "Error: boom 2"; VStr "Error: boom 5"].
Proof.
  split.
  - exact (proj1 (saveAttempt_keeps_first_entries calculate finishedErrors)
             queue0 job_limit3 [] (error "1") 3 eq_refl eq_refl).
  - exact (proj2 (saveAttempt_keeps_first_entries calculate finishedErrors)
             queue0 job_limit3 (2000, error "1", true) (3000, error "2", true)
             (4000, error "3", true) (5000, error "4", true) (6000, error "5", true)
             eq_refl eq_refl eq_refl).
Defined.

(** *** The round trip *)

(** C2, as stated, fails on a job as the constructor makes it: its
    stacktrace is null, and [fromJSON (toJSON job)] has the empty array. *)
Lemma roundtrip_counterexample :
  ~ (exists job,
        result (fromJSON normalize 9000 (VObj (toJSON job_default)) VUndefined) = Ok job
        /\ data job = data job_default
        /\ (forall k, lookup k (opts job) = lookup k (opts job_default))
        /\ progress job = progress job_default
        /\ stacktrace job = stacktrace job_default
        /\ returnvalue job = returnvalue job_default).
Proof.
  intros (job & Hres & _ & _ & _ & Hs & _).
  vm_compute in Hres. injection Hres as <-. discriminate.
Qed.

(** Falsy data comes back as the empty object. *)
Example roundtrip_falsy_data :
  exists job,
    result (fromJSON normalize 9000
              (VObj (toJSON (mkJob (VStr "1") (VStr "n") (num 0) (opts job_default)
                               (num 0) VNull (Some []) (num 1000) (Int 0) VUndefined
                               None None false)))
              VUndefined) = Ok job
    /\ data job = VObj [].
Proof. eexists. split; vm_compute; reflexivity. Qed.

(** Progress that is an object is written as it is and cannot be read. *)
Example roundtrip_object_progress :
  result (fromJSON normalize 9000
            (VObj (toJSON (set_progress (VObj [("done", num 1)]) job_retried)))
            VUndefined)
  = Throw SyntaxError.
Proof. vm_compute. reflexivity. Qed.

(** Progress that is NaN comes back as 0: [NaN || 0] is what is parsed. *)
Example roundtrip_nan_progress :
  exists job,
    result (fromJSON normalize 9000
              (VObj (toJSON (set_progress (VNum NaN) job_retried))) VUndefined) = Ok job
    /\ progress job = num 0.
Proof. eexists. split; vm_compute; reflexivity. Qed.

(** An undefined return value comes back as null. *)
Example roundtrip_undefined_returnvalue :
  exists job,
    result (fromJSON normalize 9000
              (VObj (toJSON (set_returnvalue VUndefined job_retried))) VUndefined) = Ok job
    /\ returnvalue job = VNull.
Proof. eexists. split; vm_compute; reflexivity. Qed.

Lemma fromJSON_toJSON_roundtrip_witness :
  exists job,
    result (fromJSON normalize 9000 (VObj (toJSON job_retried)) VUndefined) = Ok job
    /\ data job = data job_retried
    /\ (forall k, lookup k (opts job) = lookup k (opts job_retried))
    /\ progress job = progress job_retried
    /\ stacktrace job = stacktrace job_retried
    /\ returnvalue job = returnvalue job_retried.
Proof.
  exact (fromJSON_toJSON_roundtrip normalize 9000 job_retried VUndefined 0
           [VStr "Error: boom 1"] eq_refl eq_refl eq_refl eq_refl eq_refl eq_refl
           eq_refl eq_refl).
Defined.

(** An option set to undefined comes back with the constructor's default. *)
Example roundtrip_undefined_attempts :
  exists job,
    result (fromJSON normalize 9000
              (VObj (toJSON (the blank (email [("attempts", VUndefined)])))) VUndefined)
    = Ok job
    /\ lookup "attempts" (opts (the blank (email [("attempts", VUndefined)]))) = VUndefined
    /\ lookup "attempts" (opts job) = num 0.
Proof. eexists. repeat split; vm_compute; reflexivity. Qed.

(** *** The transition chosen on a failure *)

(** Three attempts with a fixed backoff of 1000: the first two failures are
    delayed by 1000, the third moves the job to failed with three attempts
    made. *)
Example three_attempts_fixed_backoff :
  let run := failures calculate finishedErrors queue0 (job_attempts 3)
               [(2000, error "1", true); (5000, error "2", true); (8000, error "3", true)] in
  map (fun batch => match batch with
                    | [_; moveToDelayed _ at_ _] => at_
                    | [_; op] => transition_name op
                    | _ => VUndefined
                    end) (batches (snd run))
  = [num 3000; num 6000; VStr "failed"]
  /\ attemptsMade (fst run) = Int 3
  /\ failedReason (fst run) = VStr "boom 3".
Proof. vm_compute. repeat split. Qed.

Lemma moveToFailed_dispatch_witness :
  (exists params,
      batches (trace (snd (moveToFailed calculate finishedErrors queue0 2000
                             (job_attempts 3) (error "1") true)))
      = [[hmset (VStr "bull:mail:1") params; moveToDelayed (VStr "1") (num 3000) true]])
  /\ (exists params,
        batches (trace (snd (moveToFailed calculate finishedErrors queue0 2000
                               job_immediate (error "1") true)))
        = [[hmset (VStr "bull:mail:1") params;
            retryJob (fst (moveToFailed calculate finishedErrors queue0 2000
                             job_immediate (error "1") true)) true]])
  /\ (exists params,
        batches (trace (snd (moveToFailed calculate finishedErrors queue0 2000
                               job_custom (error "1") true)))
        = [[hmset (VStr "bull:mail:1") params;
            moveToFinished (fst (moveToFailed calculate finishedErrors queue0 2000
                                   job_custom (error "1") true))
              "boom 1" VUndefined true]])
  /\ (exists params,
        batches (trace (snd (moveToFailed calculate finishedErrors queue0 2000
                               job_default (error "1") true)))
        = [[hmset (VStr "bull:mail:1") params;
            moveToFinished (fst (moveToFailed calculate finishedErrors queue0 2000
                                   job_default (error "1") true))
              "boom 1" VUndefined true]]).
Proof.
  split; [|split; [|split]].
  - destruct (moveToFailed_dispatch calculate finishedErrors queue0 2000 (job_attempts 3)
                (error "1") true eq_refl) as [params [Hretry _]].
    exists params.
    exact (proj1 (proj2 (Hretry eq_refl eq_refl)) 1000 eq_refl eq_refl).
  - destruct (moveToFailed_dispatch calculate finishedErrors queue0 2000 job_immediate
                (error "1") true eq_refl) as [params [Hretry _]].
    exists params.
    exact (proj2 (proj2 (Hretry eq_refl eq_refl)) eq_refl).
  - destruct (moveToFailed_dispatch calculate finishedErrors queue0 2000 job_custom
                (error "1") true eq_refl) as [params [Hretry _]].
    exists params.
    exact (proj1 (Hretry eq_refl eq_refl) eq_refl).
  - destruct (moveToFailed_dispatch calculate finishedErrors queue0 2000 job_default
                (error "1") true eq_refl) as [params [_ Hlast]].
    exists params.
    exact (Hlast (or_introl eq_refl)).
Defined.

(** C4, as stated, fails on a job with the default options: [attempts] is
    0, and after one failure [attemptsMade] is 1 although the job is not
    discarded. *)
Lemma attempts_counterexample :
  let this' := fst (moveToFailed calculate finishedErrors queue0 2000 job_default
                      (error "1") true) in
  discarded this' = false
  /\ attemptsMade this' = Int 1
  /\ lookup "attempts" (opts this') = num 0
  /\ number_lt (toNumber (lookup "attempts" (opts this'))) (attemptsMade this') = true.
Proof. vm_compute. repeat split. Qed.

Lemma attempts_accounting_witness :
  (exists n,
      attemptsMade (fst (moveToFailed calculate finishedErrors queue0 2000
                           (job_attempts 3) (error "1") true)) = Int n
      /\ 0 <= n <= 3)
  /\ (attemptsMade (fst (failures calculate finishedErrors queue0 (job_attempts 4)
                           [(2000, error "1", true); (3000, error "2", true)])) = Int 2
      /\ existsb terminal
           (batches (snd (failures calculate finishedErrors queue0 (job_attempts 4)
                            [(2000, error "1", true); (3000, error "2", true)]))) = false)
  /\ (exists b1 b2,
        batches (snd (failures calculate finishedErrors queue0 (job_attempts 2)
                        [(2000, error "1", true); (3000, error "2", true)])) = [b1; b2]
        /\ terminal b2 = true).
Proof.
  pose proof (attempts_accounting calculate finishedErrors) as (Hinv & Hcount & Hlast).
  split; [|split].
  - exact (Hinv queue0 (job_attempts 3) _ 3 _ eq_refl ltac:(lia) eq_refl
             (reach_step _ _ _ _ _ _ (reach_refl _ _ _ _)
                (step_moveToFailed _ _ queue0 (job_attempts 3) 2000 (error "1") true))).
  - exact (Hcount queue0 (job_attempts 4)
             [(2000, error "1", true); (3000, error "2", true)]
             eq_refl eq_refl eq_refl eq_refl (fun n e => eq_refl)).
  - exact (Hlast queue0 (job_attempts 2) (2000, error "1", true) (3000, error "2", true)
             eq_refl eq_refl eq_refl).
Defined.

Lemma moveToFailed_discarded_witness :
  discarded job_discarded = true
  /\ attemptsMade job_discarded = Int 0
  /\ lookup "attempts" (opts job_discarded) = num 5
  /\ exists params,
       batches (trace (snd (moveToFailed calculate finishedErrors queue0 2000 job_discarded
                              (error "1") true)))
       = [[hmset (VStr "bull:mail:1") params;
           moveToFinished
             (fst (moveToFailed calculate finishedErrors queue0 2000 job_discarded
                     (error "1") true))
             "boom 1" VUndefined true]]
       /\ phase_after (snd (moveToFailed calculate finishedErrors queue0 2000 job_discarded
                              (error "1") true)) = Failed.
Proof.
  repeat split.
  exact (moveToFailed_discarded calculate finishedErrors queue0 2000 job_discarded
           (error "1") true eq_refl eq_refl).
Defined.

(** The batch of a job without attempts left comes back with two results:
    it is the code of the second that counts, whatever the first is. *)
Lemma moveToFailed_result_code_witness :
  exec (queue_mixed 1 (-2))
    (fst (chooseTransition calculate (queue_mixed 1 (-2)) 2000
            (fst (saveAttempt (queue_mixed 1 (-2))
                    (set_failedReason (VStr "boom 1") job_default) [] (error "1")))
            (snd (saveAttempt (queue_mixed 1 (-2))
                    (set_failedReason (VStr "boom 1") job_default) [] (error "1")))
            (error "1") true))
  = Ok [(VNull, num 1); (VNull, num (-2))]
  /\ result (snd (moveToFailed calculate finishedErrors (queue_mixed 1 (-2)) 2000
                    job_default (error "1") true))
     = Throw (finishedErrors (num (-2)) (VStr "1") (VStr "failed"))
  /\ result (snd (moveToFailed calculate finishedErrors (queue_mixed (-1) 0) 2000
                    job_default (error "1") true))
     = Ok tt
  /\ result (snd (moveToFailed calculate finishedErrors (queue_mixed (-4) (-3)) 2000
                    (job_attempts 3) (error "1") true))
     = Throw (finishedErrors (num (-3)) (VStr "1") (VStr "delayed")).
Proof.
  split; [vm_compute; reflexivity|]. split; [|split].
  - unshelve epose proof (moveToFailed_result_code calculate finishedErrors
                            (queue_mixed 1 (-2)) 2000 job_default (error "1") true
                            _ [(VNull, num 1)] VNull (-2) eq_refl _ _) as H;
      [shelve | vm_compute; reflexivity | vm_compute; reflexivity |].
    exact (proj1 (proj2 H) eq_refl).
  - unshelve epose proof (moveToFailed_result_code calculate finishedErrors
                            (queue_mixed (-1) 0) 2000 job_default (error "1") true
                            _ [(VNull, num (-1))] VNull 0 eq_refl _ _) as H;
      [shelve | vm_compute; reflexivity | vm_compute; reflexivity |].
    exact (proj2 (proj2 H) ltac:(lia)).
  - unshelve epose proof (moveToFailed_result_code calculate finishedErrors
                            (queue_mixed (-4) (-3)) 2000 (job_attempts 3) (error "1") true
                            _ [(VNull, num (-4))] VNull (-3) eq_refl _ _) as H;
      [shelve | vm_compute; reflexivity | vm_compute; reflexivity |].
    exact (proj1 (proj2 H) eq_refl).
Defined.

(** *** Fetching and waiting *)

Lemma waitUntilFinished_already_finished_witness :
  result (waitUntilFinished normalize (queue_with (VObj stored_completed) 0 1) 2000
            job_default (num 5000))
  = Ok (Value (num 42))
  /\ result (waitUntilFinished normalize (queue_with (VObj stored_failed) 0 2) 2000
               job_default (num 5000))
     = Throw (Error (VStr "boom 1"))
  /\ forall event,
       ~ In (On event)
           (trace (waitUntilFinished normalize (queue_with (VObj stored_completed) 0 1)
                     2000 job_default (num 5000))).
Proof.
  pose proof (waitUntilFinished_already_finished normalize
                (queue_with (VObj stored_completed) 0 1) 2000 job_default (num 5000)
                (Int 1) eq_refl eq_refl eq_refl) as (_ & Hquiet & Hdone).
  pose proof (waitUntilFinished_already_finished normalize
                (queue_with (VObj stored_failed) 0 2) 2000 job_default (num 5000)
                (Int 2) eq_refl eq_refl eq_refl) as (_ & _ & Hfailed).
  split; [|split].
  - exact (proj2 (Hdone _ eq_refl) ltac:(discriminate)).
  - exact (proj1 (Hfailed _ eq_refl) eq_refl).
  - exact Hquiet.
Defined.

Lemma fromId_not_found_witness :
  (exists r, fromId normalize queue0 2000 (VStr "") = ([], Ok r) /\ not_found r = true)
  /\ (exists r, fromId normalize queue0 2000 VUndefined = ([], Ok r) /\ not_found r = true)
  /\ (exists r,
        fromId normalize queue0 2000 (VStr "1")
        = ([WaitUntilReady; Hgetall (VStr "bull:mail:1")], Ok r)
        /\ not_found r = true).
Proof.
  split; [|split].
  - exact (proj1 (fromId_not_found normalize queue0 2000 (VStr "")) eq_refl).
  - exact (proj1 (fromId_not_found normalize queue0 2000 VUndefined) eq_refl).
  - exact (proj1 (proj2 (fromId_not_found normalize queue0 2000 (VStr "1")) eq_refl eq_refl
                    (VObj []) eq_refl) eq_refl).
Defined.

Lemma fromJSON_defensive_witness :
  getTraces (VStr "{oops") = []
  /\ getReturnValue (VStr "{oops")
     = ([Logger "corrupted returnvalue: {oops"], Ok VUndefined)
  /\ exists job,
       result (fromJSON normalize 9000 (VObj stored_corrupted) (VStr "1")) = Ok job
       /\ result (fromId normalize (queue_with (VObj stored_corrupted) 0 1) 9000 (VStr "1"))
          = Ok (Found job)
       /\ stacktrace job = Some []
       /\ returnvalue job = VUndefined
       /\ trace (fromJSON normalize 9000 (VObj stored_corrupted) (VStr "1"))
          = [Logger "corrupted returnvalue: {oops"].
Proof.
  destruct (fromJSON_defensive normalize) as (Htraces & Hvalue & Hjob).
  split; [|split].
  - apply Htraces. intros l. vm_compute. discriminate.
  - exact (Hvalue (VStr "{oops") SyntaxError eq_refl).
  - destruct (Hjob 9000 stored_corrupted (VStr "1") _ _ _ _
                eq_refl eq_refl eq_refl eq_refl) as (job & Hres & Hid & Hst & Hrv).
    exists job. split; [exact Hres|]. split; [|split].
    + exact (Hid (queue_with (VObj stored_corrupted) 0 1) eq_refl eq_refl eq_refl
               ltac:(discriminate)).
    + apply Hst. intros l. vm_compute. discriminate.
    + exact (Hrv "{oops" SyntaxError eq_refl eq_refl).
Defined.

Lemma moveToCompleted_falsy_witness :
  let run := moveToCompleted queue0 job_default VNull true in
  returnvalue (fst run) = num 0
  /\ trace (snd run) = [WaitUntilReady; MoveToCompleted (fst run) (VStr "null") VUndefined true]
  /\ VStr "null" <> VStr "0".
Proof.
  destruct (moveToCompleted_falsy queue0 job_default VNull true eq_refl eq_refl)
    as (Hmem & Htrace & Hdiff).
  split; [exact Hmem|]. split; [exact Htrace|].
  exact (proj1 (Hdiff ltac:(discriminate))).
Defined.

End Concrete.

(** ** More on [saveAttempt] and [moveToFailed] *)

Module AttemptFacts.
Import JS JSON Utils Job Run TextFacts FailFacts RunFacts DecodeFacts.

Lemma removelast_snoc {A} (l : list A) (x : A) : removelast (l ++ [x])%list = l.
Proof.
  induction l as [|a l IH]; [reflexivity|].
  simpl. destruct (l ++ [x])%list eqn:E; [destruct l; discriminate|].
  now rewrite IH.
Qed.

Lemma forallb_firstn {A} (f : A -> bool) (n : nat) (l : list A) :
  forallb f l = true -> forallb f (firstn n l) = true.
Proof.
  revert l; induction n as [|n IH]; intros [|a l]; simpl; auto.
  intros [Ha Hl]%Bool.andb_true_iff. now rewrite Ha, IH.
Qed.

Lemma forallb_slice0 (f : JsVal -> bool) (l : list JsVal) (e : number) :
  forallb f l = true -> forallb f (slice0 l e) = true.
Proof. unfold slice0. apply forallb_firstn. Qed.

(** What [saveAttempt] keeps before it appends: the whole stacktrace, or a
    slice of it. *)
Lemma saveAttempt_shape queue this multi err :
  exists kept,
    retained (fst (saveAttempt queue this multi err)) = (kept ++ [VStr (stack err)])%list
    /\ snd (saveAttempt queue this multi err)
       = (multi ++ [hmset (toKey queue (id this))
                      [ ("attemptsMade", VNum (number_succ (attemptsMade this)));
                        ("stacktrace", stringify (VArr kept));
                        ("failedReason", VStr (message err)) ]])%list
    /\ (forall f, forallb f (retained this) = true -> forallb f kept = true).
Proof.
  unfold saveAttempt, retained. simpl opts.
  destruct (truthy (lookup "stackTraceLimit" (opts this))); simpl.
  - eexists. split; [reflexivity|]. split; [reflexivity|].
    intros f. apply forallb_slice0.
  - eexists. split; [reflexivity|]. split; [reflexivity|]. auto.
Qed.

Section Collaborators.
Variable calculate : JsVal -> number -> JsVal -> JsError -> JsVal.
Variable finishedErrors : JsVal -> JsVal -> JsVal -> Exn.

(** The calls [moveToFailed] makes, once the queue is ready. *)
Lemma moveToFailed_trace queue now this err ignoreLock :
  waitUntilReady queue = Ok tt ->
  trace (snd (moveToFailed calculate finishedErrors queue now this err ignoreLock))
  = [WaitUntilReady;
     Exec (fst (chooseTransition calculate queue now
                  (fst (saveAttempt queue (set_failedReason (VStr (message err)) this) [] err))
                  (snd (saveAttempt queue (set_failedReason (VStr (message err)) this) [] err))
                  err ignoreLock))].
Proof.
  intros Hr. unfold moveToFailed. rewrite Hr.
  destruct (saveAttempt queue _ [] err) as [this' multi].
  destruct (chooseTransition _ _ _ _ _ _ _) as [multi' command].
  unfold trace, bind, await, lift. simpl.
  destruct (exec queue multi') as [results|e]; [|reflexivity].
  destruct (last_code results) as [code|e]; [|reflexivity].
  destruct (number_lt _ _); reflexivity.
Qed.

(** X1.  Once the queue is ready, [moveToFailed] executes one batch, once,
    and the batch has exactly two commands: the [hmset] that records the
    attempt under the job's key, then one transition (delayed, retry or
    failed). *)
Theorem moveToFailed_one_transition :
  forall (queue : QueueBase) (now : Z) (this : Job) (err : JsError) (ignoreLock : bool),
    waitUntilReady queue = Ok tt ->
    exists params op,
      trace (snd (moveToFailed calculate finishedErrors queue now this err ignoreLock))
      = [WaitUntilReady; Exec [hmset (toKey queue (id this)) params; op]]
      /\ In (transition_name op) [VStr "delayed"; VStr "retry"; VStr "failed"].
Proof.
  intros queue now this err ignoreLock Hr.
  rewrite moveToFailed_trace by assumption.
  destruct (saveAttempt_batch queue (set_failedReason (VStr (message err)) this) [] err)
    as [params Hb].
  rewrite Hb.
  destruct (chooseTransition_command calculate queue now
              (fst (saveAttempt queue (set_failedReason (VStr (message err)) this) [] err))
              ([] ++ [hmset (toKey queue (id (set_failedReason (VStr (message err)) this)))
                        params])%list err ignoreLock) as (op & Hop & Hin).
  rewrite Hop. exists params, op. split; [reflexivity | exact Hin].
Qed.

(** X2.  Whatever the script engine answers, a [moveToFailed] call past the
    readiness wait changes three fields of the job in memory and no other:
    [attemptsMade] grows by one, [failedReason] becomes the error's message,
    and the stacktrace ends with the error's stack. *)
Theorem moveToFailed_frame :
  forall (queue : QueueBase) (now : Z) (this : Job) (err : JsError) (ignoreLock : bool),
    waitUntilReady queue = Ok tt ->
    let this' := fst (moveToFailed calculate finishedErrors queue now this err ignoreLock) in
    attemptsMade this' = number_succ (attemptsMade this)
    /\ failedReason this' = VStr (message err)
    /\ last (retained this') VUndefined = VStr (stack err)
    /\ id this' = id this /\ name this' = name this /\ data this' = data this
    /\ opts this' = opts this /\ progress this' = progress this
    /\ returnvalue this' = returnvalue this /\ timestamp this' = timestamp this
    /\ finishedOn this' = finishedOn this /\ processedOn this' = processedOn this
    /\ discarded this' = discarded this.
Proof.
  intros queue now this err ignoreLock Hr this'. subst this'.
  rewrite moveToFailed_job by assumption.
  destruct (saveAttempt_shape queue (set_failedReason (VStr (message err)) this) [] err)
    as (kept & Hk & _ & _).
  rewrite Hk, last_snoc. unfold saveAttempt.
  destruct (truthy _); repeat split; reflexivity.
Qed.

(** X3.  When the batch is rejected with [e], [moveToFailed] throws that same
    [e], and when the batch comes back without any result it throws a
    TypeError; in both cases the job in memory has already counted the
    attempt. *)
Theorem moveToFailed_batch_failure :
  forall (queue : QueueBase) (now : Z) (this : Job) (err : JsError) (ignoreLock : bool),
    waitUntilReady queue = Ok tt ->
    let run := moveToFailed calculate finishedErrors queue now this err ignoreLock in
    (forall e, (forall batch, exec queue batch = Throw e) ->
       result (snd run) = Throw e
       /\ attemptsMade (fst run) = number_succ (attemptsMade this))
    /\ ((forall batch, exec queue batch = Ok []) ->
        result (snd run) = Throw TypeError
        /\ attemptsMade (fst run) = number_succ (attemptsMade this)).
Proof.
  intros queue now this err ignoreLock Hr run. subst run.
  rewrite moveToFailed_result, moveToFailed_job, saveAttempt_attemptsMade by assumption.
  cbv zeta. split.
  - intros e He. rewrite He. split; reflexivity.
  - intros He. rewrite He. split; reflexivity.
Qed.

(** X4.  The stacktrace [moveToFailed] writes to the store is the one the job
    holds afterwards without its last entry: the trace of the failure being
    recorded is never in what is stored with it.  Read back with [getTraces],
    what was written is that shorter list (for entries JSON represents
    exactly, as strings are). *)
Theorem stored_stacktrace_lacks_last :
  forall (queue : QueueBase) (now : Z) (this : Job) (err : JsError) (ignoreLock : bool),
    waitUntilReady queue = Ok tt ->
    let run := moveToFailed calculate finishedErrors queue now this err ignoreLock in
    exists params op,
      batches (trace (snd run)) = [[hmset (toKey queue (id this)) params; op]]
      /\ lookup "stacktrace" params = stringify (VArr (removelast (retained (fst run))))
      /\ lookup "attemptsMade" params = VNum (attemptsMade (fst run))
      /\ lookup "failedReason" params = failedReason (fst run)
      /\ (forallb exact (retained this) = true ->
          getTraces (lookup "stacktrace" params) = removelast (retained (fst run))).
Proof.
  intros queue now this err ignoreLock Hr run. subst run.
  rewrite moveToFailed_batches, moveToFailed_job by assumption.
  destruct (saveAttempt_shape queue (set_failedReason (VStr (message err)) this) [] err)
    as (kept & Hk & Hb & Hf).
  pose proof (saveAttempt_attemptsMade queue (set_failedReason (VStr (message err)) this)
                [] err) as Ha.
  assert (Hfr : failedReason (fst (saveAttempt queue
                  (set_failedReason (VStr (message err)) this) [] err))
                = VStr (message err))
    by (unfold saveAttempt; destruct (truthy _); reflexivity).
  destruct (saveAttempt queue (set_failedReason (VStr (message err)) this) [] err)
    as [this' multi]. cbn [fst snd] in *. subst multi.
  destruct (chooseTransition_command calculate queue now this'
              ([] ++ [hmset (toKey queue (id (set_failedReason (VStr (message err)) this)))
                        [("attemptsMade",
                          VNum (number_succ
                                  (attemptsMade (set_failedReason (VStr (message err)) this))));
                         ("stacktrace", stringify (VArr kept));
                         ("failedReason", VStr (message err))]])%list err ignoreLock)
    as (op & Hop & _).
  rewrite Hop. cbn [fst]. eexists _, op. split; [reflexivity|].
  rewrite Hk, removelast_snoc, Ha, Hfr. cbn [lookup String.eqb Ascii.eqb Bool.eqb].
  repeat split.
  intros He. apply getTraces_array.
  apply (parse_stringify_exact (VArr kept)). simpl. apply Hf. exact He.
Qed.

(** The stacktrace after one call when no limit applies. *)
Lemma moveToFailed_retained_unlimited queue now this err ignoreLock :
  waitUntilReady queue = Ok tt ->
  truthy (lookup "stackTraceLimit" (opts this)) = false ->
  retained (fst (moveToFailed calculate finishedErrors queue now this err ignoreLock))
  = (retained this ++ [VStr (stack err)])%list.
Proof.
  intros Hr Hl. rewrite moveToFailed_job by assumption.
  now rewrite saveAttempt_retained_unlimited.
Qed.

(** X5.  With a positive [stackTraceLimit], after any non-empty sequence of
    failures the job holds at most that many entries, whatever it held
    before, and the last of them is the stack of the latest failure. *)
Theorem stacktrace_within_limit :
  forall (queue : QueueBase) (this : Job) (events : list Failure) (L : Z) (d : Failure),
    waitUntilReady queue = Ok tt ->
    lookup "stackTraceLimit" (opts this) = num L -> 0 < L ->
    events <> [] ->
    let this' := fst (failures calculate finishedErrors queue this events) in
    Z.of_nat (List.length (retained this')) <= L
    /\ last (retained this') VUndefined = entry (last events d).
Proof.
  intros queue this events L d Hr HL Hpos Hne this'. subst this'.
  rewrite (failures_retained calculate finishedErrors queue L events Hr Hpos Hne this d HL).
  rewrite last_snoc. split; [|reflexivity].
  rewrite List.length_app, List.length_firstn. simpl List.length. lia.
Qed.

(** X6.  Without a [stackTraceLimit], or with the limit 0, nothing is ever
    dropped: after any sequence of failures the job holds what it held
    before followed by the stack of every failure, in order. *)
Theorem stacktrace_unlimited :
  forall (queue : QueueBase) (events : list Failure) (this : Job),
    waitUntilReady queue = Ok tt ->
    truthy (lookup "stackTraceLimit" (opts this)) = false ->
    retained (fst (failures calculate finishedErrors queue this events))
    = (retained this ++ map entry events)%list.
Proof.
  intros queue events. induction events as [|[[now err] ignoreLock] events IH];
    intros this Hr Hl.
  - simpl. now rewrite List.app_nil_r.
  - rewrite failures_cons, IH by (try assumption; now rewrite moveToFailed_opts).
    rewrite moveToFailed_retained_unlimited by assumption.
    rewrite <- List.app_assoc. reflexivity.
Qed.

(** X7.  For a job that may be retried, the delay decides by JavaScript
    truthiness after the test for -1: every other non-zero number, a
    negative one included, moves the job to delayed at [now + delay], and
    every falsy answer (undefined, null, NaN as well as 0) retries at once. *)
Theorem moveToFailed_delay_truthiness :
  forall (queue : QueueBase) (now : Z) (this : Job) (err : JsError) (ignoreLock : bool),
    waitUntilReady queue = Ok tt ->
    number_lt (number_succ (attemptsMade this)) (toNumber (lookup "attempts" (opts this)))
    = true ->
    discarded this = false ->
    let run := moveToFailed calculate finishedErrors queue now this err ignoreLock in
    let delay := calculate (lookup "backoff" (opts this)) (number_succ (attemptsMade this))
                   (backoffStrategies queue) err in
    exists params,
      (forall d, delay = num d -> d <> -1 -> d <> 0 ->
         batches (trace (snd run))
         = [[hmset (toKey queue (id this)) params;
             moveToDelayed (id this) (num (now + d)) ignoreLock]])
      /\ (truthy delay = false ->
          batches (trace (snd run))
          = [[hmset (toKey queue (id this)) params; retryJob (fst run) ignoreLock]]).
Proof.
  intros queue now this err ignoreLock Hr Hlt Hd run delay. subst run delay.
  rewrite moveToFailed_batches, moveToFailed_job by assumption.
  destruct (saveAttempt_batch queue (set_failedReason (VStr (message err)) this) [] err)
    as [params Hb].
  exists params. rewrite Hb. simpl app.
  rewrite chooseTransition_retry
    by (rewrite ?saveAttempt_attemptsMade, ?saveAttempt_opts, ?saveAttempt_discarded;
        assumption).
  cbv zeta. rewrite saveAttempt_attemptsMade, saveAttempt_opts, saveAttempt_id.
  simpl attemptsMade. simpl opts. simpl id. split.
  - intros d -> H1 H0. simpl.
    assert ((d =? -1) = false) as -> by lia. assert ((d =? 0) = false) as -> by lia.
    reflexivity.
  - intros Hf. rewrite Hf.
    assert (is_minus_one (calculate (lookup "backoff" (opts this))
                            (number_succ (attemptsMade this)) (backoffStrategies queue) err)
            = false) as ->.
    { destruct (calculate _ _ _ _) as [| |b|[|z]|s|l|o]; try reflexivity.
      simpl in Hf |- *. destruct (Z.eqb_spec z 0); [subst; reflexivity | discriminate]. }
    reflexivity.
Qed.

End Collaborators.
End AttemptFacts.

(** ** [parseInt] on what [String] prints *)

Module NumeralFacts.
Import JS JSON TextFacts.

Lemma read_uint_N (n : N) : read_uint (string_of_N n) = (N.to_uint n, "").
Proof.
  unfold string_of_N. rewrite <- (append_nil_r (NilEmpty.string_of_uint _)).
  now apply read_uint_digits.
Qed.

Lemma read_int_N (n : N) : read_int (string_of_N n) = Some (Z.of_N n, "").
Proof.
  pose proof (read_uint_N n) as Hr. pose proof (to_uint_nonnil n) as Hn.
  pose proof (DecimalN.Unsigned.of_to n) as Hof.
  unfold read_int.
  assert (E : (let '(neg, body) :=
                 match string_of_N n with
                 | String "-" r => (true, r)
                 | String "+" r => (false, r)
                 | _ => (false, string_of_N n)
                 end in
               (neg, body)) = (false, string_of_N n)).
  { unfold string_of_N. destruct (N.to_uint n); try congruence; reflexivity. }
  destruct (match string_of_N n with
            | String "-" r => (true, r)
            | String "+" r => (false, r)
            | _ => (false, string_of_N n)
            end) as [neg body].
  injection E as -> ->. rewrite Hr.
  destruct (N.to_uint n); try congruence; now rewrite Hof.
Qed.

Lemma read_int_Z (z : Z) : read_int (string_of_Z z) = Some (z, "").
Proof.
  destruct z as [|p|p].
  - reflexivity.
  - exact (read_int_N (Npos p)).
  - unfold string_of_Z, read_int. rewrite read_uint_N.
    pose proof (to_uint_nonnil (Npos p)) as Hn.
    pose proof (DecimalN.Unsigned.of_to (Npos p)) as Hof.
    destruct (N.to_uint (Npos p)); try congruence; now rewrite Hof.
Qed.

Lemma number_start_not_ws (c : ascii) : number_start c = true -> is_ws c = false.
Proof.
  destruct c as [[] [] [] [] [] [] [] []]; try discriminate; intros _; reflexivity.
Qed.

Lemma skip_ws_Z (z : Z) : skip_ws (string_of_Z z) = string_of_Z z.
Proof.
  destruct (string_of_Z_start z) as (c & r & -> & Hc).
  simpl. now rewrite number_start_not_ws.
Qed.

(** [parseInt(String(z))] is [z]. *)
Lemma parseInt_num (z : Z) : parseInt (num z) = Int z.
Proof. unfold parseInt. simpl toString. now rewrite skip_ws_Z, read_int_Z. Qed.

Lemma length_escape (c : ascii) : (1 <= String.length (escape c))%nat.
Proof.
  unfold escape.
  destruct c as [[] [] [] [] [] [] [] []]; simpl; lia.
Qed.

Lemma length_quote_body (s : string) :
  (String.length s <= String.length (quote_body s))%nat.
Proof.
  induction s as [|c s IH]; [simpl; lia|].
  cbn [quote_body]. rewrite length_append.
  pose proof (length_escape c). simpl String.length. lia.
Qed.

(** The JSON text of a string is never the string itself. *)
Lemma quote_differs (s : string) : quote s <> s.
Proof.
  intros E. apply (f_equal String.length) in E. unfold quote in E.
  simpl in E. rewrite length_append in E. pose proof (length_quote_body s).
  simpl in E. lia.
Qed.

End NumeralFacts.

(** ** More on [new Job], [fromJSON] and [toJSON] *)

Module ReloadFacts.
Import JS JSON Utils Job Run TextFacts DecodeFacts RoundTrip NumeralFacts.

Lemma bind_lift_throw {A B} (e : Exn) (f : A -> M B) :
  bind (lift (Throw e)) f = ([], Throw e).
Proof. reflexivity. Qed.

(** A name that reads undefined in an object with distinct names reads
    undefined in its image. *)
Lemma lookup_image_undefined (k : string) (o : Props) :
  distinct (map fst o) = true ->
  lookup k o = VUndefined -> lookup k (image_members image o) = VUndefined.
Proof.
  induction o as [|[k0 x] o IH]; [reflexivity|].
  intros Hd Hl. cbn [map fst distinct] in Hd. cbn [lookup] in Hl.
  apply Bool.andb_true_iff in Hd as [Hk%Bool.negb_true_iff Hd].
  destruct (k0 =? k)%string eqn:E.
  - apply String.eqb_eq in E. subst k0 x.
    change (image_members image ((k, VUndefined) :: o)) with (image_members image o).
    apply lookup_absent. now apply image_members_keys.
  - destruct (is_undefined x) eqn:Eu.
    + destruct x; try discriminate.
      change (image_members image ((k0, VUndefined) :: o)) with (image_members image o).
      auto.
    + rewrite image_members_defined by (intros ->; discriminate).
      simpl lookup. rewrite E. auto.
Qed.

Lemma truthy_defined (v : JsVal) : truthy v = true -> v <> VUndefined.
Proof. intros H ->. discriminate. Qed.

Section Collaborators.
Variable normalize : JsVal -> JsVal.

(** The constructor on an options object. *)
Lemma new_Job_object now name0 data0 o :
  new_Job normalize now name0 data0 (VObj o)
  = Ok {| id := VUndefined; name := name0; data := data0;
          opts := set "backoff" (normalize (lookup "backoff" o))
                    (assign [("attempts", num 0); ("delay", num 0)] (VObj o));
          progress := num 0; returnvalue := VNull; stacktrace := None;
          timestamp := (if truthy (lookup "timestamp" o)
                        then lookup "timestamp" o else num now);
          attemptsMade := Int 0; failedReason := VUndefined;
          finishedOn := None; processedOn := None; discarded := false |}.
Proof. reflexivity. Qed.

(** The constructor fails on null options only, and keeps the data it is
    given. *)
Lemma new_Job_defined now name0 data0 opts0 :
  opts0 <> VNull ->
  exists base, new_Job normalize now name0 data0 opts0 = Ok base
               /\ data base = data0 /\ name base = name0
               /\ returnvalue base = VNull /\ attemptsMade base = Int 0.
Proof.
  intros Hn. destruct opts0; try congruence; eexists; (split; [reflexivity|]);
    repeat split.
Qed.

(** The fields of the job [fromJSON] builds that [fromJSON_fields] leaves
    out. *)
Lemma fromJSON_scalars now props jobId data0 opts0 base progress0 :
  parse (or (lookup "data" props) (VStr "{}")) = Ok data0 ->
  parse (or (lookup "opts" props) (VStr "{}")) = Ok opts0 ->
  new_Job normalize now (lookup "name" props) data0 opts0 = Ok base ->
  parse (or (lookup "progress" props) (num 0)) = Ok progress0 ->
  exists job,
    result (fromJSON normalize now (VObj props) jobId) = Ok job
    /\ name job = name base
    /\ timestamp job = timestamp base
    /\ discarded job = discarded base
    /\ attemptsMade job = parseInt (or (lookup "attemptsMade" props) (num 0))
    /\ finishedOn job
       = (if truthy (lookup "finishedOn" props)
          then Some (parseInt (lookup "finishedOn" props)) else finishedOn base)
    /\ processedOn job
       = (if truthy (lookup "processedOn" props)
          then Some (parseInt (lookup "processedOn" props)) else processedOn base).
Proof.
  intros Hd Ho Hb Hp. unfold fromJSON.
  cbn [get]. rewrite bind_lift_ok, Hd, bind_lift_ok.
  cbn [get]. rewrite bind_lift_ok, Ho, bind_lift_ok.
  cbn [get]. rewrite bind_lift_ok, Hb, bind_lift_ok.
  cbn [get]. rewrite bind_lift_ok.
  cbn [get]. rewrite bind_lift_ok, Hp, bind_lift_ok.
  cbn [get]. rewrite bind_lift_ok.
  cbn [get]. rewrite bind_lift_ok.
  cbn [get]. rewrite bind_lift_ok.
  cbn [get]. rewrite bind_lift_ok.
  cbn [get]. rewrite bind_lift_ok.
  cbn [get]. rewrite bind_lift_ok.
  destruct (is_string (lookup "returnvalue" props)).
  - destruct (parse (lookup "returnvalue" props)) as [v|e] eqn:Hrv.
    + rewrite (getReturnValue_parsed _ v Hrv). unfold bind, ret. simpl.
      eexists. split; [reflexivity|].
      destruct (truthy (lookup "finishedOn" props)), (truthy (lookup "processedOn" props));
        repeat split; reflexivity.
    + rewrite (getReturnValue_corrupted _ e Hrv). unfold bind, ret. simpl.
      eexists. split; [reflexivity|].
      destruct (truthy (lookup "finishedOn" props)), (truthy (lookup "processedOn" props));
        repeat split; reflexivity.
  - eexists. split; [reflexivity|].
    destruct (truthy (lookup "finishedOn" props)), (truthy (lookup "processedOn" props));
      repeat split; reflexivity.
Qed.

(** What [fromJSON] reads in the mapping [toJSON] makes, for a progress that
    is a number: [NaN || 0] is 0. *)
Lemma toJSON_decodes (this : Job) (n : number) :
  well_formed (data this) = true ->
  well_formed (VObj (opts this)) = true ->
  progress this = VNum n ->
  parse (or (lookup "data" (toJSON this)) (VStr "{}"))
  = Ok (image (or (data this) (VObj [])))
  /\ parse (or (lookup "opts" (toJSON this)) (VStr "{}"))
     = Ok (VObj (image_members image (opts this)))
  /\ parse (or (lookup "progress" (toJSON this)) (num 0))
     = Ok (match n with Int z => num z | NaN => num 0 end).
Proof.
  intros Hd Ho Hp. repeat split.
  - change (lookup "data" (toJSON this)) with (stringify (or (data this) (VObj []))).
    assert (Hdef : or (data this) (VObj []) <> VUndefined).
    { unfold or. destruct (truthy (data this)) eqn:E; [now apply truthy_defined|].
      discriminate. }
    assert (Hwf : well_formed (or (data this) (VObj [])) = true).
    { unfold or. now destruct (truthy (data this)). }
    unfold or at 1. rewrite stringify_truthy by assumption.
    now apply parse_stringify.
  - change (lookup "opts" (toJSON this)) with (stringify (VObj (opts this))).
    unfold or. rewrite stringify_truthy by discriminate.
    rewrite parse_stringify; [reflexivity | assumption | discriminate].
  - change (lookup "progress" (toJSON this)) with (progress this). rewrite Hp.
    destruct n as [|p]; [reflexivity|].
    unfold or. simpl truthy. destruct (Z.eqb_spec p 0) as [->|Hne]; simpl;
      apply parse_number_value.
Qed.

(** X8.  Unlike the stacktrace and the return value, the [data], [opts] and
    [progress] fields are decoded without protection: when the text of one
    of them is malformed [fromJSON] throws the parser's error, and when the
    [opts] field holds the text null it throws a TypeError. *)
Theorem fromJSON_throws :
  forall (now : Z) (props : Props) (jobId : JsVal) (e : Exn),
    (parse (or (lookup "data" props) (VStr "{}")) = Throw e ->
     fromJSON normalize now (VObj props) jobId = ([], Throw e))
    /\ (forall data0,
          parse (or (lookup "data" props) (VStr "{}")) = Ok data0 ->
          parse (or (lookup "opts" props) (VStr "{}")) = Throw e ->
          fromJSON normalize now (VObj props) jobId = ([], Throw e))
    /\ (forall data0 opts0,
          parse (or (lookup "data" props) (VStr "{}")) = Ok data0 ->
          parse (or (lookup "opts" props) (VStr "{}")) = Ok opts0 ->
          opts0 <> VNull ->
          parse (or (lookup "progress" props) (num 0)) = Throw e ->
          fromJSON normalize now (VObj props) jobId = ([], Throw e))
    /\ (forall data0,
          parse (or (lookup "data" props) (VStr "{}")) = Ok data0 ->
          lookup "opts" props = VStr "null" ->
          fromJSON normalize now (VObj props) jobId = ([], Throw TypeError)).
Proof.
  intros now props jobId e. repeat split.
  - intros Hd. unfold fromJSON. cbn [get]. now rewrite bind_lift_ok, Hd.
  - intros data0 Hd Ho. unfold fromJSON.
    cbn [get]. rewrite bind_lift_ok, Hd, bind_lift_ok.
    cbn [get]. now rewrite bind_lift_ok, Ho.
  - intros data0 opts0 Hd Ho Hn Hp. unfold fromJSON.
    destruct (new_Job_defined now (lookup "name" props) data0 opts0 Hn)
      as (base & Hb & _).
    cbn [get]. rewrite bind_lift_ok, Hd, bind_lift_ok.
    cbn [get]. rewrite bind_lift_ok, Ho, bind_lift_ok.
    cbn [get]. rewrite bind_lift_ok, Hb, bind_lift_ok.
    cbn [get]. rewrite bind_lift_ok.
    cbn [get]. now rewrite bind_lift_ok, Hp.
  - intros data0 Hd Ho. unfold fromJSON.
    cbn [get]. rewrite bind_lift_ok, Hd, bind_lift_ok.
    cbn [get]. rewrite bind_lift_ok, Ho.
    assert (Hp : parse (or (VStr "null") (VStr "{}")) = Ok VNull) by reflexivity.
    rewrite Hp, bind_lift_ok. cbn [get]. rewrite bind_lift_ok. reflexivity.
Qed.

(** X9.  From a mapping that lacks the fields, [fromJSON] builds the job the
    constructor makes of empty data and no options, with the stacktrace an
    empty array: data [{}], [attempts] and [delay] 0, progress 0, no attempt
    made, return value null, the current time as timestamp, and the fallback
    id when the mapping has none. *)
Theorem fromJSON_defaults :
  forall (now : Z) (props : Props) (jobId : JsVal),
    lookup "data" props = VUndefined ->
    lookup "opts" props = VUndefined ->
    lookup "progress" props = VUndefined ->
    lookup "finishedOn" props = VUndefined ->
    lookup "processedOn" props = VUndefined ->
    lookup "attemptsMade" props = VUndefined ->
    lookup "stacktrace" props = VUndefined ->
    lookup "returnvalue" props = VUndefined ->
    fromJSON normalize now (VObj props) jobId
    = ([], Ok {| id := or (lookup "id" props) jobId;
                 name := lookup "name" props;
                 data := VObj [];
                 opts := [("attempts", num 0); ("delay", num 0);
                          ("backoff", normalize VUndefined)];
                 progress := num 0; returnvalue := VNull; stacktrace := Some [];
                 timestamp := num now; attemptsMade := Int 0;
                 failedReason := lookup "failedReason" props;
                 finishedOn := None; processedOn := None; discarded := false |}).
Proof.
  intros now props jobId Hd Ho Hp Hf Hpo Ha Hs Hr. unfold fromJSON.
  assert (P0 : parse (or VUndefined (VStr "{}")) = Ok (VObj [])) by reflexivity.
  assert (P1 : parse (or VUndefined (num 0)) = Ok (num 0)) by reflexivity.
  assert (P2 : parseInt (or VUndefined (num 0)) = Int 0) by reflexivity.
  assert (P3 : getTraces VUndefined = []) by reflexivity.
  cbn [get]. rewrite bind_lift_ok, Hd, P0, bind_lift_ok.
  cbn [get]. rewrite bind_lift_ok, Ho, P0, bind_lift_ok.
  cbn [get]. rewrite bind_lift_ok, new_Job_object, bind_lift_ok.
  cbn [get]. rewrite bind_lift_ok.
  cbn [get]. rewrite bind_lift_ok, Hp, P1, bind_lift_ok.
  cbn [get]. rewrite bind_lift_ok, Hf.
  cbn [get]. rewrite bind_lift_ok, Hpo.
  cbn [get]. rewrite bind_lift_ok.
  cbn [get]. rewrite bind_lift_ok, Ha, P2.
  cbn [get]. rewrite bind_lift_ok, Hs, P3.
  cbn [get]. rewrite bind_lift_ok, Hr.
  reflexivity.
Qed.

(** The job [fromJSON] rebuilds from [toJSON this]. *)
Lemma reload (now : Z) (this : Job) (jobId : JsVal) (n : number) :
  well_formed (data this) = true ->
  well_formed (VObj (opts this)) = true ->
  progress this = VNum n ->
  exists job,
    result (fromJSON normalize now (VObj (toJSON this)) jobId) = Ok job
    /\ data job = image (or (data this) (VObj []))
    /\ opts job
       = set "backoff" (normalize (lookup "backoff" (image_members image (opts this))))
           (assign [("attempts", num 0); ("delay", num 0)]
              (VObj (image_members image (opts this))))
    /\ progress job = match n with Int z => num z | NaN => num 0 end
    /\ stacktrace job = Some (getTraces (stringify (stacktrace_value this)))
    /\ failedReason job = stringify (failedReason this)
    /\ id job = or (id this) jobId
    /\ returnvalue job
       = (if is_string (stringify (returnvalue this))
          then match parse (stringify (returnvalue this)) with
               | Ok v => v
               | Throw _ => VUndefined
               end
          else VNull)
    /\ trace (fromJSON normalize now (VObj (toJSON this)) jobId)
       = (if is_string (stringify (returnvalue this))
          then match parse (stringify (returnvalue this)) with
               | Ok _ => []
               | Throw _ => [Logger ("corrupted returnvalue: "
                                     ++ toString (stringify (returnvalue this)))]
               end
          else [])
    /\ name job = name this
    /\ timestamp job
       = (if truthy (lookup "timestamp" (image_members image (opts this)))
          then lookup "timestamp" (image_members image (opts this)) else num now)
    /\ discarded job = false
    /\ attemptsMade job = parseInt (or (VNum (attemptsMade this)) (num 0))
    /\ finishedOn job
       = (if truthy (optional (finishedOn this))
          then Some (parseInt (optional (finishedOn this))) else None)
    /\ processedOn job
       = (if truthy (optional (processedOn this))
          then Some (parseInt (optional (processedOn this))) else None).
Proof.
  intros Hd Ho Hp.
  destruct (toJSON_decodes this n Hd Ho Hp) as (Pd & Po & Pp).
  destruct (fromJSON_fields normalize now (toJSON this) jobId _ _ _ _ Pd Po
              (new_Job_object now _ _ _) Pp)
    as (job & Hres & F1 & F2 & F3 & F4 & F5 & F6 & F7 & F8).
  destruct (fromJSON_scalars now (toJSON this) jobId _ _ _ _ Pd Po
              (new_Job_object now _ _ _) Pp)
    as (job' & Hres' & S1 & S2 & S3 & S4 & S5 & S6).
  rewrite Hres in Hres'. injection Hres' as <-.
  exists job. split; [exact Hres|].
  repeat split; assumption.
Qed.

(** X10.  For every job whose progress is an integer or NaN, [fromJSON]
    applied to the mapping [toJSON] makes throws nothing and logs nothing,
    and what it returns holds the JSON image of the job: [data] is the image
    of [data || {}], the stacktrace is the array of the images of the entries
    (empty for the initial null), the return value is the image of the
    return value (null for undefined), and the progress is the same when it
    is an integer and 0 when it is NaN. *)
Theorem fromJSON_toJSON_image :
  forall (now : Z) (this : Job) (jobId : JsVal) (n : number),
    well_formed (data this) = true ->
    well_formed (VObj (opts this)) = true ->
    progress this = VNum n ->
    forallb well_formed (retained this) = true ->
    well_formed (returnvalue this) = true ->
    exists job,
      fromJSON normalize now (VObj (toJSON this)) jobId = ([], Ok job)
      /\ data job = image (or (data this) (VObj []))
      /\ progress job = match n with Int z => progress this | NaN => num 0 end
      /\ stacktrace job = Some (map image (retained this))
      /\ returnvalue job = image (returnvalue this).
Proof.
  intros now this jobId n Hd Ho Hp Hs Hr.
  destruct (reload now this jobId n Hd Ho Hp)
    as (job & Hres & F1 & _ & F3 & F4 & _ & _ & F7 & F8 & _).
  assert (Hrv : parse (stringify (returnvalue this)) = Ok (image (returnvalue this))
                \/ returnvalue this = VUndefined).
  { destruct (returnvalue this) eqn:E; try (left; apply parse_stringify;
      [assumption | discriminate]). now right. }
  exists job. split; [|split; [exact F1|split; [|split]]]; [|now rewrite F3, Hp; destruct n| |].
  - destruct (fromJSON normalize now (VObj (toJSON this)) jobId) as [t r].
    unfold trace in F8. unfold result in Hres. simpl in F8, Hres. subst t r.
    f_equal. destruct Hrv as [Hrv| ->]; [|reflexivity].
    rewrite Hrv. now destruct (is_string _).
  - rewrite F4. f_equal. unfold stacktrace_value, retained in *.
    destruct (stacktrace this) as [l|]; [|reflexivity].
    apply getTraces_array. now apply (parse_stringify (VArr l)).
  - rewrite F7. destruct Hrv as [Hrv| ->]; [|reflexivity].
    rewrite Hrv.
    destruct (returnvalue this); try reflexivity.
Qed.

(** X11.  The round trip keeps the name, an id that is set (the fallback id
    replaces a falsy one), the number of attempts made and the two times
    when they are set to a non-zero number; a counter that is NaN comes back
    as 0 and a time that is 0 or NaN comes back unset. *)
Theorem fromJSON_toJSON_counters :
  forall (now : Z) (this : Job) (jobId : JsVal) (p : Z),
    well_formed (data this) = true ->
    well_formed (VObj (opts this)) = true ->
    progress this = num p ->
    exists job,
      result (fromJSON normalize now (VObj (toJSON this)) jobId) = Ok job
      /\ name job = name this
      /\ id job = or (id this) jobId
      /\ attemptsMade job
         = match attemptsMade this with Int z => Int z | NaN => Int 0 end
      /\ finishedOn job
         = match finishedOn this with
           | Some (Int z) => if z =? 0 then None else Some (Int z)
           | _ => None
           end
      /\ processedOn job
         = match processedOn this with
           | Some (Int z) => if z =? 0 then None else Some (Int z)
           | _ => None
           end.
Proof.
  intros now this jobId p Hd Ho Hp.
  destruct (reload now this jobId (Int p) Hd Ho Hp)
    as (job & Hres & _ & _ & _ & _ & _ & F6 & _ & _ & S1 & _ & _ & S4 & S5 & S6).
  exists job. split; [exact Hres|]. split; [exact S1|]. split; [exact F6|].
  split; [|split].
  - rewrite S4. destruct (attemptsMade this) as [|z]; [reflexivity|].
    unfold or. simpl truthy. destruct (Z.eqb_spec z 0) as [->|Hz]; simpl negb; cbv iota.
    + reflexivity.
    + apply parseInt_num.
  - rewrite S5. destruct (finishedOn this) as [[|z]|]; try reflexivity.
    simpl truthy. destruct (Z.eqb_spec z 0); simpl negb; cbv iota; [reflexivity|].
    f_equal. apply parseInt_num.
  - rewrite S6. destruct (processedOn this) as [[|z]|]; try reflexivity.
    simpl truthy. destruct (Z.eqb_spec z 0); simpl negb; cbv iota; [reflexivity|].
    f_equal. apply parseInt_num.
Qed.

(** X12.  Three things the round trip does not restore.  The timestamp of
    the mapping is not read: without a [timestamp] option the job comes back
    with the time of the decoding.  The discarded mark is not written: the
    job comes back not discarded.  The failure reason is written as JSON
    text and read back as is: a reason that is a string comes back as its
    quoted text, never as itself. *)
Theorem fromJSON_toJSON_not_restored :
  forall (now : Z) (this : Job) (jobId : JsVal) (p : Z),
    well_formed (data this) = true ->
    well_formed (VObj (opts this)) = true ->
    progress this = num p ->
    exists job,
      result (fromJSON normalize now (VObj (toJSON this)) jobId) = Ok job
      /\ (lookup "timestamp" (opts this) = VUndefined -> timestamp job = num now)
      /\ discarded job = false
      /\ failedReason job = stringify (failedReason this)
      /\ (forall s, failedReason this = VStr s ->
            failedReason job = VStr (quote s) /\ failedReason job <> failedReason this).
Proof.
  intros now this jobId p Hd Ho Hp.
  destruct (reload now this jobId (Int p) Hd Ho Hp)
    as (job & Hres & _ & _ & _ & _ & F5 & _ & _ & _ & _ & S2 & S3 & _).
  exists job. split; [exact Hres|]. split; [|split; [exact S3|split; [exact F5|]]].
  - intros Ht. rewrite S2.
    simpl in Ho. apply Bool.andb_true_iff in Ho as [Hk _].
    now rewrite (lookup_image_undefined "timestamp" (opts this) Hk Ht).
  - intros s Hs. rewrite F5, Hs. split; [reflexivity|].
    simpl. intros E. injection E as E. now apply quote_differs in E.
Qed.

End Collaborators.
End ReloadFacts.

(** ** More on [moveToCompleted] and [waitUntilFinished] *)

Module FinishFacts.
Import JS JSON Utils Job Run TextFacts FailFacts DecodeFacts.

Section Collaborators.
Variable normalize : JsVal -> JsVal.
Variable calculate : JsVal -> number -> JsVal -> JsError -> JsVal.
Variable finishedErrors : JsVal -> JsVal -> JsVal -> Exn.

(** X13.  For a truthy return value [moveToCompleted] keeps the value itself
    in memory and hands its JSON text to the script engine, in one call
    after the readiness wait; when JSON represents the value exactly, what
    [getReturnValue] decodes from that text is the value in memory. *)
Theorem moveToCompleted_truthy :
  forall (queue : QueueBase) (this : Job) (returnValue : JsVal) (ignoreLock : bool),
    truthy returnValue = true ->
    waitUntilReady queue = Ok tt ->
    let run := moveToCompleted queue this returnValue ignoreLock in
    returnvalue (fst run) = returnValue
    /\ snd run
       = ([WaitUntilReady;
           MoveToCompleted (fst run) (stringify returnValue)
             (lookup "removeOnComplete" (opts this)) ignoreLock],
          moveToCompletedReply queue (fst run) (stringify returnValue))
    /\ (exact returnValue = true ->
        getReturnValue (stringify returnValue) = ([], Ok (returnvalue (fst run)))).
Proof.
  intros queue this returnValue ignoreLock Ht Hr run. subst run.
  unfold moveToCompleted. rewrite Hr. unfold tryCatch, or. rewrite Ht. cbn [fst snd].
  split; [reflexivity|]. split.
  - rewrite bind_await_ok. reflexivity.
  - intros He. apply getReturnValue_parsed. now apply parse_stringify_exact.
Qed.


(** X15.  How [waitUntilFinished] fails before it waits.  A rejected status
    query is thrown and nothing is fetched or registered.  When the job has
    finished but its record is gone (the mapping stored under its key is
    empty), or the job has no id to fetch by, the result is a TypeError. *)
Theorem waitUntilFinished_failures :
  forall (queue : QueueBase) (now : Z) (this : Job) (watchdog : JsVal),
    waitUntilReady queue = Ok tt ->
    let run := waitUntilFinished normalize queue now this watchdog in
    (forall e, isFinished queue (id this) = Throw e ->
       run = ([WaitUntilReady; IsFinished (id this)], Throw e))
    /\ (forall status jobData,
          isFinished queue (id this) = Ok status ->
          number_lt (Int 0) status = true ->
          truthy (id this) = true ->
          hgetall queue (toKey queue (id this)) = Ok jobData ->
          isEmpty jobData = true ->
          run = ([WaitUntilReady; IsFinished (id this); WaitUntilReady;
                  Hgetall (toKey queue (id this))],
                 Throw TypeError))
    /\ (forall status,
          isFinished queue (id this) = Ok status ->
          number_lt (Int 0) status = true ->
          truthy (id this) = false ->
          run = ([WaitUntilReady; IsFinished (id this)], Throw TypeError)).
Proof.
  intros queue now this watchdog Hr run. subst run. repeat split.
  - intros e He. unfold waitUntilFinished. rewrite Hr, bind_await_ok, He. reflexivity.
  - intros status jobData Hs Hfin Ht Hg He.
    unfold waitUntilFinished. rewrite Hr, bind_await_ok, Hs, bind_await_ok, Hfin.
    rewrite (fromId_truthy normalize queue now (id this) jobData Ht Hr Hg), He.
    reflexivity.
  - intros status Hs Hfin Ht.
    unfold waitUntilFinished. rewrite Hr, bind_await_ok, Hs, bind_await_ok, Hfin.
    rewrite (fromId_falsy normalize queue now (id this) Ht). reflexivity.
Qed.

(** X16.  While the queue is not ready nothing happens: when the readiness
    wait is rejected, [moveToFailed], [moveToCompleted], [fromId] (with an
    id) and [waitUntilFinished] throw the rejection, the readiness wait is
    the only call they have made, and the job is as it was. *)
Theorem not_ready_no_effect :
  forall (queue : QueueBase) (now : Z) (this : Job) (e : Exn),
    waitUntilReady queue = Throw e ->
    (forall err ignoreLock,
       moveToFailed calculate finishedErrors queue now this err ignoreLock
       = (this, ([WaitUntilReady], Throw e)))
    /\ (forall returnValue ignoreLock,
          moveToCompleted queue this returnValue ignoreLock
          = (this, ([WaitUntilReady], Throw e)))
    /\ (forall jobId, truthy jobId = true ->
          fromId normalize queue now jobId = ([WaitUntilReady], Throw e))
    /\ (forall watchdog,
          waitUntilFinished normalize queue now this watchdog
          = ([WaitUntilReady], Throw e)).
Proof.
  intros queue now this e Hr. repeat split.
  - intros err ignoreLock. now apply moveToFailed_not_ready.
  - intros returnValue ignoreLock. unfold moveToCompleted. now rewrite Hr.
  - intros jobId Ht. unfold fromId. now rewrite Ht, Hr.
  - intros watchdog. unfold waitUntilFinished. now rewrite Hr.
Qed.

End Collaborators.
End FinishFacts.

(** ** [create], [update], [remove] and the state queries *)

Module RestFacts.
Import JS JSON Utils Job Run Rest TextFacts DecodeFacts RoundTrip ReloadFacts.





Section Collaborators.
Variable normalize : JsVal -> JsVal.


(** X18.  [update] writes one field of the hash, [data], with the JSON text
    of the data it is given.  Decoding the record afterwards gives that data
    back for every value JSON represents exactly, the falsy ones included
    (0, the empty string, false, null), whatever the field held before. *)
Theorem update_then_decode :
  forall (queue : QueueBase) (engine : Engine) (now : Z) (this : Job)
         (props : Props) (jobId data0 opts0 progress0 : JsVal),
    waitUntilReady queue = Ok tt ->
    exact data0 = true ->
    parse (or (lookup "opts" props) (VStr "{}")) = Ok opts0 ->
    opts0 <> VNull ->
    parse (or (lookup "progress" props) (num 0)) = Ok progress0 ->
    let run := update queue engine this data0 in
    let record := written props (fst run) in
    fst run = [Core WaitUntilReady; Hset (toKey queue (id this)) "data" (stringify data0)]
    /\ (forall k, k <> "data"%string -> lookup k record = lookup k props)
    /\ exists job,
         result (fromJSON normalize now (VObj record) jobId) = Ok job
         /\ data job = data0.
Proof.
  intros queue engine now this props jobId data0 opts0 progress0 Hr He Ho Hn Hp
         run record.
  subst record run. unfold update. rewrite Hr. cbn [fst written fold_left].
  split; [reflexivity|]. split.
  - intros k Hk. rewrite lookup_set.
    destruct (String.eqb_spec "data" k); [congruence | reflexivity].
  - assert (Hdef : data0 <> VUndefined) by (intros ->; discriminate).
    assert (Pd : parse (or (lookup "data" (set "data" (stringify data0) props))
                          (VStr "{}")) = Ok data0).
    { rewrite lookup_set. cbn [String.eqb Ascii.eqb Bool.eqb]. unfold or.
      rewrite stringify_truthy by assumption. now apply parse_stringify_exact. }
    assert (Po : parse (or (lookup "opts" (set "data" (stringify data0) props))
                          (VStr "{}")) = Ok opts0).
    { rewrite lookup_set. exact Ho. }
    assert (Pp : parse (or (lookup "progress" (set "data" (stringify data0) props))
                          (num 0)) = Ok progress0).
    { rewrite lookup_set. exact Hp. }
    destruct (new_Job_defined normalize now
                (lookup "name" (set "data" (stringify data0) props)) data0 opts0 Hn)
      as (base & Hb & Hbd & _).
    destruct (fromJSON_fields normalize now (set "data" (stringify data0) props) jobId
                data0 opts0 base progress0 Pd Po Hb Pp)
      as (job & Hres & F1 & _).
    exists job. split; [exact Hres | now rewrite F1].
Qed.

(** X26.  [updateProgress] sets the progress in memory and hands the same
    value to the script engine, whatever the engine answers.  What
    [fromJSON] makes of the record of the job afterwards: an integer
    progress comes back as it is and NaN comes back as 0; a progress that is
    an object which is not an array makes it throw a SyntaxError; a progress
    that is an array is read as the text of the array (its elements joined
    by commas), so it comes back as whatever that text parses to and makes
    [fromJSON] throw when the text is not JSON. *)
Theorem updateProgress_then_decode :
  forall (engine : Engine) (now : Z) (this : Job) (jobId value : JsVal),
    well_formed (data this) = true ->
    well_formed (VObj (opts this)) = true ->
    let run := updateProgress engine this value in
    progress (fst run) = value
    /\ fst (snd run) = [UpdateProgress (fst run) value]
    /\ (forall n, value = VNum n ->
          exists job,
            result (fromJSON normalize now (VObj (toJSON (fst run))) jobId) = Ok job
            /\ progress job = match n with Int z => num z | NaN => num 0 end)
    /\ (forall o, value = VObj o ->
          fromJSON normalize now (VObj (toJSON (fst run))) jobId
          = ([], Throw SyntaxError))
    /\ (forall l, value = VArr l ->
          (forall v, parse (VStr (toString (VArr l))) = Ok v ->
             exists job,
               result (fromJSON normalize now (VObj (toJSON (fst run))) jobId) = Ok job
               /\ progress job = v)
          /\ (forall e, parse (VStr (toString (VArr l))) = Throw e ->
                fromJSON normalize now (VObj (toJSON (fst run))) jobId
                = ([], Throw e))).
Proof.
  intros engine now this jobId value Hd Ho run. subst run.
  unfold updateProgress. cbn [fst snd].
  split; [reflexivity|]. split; [reflexivity|].
  assert (Hdec : forall x,
            parse (or (lookup "data" (toJSON (set_progress x this))) (VStr "{}"))
            = Ok (image (or (data this) (VObj [])))
            /\ parse (or (lookup "opts" (toJSON (set_progress x this))) (VStr "{}"))
               = Ok (VObj (image_members image (opts this)))).
  { intros x.
    destruct (toJSON_decodes (set_progress (num 0) this) (Int 0) Hd Ho eq_refl)
      as (Pd & Po & _).
    split; [exact Pd | exact Po]. }
  split; [|split].
  - intros n ->.
    destruct (reload normalize now (set_progress (VNum n) this) jobId n Hd Ho eq_refl)
      as (job & Hres & _ & _ & F3 & _).
    exists job. split; assumption.
  - intros o ->. destruct (Hdec (VObj o)) as [Pd Po].
    unfold fromJSON.
    cbn [get]. rewrite bind_lift_ok, Pd, bind_lift_ok.
    cbn [get]. rewrite bind_lift_ok, Po, bind_lift_ok.
    cbn [get]. rewrite bind_lift_ok, new_Job_object, bind_lift_ok.
    cbn [get]. rewrite bind_lift_ok.
    cbn [get]. rewrite bind_lift_ok.
    assert (Pp : parse (or (lookup "progress" (toJSON (set_progress (VObj o) this)))
                          (num 0)) = Throw SyntaxError) by reflexivity.
    now rewrite Pp.
  - intros l ->. destruct (Hdec (VArr l)) as [Pd Po].
    assert (Pa : parse (or (lookup "progress" (toJSON (set_progress (VArr l) this)))
                          (num 0)) = parse (VStr (toString (VArr l)))) by reflexivity.
    split.
    + intros v Hv. rewrite <- Pa in Hv.
      destruct (fromJSON_fields normalize now (toJSON (set_progress (VArr l) this)) jobId
                  _ _ _ _ Pd Po (new_Job_object normalize now _ _ _) Hv)
        as (job & Hres & _ & _ & F3 & _).
      exists job. split; assumption.
    + intros e He. rewrite <- Pa in He. unfold fromJSON.
      cbn [get]. rewrite bind_lift_ok, Pd, bind_lift_ok.
      cbn [get]. rewrite bind_lift_ok, Po, bind_lift_ok.
      cbn [get]. rewrite bind_lift_ok, new_Job_object, bind_lift_ok.
      cbn [get]. rewrite bind_lift_ok.
      cbn [get]. rewrite bind_lift_ok.
      now rewrite He.
Qed.

End Collaborators.

(** X19.  [remove] emits the [removed] event, for this job and once, exactly
    when it returns normally; when the script engine answers a falsy value
    it emits nothing and throws the error that names the job's id; and it
    asks the engine for the removal only after the queue is ready. *)
Theorem remove_outcomes :
  forall (queue : QueueBase) (engine : Engine) (this : Job),
    let run := remove queue engine this in
    (snd run = Ok tt <-> In (Emit "removed" this) (fst run))
    /\ (forall event job, In (Emit event job) (fst run) ->
          fst run = [Core WaitUntilReady; Remove (id this); Emit "removed" this])
    /\ (forall removed,
          waitUntilReady queue = Ok tt ->
          removeReply engine (id this) = Ok removed ->
          truthy removed = false ->
          run = ([Core WaitUntilReady; Remove (id this)],
                 Throw (Error (VStr ("Could not remove job " ++ toString (id this))))))
    /\ (In (Remove (id this)) (fst run) -> waitUntilReady queue = Ok tt).
Proof.
  intros queue engine this run. subst run. unfold remove.
  destruct (waitUntilReady queue) as [[]|e].
  - destruct (removeReply engine (id this)) as [removed|e].
    + destruct (truthy removed) eqn:Ht; cbn [fst snd]; repeat split.
      * intros _. simpl. tauto.
      * intros removed' _ [= <-] Hf. congruence.
      * intros H. discriminate.
      * intros [H|[H|[]]]; discriminate.
      * intros event job [H|[H|[]]]; discriminate.
    + cbn [fst snd]. repeat split.
      * intros H. discriminate.
      * intros [H|[H|[]]]; discriminate.
      * intros event job [H|[H|[]]]; discriminate.
      * intros removed _ H. discriminate.
  - cbn [fst snd]. repeat split.
    + intros H. discriminate.
    + intros [H|[]]. discriminate.
    + intros event job [H|[]]. discriminate.
    + intros removed H. discriminate.
    + intros [H|[]]. discriminate.
Qed.

(** X20.  [isWaiting] answers [inWait || inPaused] and consults the paused
    list only when the job is not in the wait list; like the other state
    queries it does not wait for the queue to be ready. *)
Theorem isWaiting_short_circuit :
  forall (queue : QueueBase) (engine : Engine) (this : Job) (inWait : JsVal),
    isJobInList engine (toKey queue (VStr "wait")) (id this) = Ok inWait ->
    let run := isWaiting queue engine this in
    (truthy inWait = true ->
     run = ([IsJobInList (toKey queue (VStr "wait")) (id this)], Ok inWait))
    /\ (truthy inWait = false ->
        run = ([IsJobInList (toKey queue (VStr "wait")) (id this);
                IsJobInList (toKey queue (VStr "paused")) (id this)],
               isJobInList engine (toKey queue (VStr "paused")) (id this)))
    /\ (forall inPaused,
          isJobInList engine (toKey queue (VStr "paused")) (id this) = Ok inPaused ->
          snd run = Ok (or inWait inPaused)).
Proof.
  intros queue engine this inWait Hw run. subst run.
  unfold isWaiting, isInList. rewrite Hw. unfold or.
  destruct (truthy inWait); repeat split; try discriminate.
  intros inPaused ->. reflexivity.
Qed.

End RestFacts.

(** ** The promise of [waitUntilFinished] *)

Module WaiterFacts.
Import JS JSON Utils Job Waiter TextFacts.

Lemma events_differ (jobId : JsVal) :
  (failedEvent jobId =? completedEvent jobId)%string = false.
Proof. reflexivity. Qed.

Lemma removeListeners_listening (jobId : JsVal) (r : Result JsVal) :
  removeListeners jobId (settle r (listening jobId)) = finished_with r.
Proof.
  unfold removeListeners, settle, listening, finished_with, removeListener.
  cbn [settled listeners interval filter]. rewrite String.eqb_refl. cbn [negb].
  destruct (failedEvent jobId =? completedEvent jobId)%string; cbn [negb filter];
    rewrite ?String.eqb_refl; reflexivity.
Qed.

Lemma settle_removeListeners_listening (jobId : JsVal) (r : Result JsVal) :
  settle r (removeListeners jobId (listening jobId)) = finished_with r.
Proof.
  unfold removeListeners, settle, listening, finished_with, removeListener.
  cbn [settled listeners interval filter]. rewrite String.eqb_refl. cbn [negb].
  destruct (failedEvent jobId =? completedEvent jobId)%string; cbn [negb filter];
    rewrite ?String.eqb_refl; reflexivity.
Qed.

(** Nothing reaches a promise that has settled and cleaned up. *)
Lemma deliver_finished (jobId : JsVal) (o : Occurrence) (r : Result JsVal) :
  deliver jobId o (finished_with r) = (finished_with r, None).
Proof. destruct o; reflexivity. Qed.

Lemma occur_finished (jobId : JsVal) (os : list Occurrence) (r : Result JsVal) :
  occur jobId os (finished_with r) = finished_with r.
Proof.
  induction os as [|o os IH]; [reflexivity|].
  cbn [occur]. now rewrite deliver_finished.
Qed.

(** One occurrence on the promise as the executor leaves it. *)
Lemma deliver_listening (jobId : JsVal) (o : Occurrence) :
  fst (deliver jobId o (listening jobId)) = listening jobId
  \/ exists r, fst (deliver jobId o (listening jobId)) = finished_with r.
Proof.
  destruct o as [event args|closing]; cbn [deliver].
  - destruct (existsb _ _); [|now left].
    destruct (event =? completedEvent jobId)%string.
    + unfold onCompleted. destruct (get args "returnvalue"); [|now left].
      right. eexists. cbn [fst]. apply removeListeners_listening.
    + destruct (event =? failedEvent jobId)%string; [|now left].
      unfold onFailed. destruct (get args "failedReason"); [|now left].
      right. eexists. cbn [fst]. apply removeListeners_listening.
  - cbn [interval listening]. unfold watchdog. destruct closing; [|now left].
    right. eexists. cbn [fst]. apply settle_removeListeners_listening.
Qed.

Lemma occur_listening (jobId : JsVal) (os : list Occurrence) :
  occur jobId os (listening jobId) = listening jobId
  \/ exists r, occur jobId os (listening jobId) = finished_with r.
Proof.
  induction os as [|o os IH]; [now left|].
  cbn [occur]. destruct (deliver_listening jobId o) as [-> | [r ->]].
  - exact IH.
  - right. exists r. apply occur_finished.
Qed.

Lemma occur_app (jobId : JsVal) (os os' : list Occurrence) (w : Waiting) :
  occur jobId (os ++ os') w = occur jobId os' (occur jobId os w).
Proof.
  revert w; induction os as [|o os IH]; intros w; [reflexivity|].
  cbn [occur app]. apply IH.
Qed.

Lemma deliver_idle (jobId : JsVal) (o : Occurrence) :
  idle jobId o = true -> deliver jobId o (listening jobId) = (listening jobId, None).
Proof.
  destruct o as [event args|closing]; cbn [idle deliver].
  - intros [H1%Bool.negb_true_iff H2%Bool.negb_true_iff]%Bool.andb_true_iff.
    cbn [listening listeners existsb]. now rewrite H1, H2.
  - intros ->%Bool.negb_true_iff. reflexivity.
Qed.

Lemma occur_idle (jobId : JsVal) (os : list Occurrence) :
  forallb (idle jobId) os = true -> occur jobId os (listening jobId) = listening jobId.
Proof.
  induction os as [|o os IH]; [reflexivity|].
  cbn [forallb occur]. intros [Ho Hos]%Bool.andb_true_iff.
  rewrite deliver_idle by assumption. now apply IH.
Qed.

(** X21.  The promise never leaks and settles once.  Whatever is emitted
    and whenever the timer fires, the promise is either still pending, with
    both listeners registered and the interval set, or settled, with no
    listener left and the interval cleared; and once it has settled nothing
    that occurs later changes it. *)
Theorem promise_settles_once :
  forall (jobId : JsVal) (os later : list Occurrence),
    let w := occur jobId os (listening jobId) in
    (w = listening jobId
     \/ exists r, settled w = Some r /\ listeners w = [] /\ interval w = false)
    /\ (settled w <> None -> occur jobId (os ++ later) (listening jobId) = w).
Proof.
  intros jobId os later w. subst w. rewrite occur_app.
  destruct (occur_listening jobId os) as [-> | [r ->]].
  - split; [now left|]. intros H. now elim H.
  - split; [right; exists r; repeat split|]. intros _. apply occur_finished.
Qed.

(** X22.  The wait has no deadline: while all that occurs is events under
    other names and ticks of the timer on a queue that is not closing, the
    promise stays pending; and the first occurrence that is not of this
    kind (whose arguments can be read) settles it, whatever follows. *)
Theorem promise_ends_at_first_signal :
  forall (jobId : JsVal) (quiet : list Occurrence) (o : Occurrence)
         (later : list Occurrence),
    forallb (idle jobId) quiet = true ->
    occur jobId quiet (listening jobId) = listening jobId
    /\ (idle jobId o = false -> readable o = true ->
        settled (fst (deliver jobId o (listening jobId))) <> None
        /\ occur jobId (quiet ++ o :: later) (listening jobId)
           = fst (deliver jobId o (listening jobId))).
Proof.
  intros jobId quiet o later Hq. split; [now apply occur_idle|].
  intros Ho Hr. rewrite occur_app, occur_idle by assumption. cbn [occur].
  assert (Hs : exists r, fst (deliver jobId o (listening jobId)) = finished_with r).
  { destruct o as [event args|closing]; cbn [idle] in Ho; cbn [deliver].
    - assert (He : (event =? completedEvent jobId)%string = true
                   \/ ((event =? completedEvent jobId)%string = false
                       /\ (event =? failedEvent jobId)%string = true)).
      { destruct (event =? completedEvent jobId)%string; [now left|].
        destruct (event =? failedEvent jobId)%string; [now right | discriminate]. }
      cbn [listening listeners existsb].
      destruct He as [He | [Hc Hf]].
      + rewrite He. cbn [orb]. unfold onCompleted.
        destruct args; try discriminate; cbn [get]; eexists; cbn [fst];
          apply removeListeners_listening.
      + rewrite Hc, Hf. cbn [orb]. unfold onFailed.
        destruct args; try discriminate; cbn [get]; eexists; cbn [fst];
          apply removeListeners_listening.
    - apply Bool.negb_false_iff in Ho. subst closing.
      eexists. cbn [fst interval listening]. unfold watchdog.
      apply settle_removeListeners_listening. }
  destruct Hs as [r ->]. split; [discriminate | apply occur_finished].
Qed.

(** X23.  A completion never rejects the promise.  Whatever the event
    carries as return value, the promise resolves: with the decoded value
    when the field is JSON text (so with the value itself when it is the
    text of a value JSON represents exactly), and with undefined when the
    field is not a string or its text is malformed; a failure event rejects
    it with the reason the event carries. *)
Theorem completion_resolves :
  forall (jobId : JsVal) (args : Props),
    let completed := deliver jobId (Emitted (completedEvent jobId) (VObj args))
                       (listening jobId) in
    let returnvalue := lookup "returnvalue" args in
    (exists v, completed = (finished_with (Ok v), None)
               /\ (forall x, exact x = true -> returnvalue = stringify x -> v = x)
               /\ (is_string returnvalue = false -> v = VUndefined)
               /\ (forall e, parse returnvalue = Throw e -> v = VUndefined))
    /\ deliver jobId (Emitted (failedEvent jobId) (VObj args)) (listening jobId)
       = (finished_with (Throw (Error (lookup "failedReason" args))), None).
Proof.
  intros jobId args completed returnvalue. subst completed returnvalue. split.
  - cbn [deliver listening listeners existsb]. rewrite String.eqb_refl. cbn [orb].
    unfold onCompleted. cbn [get].
    change {| listeners := [completedEvent jobId; failedEvent jobId];
              interval := true; settled := None |} with (listening jobId).
    rewrite removeListeners_listening. eexists. split; [reflexivity|]. repeat split.
    + intros x Hx E. rewrite E.
      assert (Hs : stringify x = VStr (stringify_value x))
        by (destruct x; reflexivity || discriminate).
      rewrite Hs. cbn [is_string]. rewrite <- Hs.
      now rewrite parse_stringify_exact.
    + intros ->. reflexivity.
    + intros e ->. now destruct (is_string _).
  - cbn [deliver listening listeners existsb].
    rewrite String.eqb_refl, Bool.orb_true_r, events_differ.
    unfold onFailed. cbn [get].
    change {| listeners := [completedEvent jobId; failedEvent jobId];
              interval := true; settled := None |} with (listening jobId).
    now rewrite removeListeners_listening.
Qed.

End WaiterFacts.

(** ** The constructor's options *)

Module ConstructorFacts.
Import JS JSON Utils Job Run TextFacts FailFacts RunFacts RoundTrip ReloadFacts.

Section Collaborators.
Variable normalize : JsVal -> JsVal.
Variable calculate : JsVal -> number -> JsVal -> JsError -> JsVal.
Variable finishedErrors : JsVal -> JsVal -> JsVal -> Exn.

(** How an option of a new job reads. *)
Lemma new_Job_lookup (o : Props) (k : string) :
  distinct (map fst o) = true ->
  lookup k (set "backoff" (normalize (lookup "backoff" o))
              (assign [("attempts", num 0); ("delay", num 0)] (VObj o)))
  = if ("backoff" =? k)%string then normalize (lookup "backoff" o)
    else if existsb (String.eqb k) (map fst o) then lookup k o
         else lookup k [("attempts", num 0); ("delay", num 0)].
Proof.
  intros Hd. rewrite lookup_set. destruct ("backoff" =? k)%string; [reflexivity|].
  now apply lookup_assign.
Qed.

(** X24.  The options of a new job: [backoff] is always what
    [Backoffs.normalize] makes of the supplied one; every other option that
    is supplied reads as supplied, also one supplied as undefined;
    [attempts] and [delay] read 0 when they are not supplied.  Omitted
    options are the empty object, and null options make the constructor
    throw a TypeError. *)
Theorem new_Job_options :
  forall (now : Z) (name0 data0 : JsVal) (o : Props),
    distinct (map fst o) = true ->
    (exists job,
       new_Job normalize now name0 data0 (VObj o) = Ok job
       /\ forall k,
            lookup k (opts job)
            = if ("backoff" =? k)%string then normalize (lookup "backoff" o)
              else if existsb (String.eqb k) (map fst o) then lookup k o
                   else lookup k [("attempts", num 0); ("delay", num 0)])
    /\ new_Job normalize now name0 data0 VUndefined
       = new_Job normalize now name0 data0 (VObj [])
    /\ new_Job normalize now name0 data0 VNull = Throw TypeError.
Proof.
  intros now name0 data0 o Hd. split; [|split; reflexivity].
  rewrite new_Job_object. eexists. split; [reflexivity|].
  intros k. cbn [opts]. now apply new_Job_lookup.
Qed.

(** X25.  A job made without an [attempts] option is never retried: its
    first failure moves it to the failed set, whatever the backoff options
    and the calculator say. *)
Theorem default_job_fails_at_once :
  forall (queue : QueueBase) (now later : Z) (name0 data0 : JsVal) (o : Props)
         (err : JsError) (ignoreLock : bool),
    distinct (map fst o) = true ->
    existsb (String.eqb "attempts") (map fst o) = false ->
    waitUntilReady queue = Ok tt ->
    exists job,
      new_Job normalize now name0 data0 (VObj o) = Ok job
      /\ exists batch,
           batches (trace (snd (moveToFailed calculate finishedErrors queue later job err
                                  ignoreLock))) = [batch]
           /\ terminal batch = true.
Proof.
  intros queue now later name0 data0 o err ignoreLock Hd Ha Hr.
  rewrite new_Job_object. eexists. split; [reflexivity|].
  apply moveToFailed_exhausted; [assumption|]. left.
  cbn [opts attemptsMade]. rewrite new_Job_lookup by assumption.
  assert (E : ("backoff" =? "attempts")%string = false) by reflexivity.
  rewrite E, Ha. reflexivity.
Qed.

End Collaborators.
End ConstructorFacts.

(** ** The further properties on concrete jobs *)

Module MoreConcrete.
Import JS JSON Utils Job Run Rest Waiter Doubles MoreDoubles.
Import AttemptFacts ReloadFacts FinishFacts RestFacts WaiterFacts ConstructorFacts.

Lemma moveToFailed_one_transition_witness :
  exists params op,
    trace (snd (moveToFailed calculate finishedErrors queue0 2000 job_default (error "1")
                  true))
    = [WaitUntilReady; Exec [hmset (VStr "bull:mail:1") params; op]]
    /\ In (transition_name op) [VStr "delayed"; VStr "retry"; VStr "failed"].
Proof.
  exact (moveToFailed_one_transition calculate finishedErrors queue0 2000 job_default
           (error "1") true eq_refl).
Defined.

Lemma moveToFailed_frame_witness :
  attemptsMade (fst (moveToFailed calculate finishedErrors queue_rejecting 2000
                       job_limit3 (error "1") true)) = Int 1
  /\ failedReason (fst (moveToFailed calculate finishedErrors queue_rejecting 2000
                          job_limit3 (error "1") true)) = VStr "boom 1"
  /\ opts (fst (moveToFailed calculate finishedErrors queue_rejecting 2000
                  job_limit3 (error "1") true)) = opts job_limit3.
Proof.
  destruct (moveToFailed_frame calculate finishedErrors queue_rejecting 2000 job_limit3
              (error "1") true eq_refl)
    as (H1 & H2 & _ & _ & _ & _ & H7 & _).
  split; [exact H1|]. split; [exact H2 | exact H7].
Defined.

Lemma moveToFailed_batch_failure_witness :
  (result (snd (moveToFailed calculate finishedErrors queue_rejecting 2000
                  job_default (error "1") true)) = Throw (Rejected (VStr "EXECABORT"))
   /\ attemptsMade (fst (moveToFailed calculate finishedErrors queue_rejecting 2000
                           job_default (error "1") true)) = Int 1)
  /\ result (snd (moveToFailed calculate finishedErrors queue_silent 2000
                    job_default (error "1") true)) = Throw TypeError.
Proof.
  split.
  - destruct (moveToFailed_batch_failure calculate finishedErrors queue_rejecting 2000
                job_default (error "1") true eq_refl) as [H _].
    apply H. intros batch. reflexivity.
  - destruct (moveToFailed_batch_failure calculate finishedErrors queue_silent 2000
                job_default (error "1") true eq_refl) as [_ H].
    apply H. intros batch. reflexivity.
Defined.

Lemma stored_stacktrace_lacks_last_witness :
  exists params op,
    batches (trace (snd (moveToFailed calculate finishedErrors queue0 3000 job_retried
                           (error "2") true)))
    = [[hmset (VStr "bull:mail:1") params; op]]
    /\ getTraces (lookup "stacktrace" params) = [VStr "Error: boom 1"]
    /\ retained (fst (moveToFailed calculate finishedErrors queue0 3000 job_retried
                        (error "2") true))
       = [VStr "Error: boom 1"; VStr "Error: boom 2"].
Proof.
  destruct (stored_stacktrace_lacks_last calculate finishedErrors queue0 3000 job_retried
              (error "2") true eq_refl)
    as (params & op & Hb & _ & _ & _ & Hg).
  exists params, op. split; [exact Hb|]. split; [exact (Hg eq_refl) | reflexivity].
Defined.

Lemma stacktrace_within_limit_witness :
  Z.of_nat (List.length (retained (fst (failures calculate finishedErrors queue0
                                          job_limit3 five_failures)))) <= 3
  /\ last (retained (fst (failures calculate finishedErrors queue0 job_limit3
                            five_failures))) VUndefined
     = VStr "Error: boom 5".
Proof.
  apply (stacktrace_within_limit calculate finishedErrors queue0 job_limit3 five_failures
           3 (0, error "0", true)); try reflexivity. discriminate.
Defined.

Lemma stacktrace_unlimited_witness :
  retained (fst (failures calculate finishedErrors queue0 (job_attempts 9) five_failures))
  = [VStr "Error: boom 1"; VStr "Error: boom 2"; VStr "Error: boom 3";
     VStr "Error: boom 4"; VStr "Error: boom 5"].
Proof.
  exact (stacktrace_unlimited calculate finishedErrors queue0 five_failures
           (job_attempts 9) eq_refl eq_refl).
Defined.

Lemma moveToFailed_delay_truthiness_witness :
  (exists params,
     batches (trace (snd (moveToFailed (constant (num (-500))) finishedErrors queue0 2000
                            job_immediate (error "1") true)))
     = [[hmset (VStr "bull:mail:1") params; moveToDelayed (VStr "1") (num 1500) true]])
  /\ (exists params,
        batches (trace (snd (moveToFailed (constant VUndefined) finishedErrors queue0 2000
                               job_immediate (error "1") true)))
        = [[hmset (VStr "bull:mail:1") params;
            retryJob (fst (moveToFailed (constant VUndefined) finishedErrors queue0 2000
                             job_immediate (error "1") true)) true]]).
Proof.
  split.
  - destruct (moveToFailed_delay_truthiness (constant (num (-500))) finishedErrors queue0
                2000 job_immediate (error "1") true eq_refl eq_refl eq_refl)
      as (params & H & _).
    exists params. apply (H (-500)); [reflexivity | lia | lia].
  - destruct (moveToFailed_delay_truthiness (constant VUndefined) finishedErrors queue0
                2000 job_immediate (error "1") true eq_refl eq_refl eq_refl)
      as (params & _ & H).
    exists params. apply H. reflexivity.
Defined.

Lemma fromJSON_throws_witness :
  fromJSON normalize 9000 (VObj stored_bad_data) (VStr "1") = ([], Throw SyntaxError)
  /\ fromJSON normalize 9000 (VObj stored_bad_opts) (VStr "1") = ([], Throw SyntaxError)
  /\ fromJSON normalize 9000 (VObj stored_bad_progress) (VStr "1")
     = ([], Throw SyntaxError)
  /\ fromJSON normalize 9000 (VObj stored_null_opts) (VStr "1") = ([], Throw TypeError).
Proof.
  split; [|split; [|split]].
  - destruct (fromJSON_throws normalize 9000 stored_bad_data (VStr "1") SyntaxError)
      as (H & _). exact (H eq_refl).
  - destruct (fromJSON_throws normalize 9000 stored_bad_opts (VStr "1") SyntaxError)
      as (_ & H & _). exact (H (VObj []) eq_refl eq_refl).
  - destruct (fromJSON_throws normalize 9000 stored_bad_progress (VStr "1") SyntaxError)
      as (_ & _ & H & _). apply (H (VObj []) (VObj [])); try reflexivity. discriminate.
  - destruct (fromJSON_throws normalize 9000 stored_null_opts (VStr "1") SyntaxError)
      as (_ & _ & _ & H). exact (H (VObj []) eq_refl eq_refl).
Defined.

Lemma fromJSON_defaults_witness :
  fromJSON normalize 9000 (VObj stored_sparse) (VStr "7")
  = ([], Ok {| id := VStr "7"; name := VStr "email"; data := VObj [];
               opts := [("attempts", num 0); ("delay", num 0); ("backoff", VUndefined)];
               progress := num 0; returnvalue := VNull; stacktrace := Some [];
               timestamp := num 9000; attemptsMade := Int 0;
               failedReason := VUndefined;
               finishedOn := None; processedOn := None; discarded := false |}).
Proof.
  exact (fromJSON_defaults normalize 9000 stored_sparse (VStr "7") eq_refl eq_refl eq_refl
           eq_refl eq_refl eq_refl eq_refl eq_refl).
Defined.

Lemma fromJSON_toJSON_image_witness :
  (exists job,
     fromJSON normalize 9000 (VObj (toJSON (set_progress (num 50) job_retried))) VUndefined
     = ([], Ok job)
     /\ data job = VObj [("to", VStr "a@b.com")]
     /\ progress job = num 50
     /\ stacktrace job = Some [VStr "Error: boom 1"]
     /\ returnvalue job = VNull)
  /\ (exists job,
        fromJSON normalize 9000 (VObj (toJSON (set_progress (VNum NaN) job_retried)))
          VUndefined
        = ([], Ok job)
        /\ data job = VObj [("to", VStr "a@b.com")]
        /\ progress job = num 0
        /\ stacktrace job = Some [VStr "Error: boom 1"]
        /\ returnvalue job = VNull).
Proof.
  split.
  - exact (fromJSON_toJSON_image normalize 9000 (set_progress (num 50) job_retried)
             VUndefined (Int 50) eq_refl eq_refl eq_refl eq_refl eq_refl).
  - exact (fromJSON_toJSON_image normalize 9000 (set_progress (VNum NaN) job_retried)
             VUndefined NaN eq_refl eq_refl eq_refl eq_refl eq_refl).
Defined.

Lemma fromJSON_toJSON_counters_witness :
  exists job,
    result (fromJSON normalize 9000 (VObj (toJSON job_finished)) VUndefined) = Ok job
    /\ name job = VStr "email"
    /\ id job = VStr "1"
    /\ attemptsMade job = Int 1
    /\ finishedOn job = Some (Int 7000)
    /\ processedOn job = Some (Int 6000).
Proof.
  exact (fromJSON_toJSON_counters normalize 9000 job_finished VUndefined 0 eq_refl eq_refl
           eq_refl).
Defined.

Lemma fromJSON_toJSON_not_restored_witness :
  exists job,
    result (fromJSON normalize 9000 (VObj (toJSON job_retried)) VUndefined) = Ok job
    /\ timestamp job_retried = num 1000
    /\ timestamp job = num 9000
    /\ failedReason job_retried = VStr "boom 1"
    /\ failedReason job = VStr (quote "boom 1").
Proof.
  destruct (fromJSON_toJSON_not_restored normalize 9000 job_retried VUndefined 0 eq_refl
              eq_refl eq_refl) as (job & Hres & Ht & _ & _ & Hf).
  exists job. split; [exact Hres|]. split; [reflexivity|]. split; [exact (Ht eq_refl)|].
  split; [reflexivity|]. exact (proj1 (Hf "boom 1" eq_refl)).
Defined.

Lemma moveToCompleted_truthy_witness :
  returnvalue (fst (moveToCompleted queue0 job_default (VObj [("sent", num 1)]) true))
  = VObj [("sent", num 1)]
  /\ getReturnValue (stringify (VObj [("sent", num 1)]))
     = ([], Ok (VObj [("sent", num 1)])).
Proof.
  destruct (moveToCompleted_truthy queue0 job_default (VObj [("sent", num 1)]) true
              eq_refl eq_refl) as (H1 & _ & H3).
  split; [exact H1 | exact (H3 eq_refl)].
Defined.


Lemma waitUntilFinished_failures_witness :
  waitUntilFinished normalize queue_rejecting 9000 job_default (num 5000)
  = ([WaitUntilReady; IsFinished (VStr "1")], Throw (Rejected (VStr "NOSCRIPT")))
  /\ waitUntilFinished normalize (queue_with (VObj []) 0 1) 9000 job_default (num 5000)
     = ([WaitUntilReady; IsFinished (VStr "1"); WaitUntilReady;
         Hgetall (VStr "bull:mail:1")],
        Throw TypeError)
  /\ waitUntilFinished normalize (queue_with (VObj []) 0 1) 9000 job_anonymous (num 5000)
     = ([WaitUntilReady; IsFinished VUndefined], Throw TypeError).
Proof.
  split; [|split].
  - destruct (waitUntilFinished_failures normalize queue_rejecting 9000 job_default
                (num 5000) eq_refl) as (H & _).
    exact (H _ eq_refl).
  - destruct (waitUntilFinished_failures normalize (queue_with (VObj []) 0 1) 9000
                job_default (num 5000) eq_refl) as (_ & H & _).
    exact (H (Int 1) (VObj []) eq_refl eq_refl eq_refl eq_refl eq_refl).
  - destruct (waitUntilFinished_failures normalize (queue_with (VObj []) 0 1) 9000
                job_anonymous (num 5000) eq_refl) as (_ & _ & H).
    exact (H (Int 1) eq_refl eq_refl eq_refl).
Defined.

Lemma not_ready_no_effect_witness :
  moveToFailed calculate finishedErrors queue_down 2000 job_default (error "1") true
  = (job_default, ([WaitUntilReady], Throw (Rejected (VStr "connection lost"))))
  /\ moveToCompleted queue_down job_default (num 42) true
     = (job_default, ([WaitUntilReady], Throw (Rejected (VStr "connection lost"))))
  /\ fromId normalize queue_down 9000 (VStr "1")
     = ([WaitUntilReady], Throw (Rejected (VStr "connection lost")))
  /\ waitUntilFinished normalize queue_down 9000 job_default (num 5000)
     = ([WaitUntilReady], Throw (Rejected (VStr "connection lost"))).
Proof.
  destruct (not_ready_no_effect normalize calculate finishedErrors queue_down 9000
              job_default (Rejected (VStr "connection lost")) eq_refl)
    as (_ & H2 & H3 & H4).
  destruct (not_ready_no_effect normalize calculate finishedErrors queue_down 2000
              job_default (Rejected (VStr "connection lost")) eq_refl)
    as (H1 & _).
  split; [exact (H1 (error "1") true)|]. split; [exact (H2 (num 42) true)|].
  split; [exact (H3 (VStr "1") eq_refl) | exact (H4 (num 5000))].
Defined.


Lemma update_then_decode_witness :
  fst (update queue0 engine0 job_default (num 0))
  = [Core WaitUntilReady; Hset (VStr "bull:mail:1") "data" (VStr "0")]
  /\ exists job,
       result (fromJSON normalize 9000
                 (VObj (written stored_completed
                          (fst (update queue0 engine0 job_default (num 0)))))
                 (VStr "1")) = Ok job
       /\ data job = num 0.
Proof.
  destruct (update_then_decode normalize queue0 engine0 9000 job_default stored_completed
              (VStr "1") (num 0) (VObj []) (num 0) eq_refl eq_refl eq_refl
              ltac:(discriminate) eq_refl) as (H1 & _ & H3).
  split; [exact H1 | exact H3].
Defined.

Lemma updateProgress_then_decode_witness :
  (exists job,
     result (fromJSON normalize 9000
               (VObj (toJSON (fst (updateProgress engine0 job_default (num 50)))))
               VUndefined) = Ok job
     /\ progress job = num 50)
  /\ (exists job,
        result (fromJSON normalize 9000
                  (VObj (toJSON (fst (updateProgress engine0 job_default (VNum NaN)))))
                  VUndefined) = Ok job
        /\ progress job = num 0)
  /\ fromJSON normalize 9000
       (VObj (toJSON (fst (updateProgress engine0 job_default (VObj [("done", num 1)])))))
       VUndefined
     = ([], Throw SyntaxError)
  /\ (exists job,
        result (fromJSON normalize 9000
                  (VObj (toJSON (fst (updateProgress engine0 job_default (VArr [num 5])))))
                  VUndefined) = Ok job
        /\ progress job = num 5)
  /\ fromJSON normalize 9000
       (VObj (toJSON (fst (updateProgress engine0 job_default (VArr [num 1; num 2])))))
       VUndefined
     = ([], Throw SyntaxError)
  /\ fromJSON normalize 9000
       (VObj (toJSON (fst (updateProgress engine0 job_default (VArr [])))))
       VUndefined
     = ([], Throw SyntaxError).
Proof.
  split; [|split; [|split; [|split; [|split]]]].
  - destruct (updateProgress_then_decode normalize engine0 9000 job_default VUndefined
                (num 50) eq_refl eq_refl) as (_ & _ & H & _).
    exact (H (Int 50) eq_refl).
  - destruct (updateProgress_then_decode normalize engine0 9000 job_default VUndefined
                (VNum NaN) eq_refl eq_refl) as (_ & _ & H & _).
    exact (H NaN eq_refl).
  - destruct (updateProgress_then_decode normalize engine0 9000 job_default VUndefined
                (VObj [("done", num 1)]) eq_refl eq_refl) as (_ & _ & _ & H & _).
    exact (H _ eq_refl).
  - destruct (updateProgress_then_decode normalize engine0 9000 job_default VUndefined
                (VArr [num 5]) eq_refl eq_refl) as (_ & _ & _ & _ & H).
    exact (proj1 (H _ eq_refl) (num 5) eq_refl).
  - destruct (updateProgress_then_decode normalize engine0 9000 job_default VUndefined
                (VArr [num 1; num 2]) eq_refl eq_refl) as (_ & _ & _ & _ & H).
    exact (proj2 (H _ eq_refl) SyntaxError eq_refl).
  - destruct (updateProgress_then_decode normalize engine0 9000 job_default VUndefined
                (VArr []) eq_refl eq_refl) as (_ & _ & _ & _ & H).
    exact (proj2 (H _ eq_refl) SyntaxError eq_refl).
Defined.

Lemma remove_outcomes_witness :
  In (Emit "removed" job_default) (fst (remove queue0 engine0 job_default))
  /\ remove queue0 (engine_with (VStr "7") (num 0) VNull (num 0) (num 1)) job_default
     = ([Core WaitUntilReady; Remove (VStr "1")],
        Throw (Error (VStr "Could not remove job 1"))).
Proof.
  split.
  - destruct (remove_outcomes queue0 engine0 job_default) as ([H _] & _).
    exact (H eq_refl).
  - destruct (remove_outcomes queue0 (engine_with (VStr "7") (num 0) VNull (num 0) (num 1))
                job_default) as (_ & _ & H & _).
    exact (H (num 0) eq_refl eq_refl eq_refl).
Defined.

Lemma isWaiting_short_circuit_witness :
  isWaiting queue0 engine0 job_default
  = ([IsJobInList (VStr "bull:mail:wait") (VStr "1");
      IsJobInList (VStr "bull:mail:paused") (VStr "1")],
     Ok (num 1))
  /\ isWaiting queue0 (engine_with (VStr "7") (num 1) VNull (num 1) (num 0)) job_default
     = ([IsJobInList (VStr "bull:mail:wait") (VStr "1")], Ok (num 1)).
Proof.
  split.
  - destruct (isWaiting_short_circuit queue0 engine0 job_default (num 0) eq_refl)
      as (_ & H & _).
    exact (H eq_refl).
  - destruct (isWaiting_short_circuit queue0
                (engine_with (VStr "7") (num 1) VNull (num 1) (num 0)) job_default (num 1)
                eq_refl) as (H & _).
    exact (H eq_refl).
Defined.

Lemma promise_settles_once_witness :
  occur (VStr "1") [progressed; completion; failure; Tick true] (listening (VStr "1"))
  = finished_with (Ok (num 42)).
Proof.
  destruct (promise_settles_once (VStr "1") [progressed; completion] [failure; Tick true])
    as (_ & H).
  exact (H ltac:(discriminate)).
Defined.

Lemma promise_ends_at_first_signal_witness :
  occur (VStr "1") [progressed; Tick false] (listening (VStr "1")) = listening (VStr "1")
  /\ occur (VStr "1") ([progressed; Tick false] ++ [failure; completion])
       (listening (VStr "1"))
     = finished_with (Throw (Error (VStr "boom 1"))).
Proof.
  destruct (promise_ends_at_first_signal (VStr "1") [progressed; Tick false] failure
              [completion] eq_refl) as (H1 & H2).
  split; [exact H1|]. exact (proj2 (H2 eq_refl eq_refl)).
Defined.

Lemma completion_resolves_witness :
  deliver (VStr "1") completion (listening (VStr "1"))
  = (finished_with (Ok (num 42)), None)
  /\ deliver (VStr "1") (Emitted "completed:1" (VObj [("returnvalue", VStr "{oops")]))
       (listening (VStr "1"))
     = (finished_with (Ok VUndefined), None).
Proof.
  split.
  - destruct (completion_resolves (VStr "1") [("returnvalue", VStr "42")])
      as ((v & Hc & Hx & _) & _).
    refine (eq_trans Hc _). now rewrite (Hx (num 42) eq_refl eq_refl).
  - destruct (completion_resolves (VStr "1") [("returnvalue", VStr "{oops")])
      as ((v & Hc & _ & _ & He) & _).
    refine (eq_trans Hc _). now rewrite (He SyntaxError eq_refl).
Defined.

Lemma new_Job_options_witness :
  exists job,
    new_Job normalize 1000 (VStr "email") VNull
      (VObj [("attempts", VUndefined); ("backoff", num 500)]) = Ok job
    /\ lookup "attempts" (opts job) = VUndefined
    /\ lookup "delay" (opts job) = num 0
    /\ lookup "backoff" (opts job) = VObj [("type", VStr "fixed"); ("delay", num 500)].
Proof.
  destruct (new_Job_options normalize 1000 (VStr "email") VNull
              [("attempts", VUndefined); ("backoff", num 500)] eq_refl)
    as ((job & Hj & Hk) & _).
  exists job. split; [exact Hj|].
  split; [exact (Hk "attempts")|]. split; [exact (Hk "delay") | exact (Hk "backoff")].
Defined.

Lemma default_job_fails_at_once_witness :
  exists job,
    new_Job normalize 1000 (VStr "email") VNull (VObj [("backoff", num 500)]) = Ok job
    /\ exists batch,
         batches (trace (snd (moveToFailed calculate finishedErrors queue0 2000 job
                                (error "1") true))) = [batch]
         /\ terminal batch = true.
Proof.
  exact (default_job_fails_at_once normalize calculate finishedErrors queue0 1000 2000
           (VStr "email") VNull [("backoff", num 500)] (error "1") true
           eq_refl eq_refl eq_refl).
Defined.

End MoreConcrete.
